(** * pmlbeta: the peptide builder, its sequence grammar and its
      secondary-structure database

    A shallow embedding of the parts of [betafab2.py], [secstructdb.py],
    [utils.py] and [betafabgui2/sequencemodel.py] that build and check
    alpha/beta-peptides, followed by the properties proved about them.

    Conventions of the embedding:
    - Python [float]s (torsion angles, RMS values, coordinates) are the
      rational numbers their decimal notation denotes ([Q]); comparisons
      and arithmetic on them are exact.
    - Python exceptions are values of [exn]; a computation that may raise
      returns a [result].
    - A [dict] is an association list in insertion order with distinct
      keys.
    - PyMOL is a session of named objects ([pymol.World]); what the
      plugin cannot know of it (the outcome of a superposition, the
      fragment library, random numbers, the clock) is an [Oracle].

    Layout: the embedding; an example session; the vocabulary of the
    properties; the properties, one module per subject. *)

From Stdlib Require Import QArith Qabs Qround Ascii String.
From stdpp Require Import base strings list gmap pretty.

Set Default Proof Using "Type".
Local Open Scope string_scope.
Local Open Scope list_scope.

(* ================================================================== *)
(** * Python values: exceptions, results, dictionaries                 *)
(* ================================================================== *)

Inductive exn : Type :=
| TypeError (msg : string)
| ValueError (msg : string)
| KeyError (key : string)
| IndexError (msg : string)
| RuntimeError (msg : string)
| NotImplementedError (msg : string)
| AssertionError
| UnboundLocalError (msg : string)
| NonTermination
| CmdException (msg : string)
| BetaPeptideConsistencyError (msg : string).

Inductive result (A : Type) : Type :=
| Ok (a : A)
| Raise (e : exn).
Arguments Ok {A} a.
Arguments Raise {A} e.

Definition is_ok {A} (r : result A) : bool :=
  match r with Ok _ => true | Raise _ => false end.

Definition rbind {A B} (r : result A) (k : A → result B) : result B :=
  match r with Ok a => k a | Raise e => Raise e end.

(** [d[k] = v]: an existing key keeps its place, a new key goes last. *)
Fixpoint dict_set {V} (k : string) (v : V) (d : list (string * V)) : list (string * V) :=
  match d with
  | [] => [(k, v)]
  | (k', v') :: d' =>
      if String.eqb k' k then (k, v) :: d' else (k', v') :: dict_set k v d'
  end.

(** [d.update(other)] *)
Definition dict_update {V} (d other : list (string * V)) : list (string * V) :=
  fold_left (λ acc kv, dict_set kv.1 kv.2 acc) other d.

Fixpoint dict_get {V} (k : string) (d : list (string * V)) : option V :=
  match d with
  | [] => None
  | (k', v') :: d' => if String.eqb k' k then Some v' else dict_get k d'
  end.

(** [del d[k]], doing nothing when the key is absent (the caller swallows
    the [KeyError]). *)
Fixpoint dict_del {V} (k : string) (d : list (string * V)) : list (string * V) :=
  match d with
  | [] => []
  | (k', v') :: d' => if String.eqb k' k then d' else (k', v') :: dict_del k d'
  end.

Definition dict_keys {V} (d : list (string * V)) : list string := d.*1.

(** [x in l] for a list of strings. *)
Definition in_list (x : string) (l : list string) : bool := existsb (String.eqb x) l.

(** Exact comparison of two numbers. *)
Definition Qltb (x y : Q) : bool := negb (Qle_bool y x).

(** The place a list index denotes: a negative index counts from the
    end, and an index beyond either end denotes none. *)
Definition py_index {A} (l : list A) (i : Z) : option nat :=
  let n := Z.of_nat (length l) in
  if (0 <=? i)%Z && (i <? n)%Z then Some (Z.to_nat i)
  else if (- n <=? i)%Z && (i <? 0)%Z then Some (Z.to_nat (n + i))
  else None.

(** [l[i]] *)
Definition py_getitem {A} (l : list A) (i : Z) : result A :=
  match py_index l i with
  | Some k =>
      match l !! k with
      | Some x => Ok x
      | None => Raise (IndexError "list index out of range")
      end
  | None => Raise (IndexError "list index out of range")
  end.

(** [del l[i]] *)
Definition py_delitem {A} (l : list A) (i : Z) : result (list A) :=
  match py_index l i with
  | Some k => Ok (delete k l)
  | None => Raise (IndexError "list assignment index out of range")
  end.

(** The place [l.insert(i, x)] inserts at, and the bounds of a slice
    [l[a:b]]: a negative index counts from the end, and what falls
    outside of the list is moved to its nearest end. *)
Definition py_clamp {A} (l : list A) (i : Z) : nat :=
  let n := Z.of_nat (length l) in
  Z.to_nat (if (i <? 0)%Z then Z.max 0 (n + i) else Z.min i n).

(** [l.insert(i, x)] *)
Definition py_insert {A} (l : list A) (i : Z) (x : A) : list A :=
  take (py_clamp l i) l ++ x :: drop (py_clamp l i) l.

(** [del l[a:b]] *)
Definition py_delslice {A} (l : list A) (a b : Z) : list A :=
  let a' := py_clamp l a in
  let b' := py_clamp l b in
  if (a' <? b')%nat then take a' l ++ drop b' l else l.

(* ================================================================== *)
(** * Python strings and numbers                                       *)
(* ================================================================== *)

Definition ascii_in (lo hi : N) (c : ascii) : bool :=
  (lo <=? N_of_ascii c)%N && (N_of_ascii c <=? hi)%N.

Definition is_digit : ascii → bool := ascii_in 48 57.
Definition is_upper : ascii → bool := ascii_in 65 90.
Definition is_lower : ascii → bool := ascii_in 97 122.

(** The characters [str.isspace] and the pattern [\s] accept, among the
    first 128 code points. *)
Definition is_space (c : ascii) : bool :=
  ascii_in 9 13 c || ascii_in 28 32 c.

Fixpoint str_drop (n : nat) (s : string) : string :=
  match n, s with
  | S n', String _ s' => str_drop n' s'
  | _, _ => s
  end.

Fixpoint str_take (n : nat) (s : string) : string :=
  match n, s with
  | S n', String c s' => String c (str_take n' s')
  | _, _ => ""
  end.

Fixpoint str_rev_onto (s acc : string) : string :=
  match s with
  | "" => acc
  | String c s' => str_rev_onto s' (String c acc)
  end.

Fixpoint lstrip (s : string) : string :=
  match s with
  | String c s' => if is_space c then lstrip s' else s
  | "" => ""
  end.

(** [s.strip()] *)
Definition strip (s : string) : string :=
  str_rev_onto (lstrip (str_rev_onto (lstrip s) "")) "".

(** [s.split(',')] *)
Fixpoint split_comma_go (s cur : string) : list string :=
  match s with
  | "" => [str_rev_onto cur ""]
  | String c s' =>
      if Ascii.eqb c "," then str_rev_onto cur "" :: split_comma_go s' ""
      else split_comma_go s' (String c cur)
  end.
Definition split_comma (s : string) : list string := split_comma_go s "".

(** [' '.join(l)] *)
Fixpoint join_space (l : list string) : string :=
  match l with
  | [] => ""
  | [x] => x
  | x :: l' => x +:+ " " +:+ join_space l'
  end.

(** The longest prefix of [s] made of characters accepted by [p], and
    what follows it. *)
Fixpoint span (p : ascii → bool) (s : string) : string * string :=
  match s with
  | String c s' =>
      if p c then let '(a, b) := span p s' in (String c a, b) else ("", s)
  | "" => ("", "")
  end.

Definition digit_val (c : ascii) : N := (N_of_ascii c - 48)%N.

Fixpoint digits_val (acc : N) (s : string) : N :=
  match s with
  | "" => acc
  | String c s' => digits_val (10 * acc + digit_val c) s'
  end.

Definition digit_char (d : N) : ascii := ascii_of_N (48 + d).

(** The [w] last decimal digits of [n]. *)
Fixpoint pad_digits (w : nat) (n : N) (acc : string) : string :=
  match w with
  | O => acc
  | S w' => pad_digits w' (n / 10) (String (digit_char (n mod 10)) acc)
  end.

(** The number of decimal digits of [n] (one for zero). *)
Fixpoint ndigits (fuel : nat) (n : N) : nat :=
  match fuel with
  | O => 1
  | S fuel' => if (n <? 10)%N then 1 else S (ndigits fuel' (n / 10))
  end.

(** [str(n)] for a natural number. *)
Definition str_N (n : N) : string :=
  pad_digits (ndigits (N.size_nat n) n) n "".

(** [str(i)] for an integer. *)
Definition str_Z (i : Z) : string :=
  match i with
  | Zneg p => "-" +:+ str_N (Npos p)
  | _ => str_N (Z.to_N i)
  end.

(** [m * 10 ** e] *)
Definition scale10 (m : Z) (e : Z) : Q :=
  if (0 <=? e)%Z then inject_Z (m * 10 ^ e) else (m # Z.to_pos (10 ^ (- e)))%Q.

(** [float(s)] on the texts the sequence grammar can hand to it: an
    optional sign, digits with an optional fraction (or a fraction alone)
    and an optional exponent, and nothing else; any other text is a
    [ValueError]. The result is in lowest terms, so that two texts
    denoting the same number give equal values. *)
Definition float (s : string) : result Q :=
  let err := Raise (ValueError ("could not convert string to float: " +:+ s)) in
  let '(neg, s1) :=
    match s with
    | String c t =>
        if Ascii.eqb c "-" then (true, t)
        else if Ascii.eqb c "+" then (false, t) else (false, s)
    | "" => (false, s)
    end in
  let '(ip, s2) := span is_digit s1 in
  let '(fp, s3) :=
    match s2 with
    | String c t => if Ascii.eqb c "." then span is_digit t else ("", s2)
    | "" => ("", s2)
    end in
  if (String.length ip + String.length fp =? 0)%nat then err else
  let mant := Z.of_N (digits_val 0 (ip +:+ fp)) in
  let mant := if neg then (- mant)%Z else mant in
  let finish (ex : Z) (rest : string) : result Q :=
    match rest with
    | "" => Ok (Qred (scale10 mant (ex - Z.of_nat (String.length fp))))
    | _ => err
    end in
  match s3 with
  | String c t =>
      if Ascii.eqb c "e" || Ascii.eqb c "E" then
        let '(eneg, t1) :=
          match t with
          | String d u =>
              if Ascii.eqb d "-" then (true, u)
              else if Ascii.eqb d "+" then (false, u) else (false, t)
          | "" => (false, t)
          end in
        let '(ed, t2) := span is_digit t1 in
        if (String.length ed =? 0)%nat then err else
        let ex := Z.of_N (digits_val 0 ed) in
        finish (if eneg then (- ex)%Z else ex) t2
      else err
  | "" => finish 0%Z ""
  end.

(** A number written as in the source. *)
Definition lit (s : string) : Q :=
  match float s with Ok q => q | Raise _ => 0%Q end.

(** Rounding to the nearest integer, ties to even. *)
Definition round_half_even (q : Q) : Z :=
  let f := Qfloor q in
  let r := (q - inject_Z f)%Q in
  if Qltb r (1 # 2) then f
  else if Qltb (1 # 2) r then (f + 1)%Z
  else if Z.even f then f else (f + 1)%Z.

(** ['{:f}'.format(q)]: six digits after the point. *)
Definition format_f (q : Q) : string :=
  let n := Z.to_N (round_half_even (Qabs q * inject_Z 1000000)) in
  (if Qltb q 0 then "-" else "")
  +:+ str_N (n / 1000000) +:+ "." +:+ pad_digits 6 (n mod 1000000) "".

(* ================================================================== *)
(** * The regular expressions of [re], by backtracking                 *)
(* ================================================================== *)

Module re.

(** The text of the named groups that took part in a match. *)
Definition groups : Type := list (string * string).

Inductive regex : Type :=
| Lit (s : string)                               (* a literal text *)
| Chr (p : ascii → bool)                         (* a character class *)
| Rep (p : ascii → bool) (lo : nat) (hi : option nat)
(* class{lo,hi}, greedy *)
| Seq (r1 r2 : regex)
| Alt (r1 r2 : regex)                            (* r1|r2, r1 first *)
| Opt (r : regex)                                (* (r)?, greedy *)
| Group (name : string) (r : regex)              (* (?P<name>r) *)
| Eol.                                           (* $ *)

Fixpoint span_len (p : ascii → bool) (s : string) : nat :=
  match s with
  | String c s' => if p c then S (span_len p s') else O
  | "" => O
  end.

(** All the ways [r] matches at the start of [s], in the order the
    backtracking engine tries them: the text matched, what is left of
    [s], and the groups set so far. *)
Fixpoint results (r : regex) (s : string) (g : groups)
    : list (string * string * groups) :=
  match r with
  | Lit l =>
      if String.prefix l s then [(l, str_drop (String.length l) s, g)] else []
  | Chr p =>
      match s with
      | String c s' => if p c then [(String c "", s', g)] else []
      | "" => []
      end
  | Rep p lo hi =>
      let n := span_len p s in
      let n := match hi with Some h => n `min` h | None => n end in
      (λ k, (str_take k s, str_drop k s, g)) <$> rev (seq lo (S n - lo))
  | Seq r1 r2 =>
      flat_map (λ x : string * string * groups,
                  (λ y : string * string * groups, (x.1.1 +:+ y.1.1, y.1.2, y.2))
                    <$> results r2 x.1.2 x.2)
               (results r1 s g)
  | Alt r1 r2 => results r1 s g ++ results r2 s g
  | Opt r1 => results r1 s g ++ [("", s, g)]
  | Group name r1 =>
      (λ x : string * string * groups, (x.1.1, x.1.2, dict_set name x.1.1 x.2))
        <$> results r1 s g
  | Eol =>
      match s with
      | "" => [("", s, g)]
      | String c "" => if Ascii.eqb c "010" then [("", s, g)] else []
      | _ => []
      end
  end.

(** [pattern.match(s)]: the first way to match at the start of [s]. *)
Definition match_ (r : regex) (s : string) : option groups :=
  snd <$> head (results r s []).

Fixpoint seq_of (rs : list regex) : regex :=
  match rs with
  | [] => Lit ""
  | [r] => r
  | r :: rs' => Seq r (seq_of rs')
  end.

Fixpoint alt_of (rs : list regex) : regex :=
  match rs with
  | [] => Chr (λ _, false)
  | [r] => r
  | r :: rs' => Alt r (alt_of rs')
  end.

Definition one_of (cs : string) (c : ascii) : bool :=
  existsb (Ascii.eqb c) (list_ascii_of_string cs).

Definition star (p : ascii → bool) : regex := Rep p 0 None.
Definition plus (p : ascii → bool) : regex := Rep p 1 None.

End re.

(* ================================================================== *)
(** * secstructdb.py                                                   *)
(* ================================================================== *)

Module SecondaryStructureDB.

(** A stored entry: [(phi, theta, psi)], [theta] being [None] for the
    secondary structures of alpha-peptides. *)
Definition angles : Type := Q * option Q * Q.
Definition helixtypes : Type := list (string * angles).

Definition DEFAULT_HELIXTYPES : helixtypes := Eval vm_compute in
  [
    ("Z6M", (lit "126.7", Some (lit "62.6"), lit "152.7"));
    ("Z6P", (lit "-126.7", Some (lit "-62.6"), lit "-152.7"));
    ("Z8M", (lit "47.5", Some (lit "53.5"), lit "-104.3"));
    ("Z8P", (lit "-47.5", Some (lit "-53.5"), lit "104.3"));
    ("H8M", (lit "76.8", Some (lit "-120.6"), lit "52.7"));
    ("H8P", (lit "-76.8", Some (lit "120.6"), lit "-52.7"));
    ("H10M", (lit "-77.5", Some (lit "-51.8"), lit "-75.1"));
    ("H10P", (lit "77.5", Some (lit "51.8"), lit "75.1"));
    ("H12M", (lit "92.3", Some (lit "-90.0"), lit "104.6"));
    ("H12P", (lit "-92.3", Some (lit "90.0"), lit "-104.6"));
    ("H14M", (lit "-140.3", Some (lit "66.5"), lit "-136.8"));
    ("H14P", (lit "140.3", Some (lit "-66.5"), lit "136.8"));
    ("SM", (lit "70.5", Some (lit "176.2"), lit "168.9"));
    ("SP", (lit "-70.5", Some (lit "-176.2"), lit "-168.9"));
    ("Straight", (lit "180", Some (lit "180"), lit "180"));
    ("Straight alpha", (lit "180", None, lit "180"));
    ("Alpha-helix", (lit "-57", None, lit "-47"));
    ("3_10-helix", (lit "-49", None, lit "-26"));
    ("P-beta-sheet", (lit "-119", None, lit "113"));
    ("AP-beta-sheet", (lit "-139", None, lit "135")) ].

(** An instance of the class (there is nothing in it). *)
Inductive instance : Type := Instance.

(** The state the class lives in: its [_instance] attribute and the
    plugin preference [BETAFAB_HELIXTYPES] ([None] while it was never
    set, in which case [pref_get] answers with its default). *)
Record state : Type := State {
  _instance : option instance;
  BETAFAB_HELIXTYPES : option helixtypes
}.

Definition initial : state :=
  {| _instance := None; BETAFAB_HELIXTYPES := None |}.

(** [object.__new__]: the class to instantiate is its first argument,
    and calling it with none is a [TypeError]. *)
Definition object_new (args : list unit) : result instance :=
  match args with
  | [] => Raise (TypeError "object.__new__(): not enough arguments")
  | _ :: _ => Ok Instance
  end.

(** [__new__(cls)]: [super().__new__()] is [object.__new__] called
    without argument. *)
Definition __new__ (st : state) : result instance * state :=
  match _instance st with
  | None =>
      match object_new [] with
      | Ok obj => (Ok obj, {| _instance := Some obj;
                              BETAFAB_HELIXTYPES := BETAFAB_HELIXTYPES st |})
      | Raise e => (Raise e, st)
      end
  | Some obj => (Ok obj, st)
  end.

Definition pref_get (st : state) (dflt : helixtypes) : helixtypes :=
  default dflt (BETAFAB_HELIXTYPES st).

Definition pref_set (d : helixtypes) (st : state) : state :=
  {| _instance := _instance st; BETAFAB_HELIXTYPES := Some d |}.

Definition is_beta_entry (kv : string * angles) : bool :=
  match kv.2.1.2 with Some _ => true | None => false end.

Definition getAll (st : state) (alpha beta : bool) : helixtypes :=
  let ss := pref_get st DEFAULT_HELIXTYPES in
  let ssbeta := List.filter is_beta_entry ss in
  let ssalpha := List.filter (λ kv, negb (is_beta_entry kv)) ss in
  let dic := dict_update [] (if alpha then ssalpha else []) in
  dict_update dic (if beta then ssbeta else []).

Definition add (name : string) (phi : Q) (theta : option Q) (psi : Q)
    (st : state) : state :=
  let dic := getAll st true true in
  pref_set (dict_set name (phi, theta, psi) dic) st.

Definition remove (name : string) (st : state) : state :=
  let dic := getAll st true true in
  pref_set (dict_del name dic) st.

(** The dict comprehension of [find]: the entries of the right kind that
    are within [tolerance] in each angle, with the sum of their
    deviations. *)
Definition find_diff (phi : Q) (theta : option Q) (psi : Q) (tolerance : Q)
    (kv : string * angles) : option (string * Q) :=
  let '(k, (a0, a1, a2)) := kv in
  match theta, a1 with
  | None, None =>
      if Qltb (Qabs (a0 - phi)) tolerance && Qltb (Qabs (a2 - psi)) tolerance
      then Some (k, (Qabs (a0 - phi) + Qabs (a2 - psi))%Q) else None
  | Some th, Some a1 =>
      if Qltb (Qabs (a0 - phi)) tolerance && Qltb (Qabs (a1 - th)) tolerance
         && Qltb (Qabs (a2 - psi)) tolerance
      then Some (k, (Qabs (a0 - phi) + Qabs (a1 - th) + Qabs (a2 - psi))%Q)
      else None
  | _, _ => None
  end.

(** [min(values)]: the first of the smallest values. *)
Definition Qmin_list (x : Q) (xs : list Q) : Q :=
  fold_left (λ m y, if Qltb y m then y else m) xs x.

Definition find (st : state) (phi : Q) (theta : option Q) (psi : Q)
    (tolerance : Q) : result (option string) :=
  let diff := omap (find_diff phi theta psi tolerance) (getAll st true true) in
  match diff with
  | [] => Ok None
  | d :: ds =>
      let mindiff := Qmin_list d.2 ds.*2 in
      match List.filter (λ kd : string * Q, Qeq_bool kd.2 mindiff) diff with
      | kd :: _ => Ok (Some kd.1)
      | [] => Raise (IndexError "list index out of range")
      end
  end.

(** The default of the [tolerance] argument. *)
Definition default_tolerance : Q := (5 # 10)%Q.

Definition dihedrals (st : state) (name : string) : result angles :=
  match dict_get name (getAll st true true) with
  | Some v => Ok v
  | None => Raise (KeyError name)
  end.

Definition addDefaults (st : state) : state :=
  let dic := getAll st true true in
  pref_set (dict_update dic DEFAULT_HELIXTYPES) st.

(** What a client of the class can do with it. *)
Inductive call : Type :=
| CallNew
| CallGetAll (alpha beta : bool)
| CallAdd (name : string) (phi : Q) (theta : option Q) (psi : Q)
| CallRemove (name : string)
| CallFind (phi : Q) (theta : option Q) (psi : Q) (tolerance : Q)
| CallDihedrals (name : string)
| CallAddDefaults.

Definition step (c : call) (st : state) : state :=
  match c with
  | CallNew => (__new__ st).2
  | CallGetAll _ _ | CallFind _ _ _ _ | CallDihedrals _ => st
  | CallAdd name phi theta psi => add name phi theta psi st
  | CallRemove name => remove name st
  | CallAddDefaults => addDefaults st
  end.

Inductive reachable : state → Prop :=
| reachable_initial : reachable initial
| reachable_step c st : reachable st → reachable (step c st).

(** The words of the specification: an entry matches a query when it is
    of the kind the query asks for and each of its angles is within the
    tolerance of the corresponding angle of the query. *)
Definition within (phi : Q) (theta : option Q) (psi : Q) (tolerance : Q)
    (v : angles) : Prop :=
  let '(a0, a1, a2) := v in
  (Qabs (a0 - phi) < tolerance)%Q ∧ (Qabs (a2 - psi) < tolerance)%Q ∧
  match theta, a1 with
  | None, None => True
  | Some th, Some a1 => (Qabs (a1 - th) < tolerance)%Q
  | _, _ => False
  end.

(** The sum of the deviations of an entry from a query of its kind,
    which [find] minimises. *)
Definition deviation (phi : Q) (theta : option Q) (psi : Q) (v : angles) : Q :=
  let '(a0, a1, a2) := v in
  match theta, a1 with
  | Some th, Some a1 => (Qabs (a0 - phi) + Qabs (a1 - th) + Qabs (a2 - psi))%Q
  | _, _ => (Qabs (a0 - phi) + Qabs (a2 - psi))%Q
  end.

(** ** The commands of the PyMOL prompt *)

(** An angle as a command receives it: a text or a number. *)
Inductive angle_arg : Type :=
| ArgStr (s : string)
| ArgFloat (x : Q).

(** [float(x)] *)
Definition float_arg (a : angle_arg) : result Q :=
  match a with ArgStr s => float s | ArgFloat x => Ok x end.

(** [ssdb_add entryname, phi, theta, psi], and [ssdb_add entryname,
    phi, psi] when [psi] is left out. *)
Definition ssdb_add (entryname : string) (phi theta : angle_arg)
    (psi : option angle_arg) (st : state) : result unit * state :=
  match psi with
  | None =>
      match float_arg phi with
      | Raise e => (Raise e, st)
      | Ok phi =>
          match float_arg theta with
          | Raise e => (Raise e, st)
          | Ok psi => (Ok tt, add entryname phi None psi st)
          end
      end
  | Some psi =>
      match float_arg phi with
      | Raise e => (Raise e, st)
      | Ok phi =>
          match float_arg theta with
          | Raise e => (Raise e, st)
          | Ok theta =>
              match float_arg psi with
              | Raise e => (Raise e, st)
              | Ok psi => (Ok tt, add entryname phi (Some theta) psi st)
              end
          end
      end
  end.

Definition ssdb_del (entryname : string) (st : state) : state :=
  remove entryname st.

Definition ssdb_resetdefaults (st : state) : state := addDefaults st.

End SecondaryStructureDB.

(* ================================================================== *)
(** * The host: PyMOL seen from the plugin                             *)
(* ================================================================== *)

(** The plugin drives PyMOL through [pymol.cmd]. What PyMOL does with
    names, atoms, bonds and selections is modelled here; what it does
    with geometry (fitting, rotating, inverting, twisting), the fragments
    and files it loads, the clock and the random numbers are left to an
    [Oracle]. Commands never fail, except [fragment] on a name the
    library does not have. *)
Module pymol.

Definition Coord : Type := Q * Q * Q.

(** [chempy.Atom] *)
Record Atom : Type := mkAtom {
  name : string;
  symbol : string;
  resi_number : Z;
  resn : string;
  chain : string;
  coord : Coord;
  formal_charge : Z;
  partial_charge : Q
}.

(** [chempy.models.Indexed]: atoms, and bonds between their indices. *)
Record Indexed : Type := mkIndexed {
  atom : list Atom;
  bond : list (nat * nat)
}.

Definition empty_model : Indexed := mkIndexed [] [].

(** The selection algebra, as far as the plugin uses it. *)
Inductive sel : Type :=
| s_model (object : string)        (* model X, and X used as a selection *)
| s_name (names : list string)     (* name A+B+C *)
| s_resi (i : Z)                   (* resi i *)
| s_symbol (element : string)      (* symbol X *)
| s_neighbor (s : sel)             (* neighbor s: bonded to s, not in s *)
| s_and (a b : sel)
| s_or (a b : sel)
| s_not (a : sel).

Definition bonded (m : Indexed) (i j : nat) : bool :=
  existsb (λ b : nat * nat,
             ((b.1 =? i) && (b.2 =? j) || (b.1 =? j) && (b.2 =? i))%nat) (bond m).

Definition atom_test (m : Indexed) (i : nat) (p : Atom → bool) : bool :=
  match atom m !! i with Some a => p a | None => false end.

Section selections.
Variable objs : gmap string Indexed.

(** Whether atom [i] of object [o] is in the selection. *)
Fixpoint selects (s : sel) (o : string) (i : nat) : bool :=
  match s with
  | s_model x => String.eqb x o
  | s_name ns =>
      atom_test (default empty_model (objs !! o)) i (λ a, in_list (name a) ns)
  | s_resi r =>
      atom_test (default empty_model (objs !! o)) i (λ a, (resi_number a =? r)%Z)
  | s_symbol e =>
      atom_test (default empty_model (objs !! o)) i (λ a, String.eqb (symbol a) e)
  | s_neighbor t =>
      let m := default empty_model (objs !! o) in
      negb (selects t o i)
      && existsb (λ j, bonded m i j && selects t o j) (seq 0 (length (atom m)))
  | s_and a b => selects a o i && selects b o i
  | s_or a b => selects a o i || selects b o i
  | s_not a => negb (selects a o i)
  end.

Definition selected_in (s : sel) (o : string) (m : Indexed) : list nat :=
  List.filter (selects s o) (seq 0 (length (atom m))).

(** The place of atom [i] among the selected atoms of its object. *)
Definition reindex (s : sel) (o : string) (i : nat) : nat :=
  length (List.filter (selects s o) (seq 0 i)).

(** The selected part of one object. *)
Definition get_model_in (s : sel) (o : string) (m : Indexed) : Indexed :=
  {| atom := omap (λ i, atom m !! i) (selected_in s o m);
     bond := omap (λ b : nat * nat,
                     if selects s o b.1 && selects s o b.2
                     then Some (reindex s o b.1, reindex s o b.2) else None)
                  (bond m) |}.

(** Two sets of atoms put side by side. *)
Definition merge (a b : Indexed) : Indexed :=
  {| atom := atom a ++ atom b;
     bond := bond a
             ++ ((λ ij : nat * nat, (length (atom a) + ij.1, length (atom a) + ij.2))
                   <$> bond b) |}.

Definition selected (s : sel) : list (string * nat) :=
  flat_map (λ om : string * Indexed, (om.1,.) <$> selected_in s om.1 om.2)
           (map_to_list objs).

Definition count_atoms (s : sel) : nat := length (selected s).

Definition get_model (s : sel) : Indexed :=
  foldr (λ om acc, merge (get_model_in s om.1 om.2) acc) empty_model
        (map_to_list objs).
End selections.

(** The object a selection is confined to, when its shape tells. *)
Fixpoint sel_object (s : sel) : option string :=
  match s with
  | s_model x => Some x
  | s_neighbor t => sel_object t
  | s_and a b =>
      match sel_object a with Some x => Some x | None => sel_object b end
  | _ => None
  end.

Definition map_coord (f : Coord → Coord) (a : Atom) : Atom :=
  mkAtom (name a) (symbol a) (resi_number a) (resn a) (chain a) (f (coord a))
         (formal_charge a) (partial_charge a).

Definition move_model (f : Coord → Coord) (m : Indexed) : Indexed :=
  mkIndexed (map_coord f <$> atom m) (bond m).

(** What [alter] is asked to assign. *)
Inductive assignment : Type :=
| set_resv (i : Z)
| set_chain (c : string)
| set_resn (r : string)
| set_name (n : string)
| set_formal_charge (q : Z)
| set_partial_charge (q : Q).

Definition assign (e : assignment) (a : Atom) : Atom :=
  match e with
  | set_resv i =>
      mkAtom (name a) (symbol a) i (resn a) (chain a) (coord a)
             (formal_charge a) (partial_charge a)
  | set_chain c =>
      mkAtom (name a) (symbol a) (resi_number a) (resn a) c (coord a)
             (formal_charge a) (partial_charge a)
  | set_resn r =>
      mkAtom (name a) (symbol a) (resi_number a) r (chain a) (coord a)
             (formal_charge a) (partial_charge a)
  | set_name n =>
      mkAtom n (symbol a) (resi_number a) (resn a) (chain a) (coord a)
             (formal_charge a) (partial_charge a)
  | set_formal_charge q =>
      mkAtom (name a) (symbol a) (resi_number a) (resn a) (chain a) (coord a)
             q (partial_charge a)
  | set_partial_charge q =>
      mkAtom (name a) (symbol a) (resi_number a) (resn a) (chain a) (coord a)
             (formal_charge a) q
  end.

(** The commands the plugin sends, as a trace records them. *)
Inductive event : Type :=
| e_delete (object : string)
| e_load_model (m : Indexed) (object : string)
| e_get_model (s : sel)
| e_count_atoms (s : sel)
| e_get_object_list
| e_load (file object : string)
| e_fragment (fragment object : string)
| e_pair_fit (pairs : list (sel * sel)) (rms : Q)   (* and what it answered *)
| e_rotate (axis : ascii) (angle : Z) (s : sel)
| e_fuse (s1 s2 : sel) (mode : Z)
| e_bond (s1 s2 : sel)
| e_set_dihedral (s1 s2 s3 s4 : sel) (value : Q)
| e_edit (s1 s2 s3 : sel)
| e_invert
| e_unpick
| e_remove (s : sel)
| e_alter (s : sel) (e : assignment).

(** ['xyz'[i]] for [i] in [0..2]. *)
Inductive axis : Type := axis_x | axis_y | axis_z.
Definition axis_char (a : axis) : ascii :=
  match a with axis_x => "x" | axis_y => "y" | axis_z => "z" end%char.

(** What the model leaves open. *)
Record Oracle : Type := mkOracle {
(* pair_fit: the residual RMS, and the rigid motion of the mobile object *)
fit_rms : gmap string Indexed → list (sel * sel) → Q;
fit_motion : gmap string Indexed → list (sel * sel) → Coord → Coord;
(* rotate: the rotation about an axis by an angle in degrees *)
rotation : ascii → Z → Coord → Coord;
(* invert and set_dihedral: the new coordinates of the objects *)
inversion : gmap string Indexed → option (sel * sel * sel) → gmap string Indexed;
torsion : gmap string Indexed → sel * sel * sel * sel → Q → gmap string Indexed;
(* the fragment library and the files of the resource folder *)
fragment_library : string → option Indexed;
resource : string → Indexed;
(* the successive values of random.randint(0, 2), of
   random.randrange(0, 360) and of str(time.monotonic()) *)
randint_0_2 : nat → axis;
randrange_360 : nat → Z;
monotonic : nat → string;
(* str(x) for a float x *)
str_float : Q → string
}.

(** The session: the objects PyMOL holds, the atoms picked for editing,
    the registry of [tempObjectName], and how many random numbers and
    clock readings were consumed. *)
Record World : Type := mkWorld {
  objects : gmap string Indexed;
  picked : option (sel * sel * sel);
  tempobjnames : list string;
  draws : nat;
  clock : nat
}.

Definition with_objects (w : World) (objs : gmap string Indexed) : World :=
  mkWorld objs (picked w) (tempobjnames w) (draws w) (clock w).
Definition with_picked (w : World) (p : option (sel * sel * sel)) : World :=
  mkWorld (objects w) p (tempobjnames w) (draws w) (clock w).
Definition with_tempobjnames (w : World) (l : list string) : World :=
  mkWorld (objects w) (picked w) l (draws w) (clock w).
Definition with_draws (w : World) (n : nat) : World :=
  mkWorld (objects w) (picked w) (tempobjnames w) n (clock w).
Definition with_clock (w : World) (n : nat) : World :=
  mkWorld (objects w) (picked w) (tempobjnames w) (draws w) n.

End pymol.

(** A computation of the plugin: from a session to a value or an
    exception, the session it leaves, and the commands it sent. *)
Definition M (A : Type) : Type :=
  pymol.World → result A * pymol.World * list pymol.event.

Definition ret {A} (a : A) : M A := λ w, (Ok a, w, []).
Definition raise {A} (e : exn) : M A := λ w, (Raise e, w, []).

Definition bind {A B} (m : M A) (k : A → M B) : M B :=
  λ w,
    match m w with
    | (Ok a, w', t) => let '(r, w'', t') := k a w' in (r, w'', t ++ t')
    | (Raise e, w', t) => (Raise e, w', t)
    end.

Notation "'let*' x ':=' m 'in' k" := (bind m (λ x, k))
  (at level 10, x name, m at level 100, k at level 200, only parsing).
Notation "m >> k" := (bind m (λ _, k))
  (at level 90, right associativity, only parsing).

(** [try: m finally: cleanup] *)
Definition finally {A} (m : M A) (cleanup : M unit) : M A :=
  λ w,
    let '(r, w', t) := m w in
    match cleanup w' with
    | (Ok _, w'', t') => (r, w'', t ++ t')
    | (Raise e, w'', t') => (Raise e, w'', t ++ t')
    end.

(** [except pymol.CmdException: handler] *)
Definition except_CmdException {A} (m : M A) (handler : M A) : M A :=
  λ w,
    match m w with
    | (Raise (CmdException _), w', t) =>
        let '(r, w'', t') := handler w' in (r, w'', t ++ t')
    | other => other
    end.

Definition lift {A} (r : result A) : M A := λ w, (r, w, []).

Definition get_world : M pymol.World := λ w, (Ok w, w, []).

Definition emit (e : pymol.event) : M unit := λ w, (Ok tt, w, [e]).

Definition modify (f : pymol.World → pymol.World) : M unit :=
  λ w, (Ok tt, f w, []).

(** [for x in l: body x] *)
Fixpoint for_each {A} (l : list A) (body : A → M unit) : M unit :=
  match l with
  | [] => ret tt
  | x :: l' => body x >> for_each l' body
  end.

(** The commands of [pymol.cmd]. *)
Module cmd.
Import pymol.

Section commands.
Variable orc : Oracle.

Definition update_objects (f : gmap string Indexed → gmap string Indexed) : M unit :=
  modify (λ w, with_objects w (f (objects w))).

Definition delete (object : string) : M unit :=
  emit (e_delete object) >> update_objects (base.delete object).

Definition load_model (m : Indexed) (object : string) : M unit :=
  emit (e_load_model m object) >> update_objects (<[object := m]>).

Definition get_model (s : sel) : M Indexed :=
  emit (e_get_model s) >>
  let* w := get_world in ret (pymol.get_model (objects w) s).

Definition count_atoms (s : sel) : M nat :=
  emit (e_count_atoms s) >>
  let* w := get_world in ret (pymol.count_atoms (objects w) s).

Definition get_object_list : M (list string) :=
  emit e_get_object_list >>
  let* w := get_world in ret (map_to_list (objects w)).*1.

Definition load (file object : string) : M unit :=
  emit (e_load file object) >> update_objects (<[object := resource orc file]>).

Definition fragment (frag object : string) : M unit :=
  emit (e_fragment frag object) >>
  match fragment_library orc frag with
  | Some m => update_objects (<[object := m]>)
  | None => raise (CmdException ("unknown fragment: " +:+ frag))
  end.

(** The objects that hold the first selection of a pair move as a
    whole. *)
Definition pair_fit (pairs : list (sel * sel)) : M Q :=
  let* w := get_world in
  let objs := objects w in
  emit (e_pair_fit pairs (fit_rms orc objs pairs)) >>
  let mobile := flat_map (λ p : sel * sel, (selected objs p.1).*1) pairs in
  update_objects
    (map_imap (λ o m, Some (if in_list o mobile
                            then move_model (fit_motion orc objs pairs) m else m))) >>
  ret (fit_rms orc objs pairs).

Definition rotate (axis : ascii) (angle : Z) (s : sel) : M unit :=
  emit (e_rotate axis angle s) >>
  update_objects (λ objs,
    map_imap (λ o m, Some (mkIndexed
      (imap (λ i a, if selects objs s o i
                    then map_coord (rotation orc axis angle) a else a) (atom m))
      (bond m))) objs).

(** [fuse s1, s2, mode=3]: the object of [s1] is added to the object
    of [s2], without moving and without bonding. *)
Definition fuse (s1 s2 : sel) (mode : Z) : M unit :=
  emit (e_fuse s1 s2 mode) >>
  update_objects (λ objs,
    match selected objs s1, selected objs s2 with
    | [(o1, _)], [(o2, _)] =>
        match objs !! o1, objs !! o2 with
        | Some m1, Some m2 =>
            if String.eqb o1 o2 then objs else <[o2 := merge m2 m1]> objs
        | _, _ => objs
        end
    | _, _ => objs
    end).

(** [bond s1, s2]: a bond from each atom of [s1] to each atom of [s2]
    of the same object. *)
Definition bond (s1 s2 : sel) : M unit :=
  emit (e_bond s1 s2) >>
  update_objects (λ objs,
    map_imap (λ o m, Some (mkIndexed (atom m)
      (pymol.bond m
       ++ flat_map (λ i, (i,.) <$> selected_in objs s2 o m)
                   (selected_in objs s1 o m)))) objs).

Definition set_dihedral (s1 s2 s3 s4 : sel) (value : Q) : M unit :=
  emit (e_set_dihedral s1 s2 s3 s4 value) >>
  update_objects (λ objs, torsion orc objs (s1, s2, s3, s4) value).

Definition edit (s1 s2 s3 : sel) : M unit :=
  emit (e_edit s1 s2 s3) >> modify (λ w, with_picked w (Some (s1, s2, s3))).

Definition invert : M unit :=
  emit e_invert >>
  modify (λ w, with_objects w (inversion orc (objects w) (picked w))).

Definition unpick : M unit :=
  emit e_unpick >> modify (λ w, with_picked w None).

Definition remove (s : sel) : M unit :=
  emit (e_remove s) >>
  update_objects (λ objs,
    map_imap (λ o m, Some (get_model_in objs (s_not s) o m)) objs).

Definition alter (s : sel) (e : assignment) : M unit :=
  emit (e_alter s e) >>
  update_objects (λ objs,
    map_imap (λ o m, Some (mkIndexed
      (imap (λ i a, if selects objs s o i then assign e a else a) (atom m))
      (pymol.bond m))) objs).
End commands.
End cmd.

(* ================================================================== *)
(** * utils.py                                                         *)
(* ================================================================== *)

Module utils.
Import pymol.

Section utils.
Variable orc : Oracle.

(** The loop of [tempObjectName.__enter__], cut after [fuel] rounds
    ([NonTermination] is not an exception of Python: it stands for
    the loop going on). *)
Fixpoint free_name (fuel : nat) (prefix : string) (i : nat) : M string :=
  match fuel with
  | 0%nat => raise NonTermination
  | S fuel' =>
      let* w := get_world in
      let objname := prefix +:+ str_N (N.of_nat i) +:+ monotonic orc (clock w) in
      modify (λ w, with_clock w (S (clock w))) >>
      let* objects := cmd.get_object_list in
      let* w := get_world in
      if negb (in_list objname objects) && negb (in_list objname (tempobjnames w))
      then ret objname
      else free_name fuel' prefix (S i)
  end.

(** [__enter__], for [nocreate=True]. *)
Definition tempObjectName_enter (fuel : nat) (prefix : string) : M string :=
  let* objname := free_name fuel prefix 0 in
  modify (λ w, with_tempobjnames w (tempobjnames w ++ [objname])) >>
  ret objname.

(** [l.remove(x)], the [ValueError] being swallowed. *)
Fixpoint list_remove (x : string) (l : list string) : list string :=
  match l with
  | [] => []
  | y :: l' => if String.eqb y x then l' else y :: list_remove x l'
  end.

Definition tempObjectName_exit (objname : string) : M unit :=
  cmd.delete objname >>
  modify (λ w, with_tempobjnames w (list_remove objname (tempobjnames w))).

(** [with tempObjectName() as name: body] *)
Definition tempObjectName {A} (fuel : nat) (body : string → M A) : M A :=
  let* objname := tempObjectName_enter fuel "_temporary" in
  finally (body objname) (tempObjectName_exit objname).

(** [with fetchModel(modelname) as model: body]. The body works on
    the fetched model in place; what it leaves of it is loaded back,
    also when it raises. *)
Definition fetchModel {A} (modelname : string)
    (body : Indexed → result A * Indexed) : M A :=
  let* model := cmd.get_model (s_model modelname) in
  let '(r, model') := body model in
  cmd.delete modelname >>
  cmd.load_model model' modelname >>
  cmd.get_model (s_model modelname) >>
  lift r.

(** ['({}) and name {} and resi {}'.format(modelname, name, resi)] *)
Definition atom_selection (modelname : string) (nr : list string * Z) : sel :=
  s_and (s_and (s_model modelname) (s_name nr.1)) (s_resi nr.2).

(** [[f(x) for x in l]] *)
Fixpoint map_M {A B} (f : A → M B) (l : list A) : M (list B) :=
  match l with
  | [] => ret []
  | x :: l' => let* y := f x in let* ys := map_M f l' in ret (y :: ys)
  end.

Definition set_dihedral (modelname : string)
    (nameandresi1 nameandresi2 nameandresi3 nameandresi4 : list string * Z)
    (value : Q) : M bool :=
  let s1 := atom_selection modelname nameandresi1 in
  let s2 := atom_selection modelname nameandresi2 in
  let s3 := atom_selection modelname nameandresi3 in
  let s4 := atom_selection modelname nameandresi4 in
  let* counts := map_M cmd.count_atoms [s1; s2; s3; s4] in
  if negb (forallb (λ c, c =? 1)%nat counts) then ret false
  else
    cmd.set_dihedral orc s1 s2 s3 s4 value >>
    cmd.unpick >>
    ret true.
End utils.
End utils.

(* ================================================================== *)
(** * betafab2.py                                                      *)
(* ================================================================== *)

Module BetaPeptide.
Import re.

Definition SIDECHAINS : list (string * string) :=
  [ ("A", "ala"); ("C", "cys"); ("CM", "cys"); ("D", "asp"); ("DH", "asph");
    ("E", "glu"); ("EH", "gluh"); ("F", "phe"); ("G", "gly"); ("HD", "hid");
    ("HE", "hie"); ("HH", "hip"); ("H", "his"); ("I", "ile"); ("K", "lys");
    ("O", "orp"); ("KN", "lysn"); ("ON", "orn"); ("L", "leu"); ("M", "met");
    ("N", "asn"); ("P", "pro"); ("Q", "gln"); ("R", "arg"); ("S", "ser");
    ("T", "thr"); ("V", "val"); ("W", "trp"); ("Y", "tyr") ].

(** ** The sequence grammar *)

(** One entry of the list [parseBetaPeptideSequence] returns. The
    dihedrals are absent, or a sequence of numbers in which the tuples
    of the secondary-structure database may hold a [None]. *)
Record residue : Type := Residue {
  kind : string;
  sidechain2 : string;
  stereo2 : string;
  sidechain3 : string;
  stereo3 : string;
  dihedrals : option (list (option Q))
}.

(** [float_regex]. In the verbose pattern the line [| or] carries no
    [#], so that its two letters belong to the second alternative. *)
Definition float_regex : regex :=
  seq_of
    [ Opt (Seq (Chr (one_of "+-")) (star is_space));
      Alt (Seq (plus is_digit) (Opt (Seq (Lit ".") (star is_digit))))
          (seq_of [Lit "or"; Lit "."; plus is_digit]);
      Opt (seq_of [Chr (one_of "eE"); Opt (Chr (one_of "+-")); plus is_digit]) ].

Definition stereo_RS : regex := Chr (one_of "RS").
Definition sidechain_code : regex := Rep is_upper 1 (Some 2).

(** [[-a-zA-Z0-9_+ ]] *)
Definition ssname_char (c : ascii) : bool :=
  one_of "-_+ " c || is_lower c || is_upper c || is_digit c.

(** The residue designations, in the order of the pattern. *)
Definition residue_regex : regex :=
  alt_of
    [ Group "ace" (Lit "ACE");
      Group "but" (Lit "BUT");
      Group "nme" (Lit "NME");
      seq_of [Lit "(2"; Group "achcstereo2" stereo_RS; Lit "3";
              Group "achcstereo3" stereo_RS; Lit ")ACHC"];
      seq_of [Lit "(2"; Group "acpcstereo2" stereo_RS; Lit "3";
              Group "acpcstereo3" stereo_RS; Lit ")ACPC"];
      seq_of [Lit "(2"; Group "stereo2" stereo_RS; Lit "3";
              Group "stereo3" stereo_RS; Lit ")"; Lit "B23h"; Lit "(2";
              Group "sc2" sidechain_code; Lit "3";
              Group "sc3" sidechain_code; Lit ")"];
      seq_of [Lit "("; Group "monostereo" stereo_RS; Lit ")"; Lit "B";
              Group "monokind" (Chr (one_of "23")); Lit "h";
              Group "monosc" sidechain_code];
      Group "bare" (Lit "BA");
      seq_of [Lit "("; Group "alphastereo" (Chr (one_of "RSLD")); Lit ")";
              Lit "A"; Group "alphasc" sidechain_code] ].

(** The optional torsion angle declaration. *)
Definition torsion_regex : regex :=
  Alt (seq_of [Lit "["; star is_space; Group "phi" float_regex;
               plus is_space; Group "theta" float_regex;
               Opt (Seq (plus is_space) (Group "psi" float_regex));
               star is_space; Lit "]"])
      (seq_of [Lit "{"; star is_space; Group "ssname" (plus ssname_char);
               star is_space; Lit "}"]).

(** The compiled pattern; its leading [^] is what [match] does anyway. *)
Definition regex : regex :=
  seq_of [residue_regex; star is_space; Opt torsion_regex; Eol].

Definition tuple_to_list (v : SecondaryStructureDB.angles) : list (option Q) :=
  [Some v.1.1; v.1.2; Some v.2].

Definition parse_dihedrals (db : SecondaryStructureDB.state) (m : groups)
    : result (option (list (option Q))) :=
  match dict_get "phi" m, dict_get "theta" m, dict_get "psi" m with
  | Some phi, Some theta, Some psi =>
      rbind (float phi) (λ a, rbind (float theta) (λ b, rbind (float psi) (λ c,
        Ok (Some [Some a; Some b; Some c]))))
  | Some phi, Some theta, None =>
      rbind (float phi) (λ a, rbind (float theta) (λ b,
        Ok (Some [Some a; Some b])))
  | _, _, _ =>
      match dict_get "ssname" m with
      | Some name =>
          rbind (SecondaryStructureDB.dihedrals db name) (λ v,
            Ok (Some (tuple_to_list v)))
      | None => Ok None
      end
  end.

(** [dihedrals is not None and len(dihedrals) != n] *)
Definition wrong_count (dihedrals : option (list (option Q))) (n : nat) : bool :=
  match dihedrals with
  | Some l => negb (length l =? n)%nat
  | None => false
  end.

Definition is_Some_b {A} (o : option A) : bool :=
  match o with Some _ => true | None => false end.

Definition capping (name : string) (dihedrals : option (list (option Q)))
    : result residue :=
  if is_Some_b dihedrals
  then Raise (ValueError ("Residue " +:+ name +:+ " does not supports custom dihedrals."))
  else Ok (Residue name "" "" "" "" dihedrals).

(** The [if]/[elif] chain of the loop of [parseBetaPeptideSequence]:
    the entry appended for the match [m] and its dihedrals. *)
Definition residue_of (aminoacid : string) (m : groups)
    (dihedrals : option (list (option Q))) : result residue :=
      let get name := default "" (dict_get name m) in
  let has name := is_Some_b (dict_get name m) in
  if has "bare" then
    if wrong_count dihedrals 3
    then Raise (ValueError ("Not enough dihedral angles specified in residue " +:+ aminoacid))
    else Ok (Residue "BA" "G" "" "G" "" dihedrals)
  else if has "alphastereo" then
    if wrong_count dihedrals 2
    then Raise (ValueError ("Too many dihedral angles specified in residue " +:+ aminoacid))
    else Ok (Residue "A" (get "alphasc") (get "alphastereo") "" "" dihedrals)
  else if has "monostereo" then
    if wrong_count dihedrals 3
    then Raise (ValueError ("Not enough dihedral angles specified in residue " +:+ aminoacid))
    else if String.eqb (get "monokind") "2"
    then Ok (Residue "B2" (get "monosc") (get "monostereo") "G" "" dihedrals)
    else if String.eqb (get "monokind") "3"
    then Ok (Residue "B3" "G" "" (get "monosc") (get "monostereo") dihedrals)
    else Raise AssertionError
  else if has "ace" then capping "ACE" dihedrals
  else if has "but" then capping "BUT" dihedrals
  else if has "nme" then capping "NME" dihedrals
  else if has "acpcstereo2" && has "acpcstereo3" then
    Ok (Residue "ACPC" "" (get "acpcstereo2") "" (get "acpcstereo3") dihedrals)
  else if has "achcstereo2" && has "achcstereo3" then
    Ok (Residue "ACHC" "" (get "achcstereo2") "" (get "achcstereo3") dihedrals)
  else
    if wrong_count dihedrals 3
    then Raise (ValueError ("Not enough dihedral angles specified in residue " +:+ aminoacid))
    else if has "stereo2"
    then Ok (Residue "B23" (get "sc2") (get "stereo2") (get "sc3") (get "stereo3") dihedrals)
    else Raise AssertionError.

(** The body of the loop of [parseBetaPeptideSequence], for one element
    of the sequence. *)
Definition parse_aminoacid (db : SecondaryStructureDB.state) (aminoacid : string)
    : result residue :=
  match match_ regex aminoacid with
  | None => Raise (ValueError ("Invalid amino-acid designation: " +:+ aminoacid))
  | Some m => rbind (parse_dihedrals db m) (residue_of aminoacid m)
  end.

(** [for ... : sequence.append(...)], stopping at the first exception. *)
Fixpoint parse_all (db : SecondaryStructureDB.state) (l : list string)
    : result (list residue) :=
  match l with
  | [] => Ok []
  | a :: l' =>
      rbind (parse_aminoacid db a) (λ r,
      rbind (parse_all db l') (λ rs, Ok (r :: rs)))
  end.

Definition parseBetaPeptideSequence (db : SecondaryStructureDB.state)
    (sequencestr : string) : result (list residue) :=
  parse_all db (strip <$> split_comma sequencestr).

(** ** Building and checking peptides *)

Import pymol.

(** [max([a.resi_number for a in model.atom])] and [min] of the same. *)
Definition max_resi (model : Indexed) : result Z :=
  match atom model with
  | [] => Raise (ValueError "max() arg is an empty sequence")
  | a :: l => Ok (foldl (λ m b, Z.max m (resi_number b)) (resi_number a) l)
  end.

Definition min_resi (model : Indexed) : result Z :=
  match atom model with
  | [] => Raise (ValueError "min() arg is an empty sequence")
  | a :: l => Ok (foldl (λ m b, Z.min m (resi_number b)) (resi_number a) l)
  end.

Definition consistency_error {A} (parts : list string) : M A :=
  raise (BetaPeptideConsistencyError (String.concat "" parts)).

(** The selections of [checkPeptide], for residue [i] of [self]. *)
Definition sel_residue (self : string) (i : Z) : sel :=
  s_and (s_model self) (s_resi i).
Definition sel_hcount (self : string) (i : Z) : sel :=
  s_and (s_and (sel_residue self i) (s_neighbor (s_name ["N"]))) (s_name ["H"; "HN"]).
Definition sel_ccount (self : string) (i : Z) : sel :=
  s_and (s_neighbor (s_and (sel_residue self i) (s_name ["N"])))
        (s_and (s_resi (i - 1)) (s_name ["C"])).
Definition sel_ocount (self : string) (i : Z) : sel :=
  s_and (s_and (sel_residue self i) (s_neighbor (s_name ["C"]))) (s_name ["O"]).
Definition sel_ncount (self : string) (i : Z) : sel :=
  s_and (s_neighbor (s_and (sel_residue self i) (s_name ["C"])))
        (s_and (s_resi (i + 1)) (s_name ["N"])).
Definition sel_cbcount (self : string) (i : Z) : sel :=
  s_and (s_and (sel_residue self i) (s_neighbor (s_name ["N"])))
        (s_name ["CB"; "CB1"; "CA"]).
Definition sel_cacount (self : string) (i : Z) : sel :=
  s_and (s_and (sel_residue self i) (s_neighbor (s_name ["C"]))) (s_name ["CA"]).

(** [cmd.get_model(selection).atom[0]] *)
Definition first_atom (s : sel) : M Atom :=
  let* model := cmd.get_model s in
  match atom model with
  | a :: _ => ret a
  | [] => raise (IndexError "list index out of range")
  end.

Definition when (b : bool) (m : M unit) : M unit := if b then m else ret tt.

(** The body of the loop of [checkPeptide]. *)
Definition check_residue (self : string) (maxresidue i : Z) : M unit :=
  let* a := first_atom (sel_residue self i) in
  let resname := resn a in
  when ((1 <? i)%Z && negb (in_list resname ["PRO"; "DPRO"]))
    (let* hcount := cmd.count_atoms (sel_hcount self i) in
     when (negb (hcount =? 1)%nat)
       (consistency_error ["Amide N in residue "; str_Z i; " has ";
                           str_N (N.of_nat hcount); " hydrogens."]) >>
     let* ccount := cmd.count_atoms (sel_ccount self i) in
     when (negb (ccount =? 1)%nat)
       (consistency_error ["Amide N in residue "; str_Z i; " has ";
                           str_N (N.of_nat ccount);
                           " amide carbons from the previous residue."])) >>
  when (i <? maxresidue)%Z
    (let* ocount := cmd.count_atoms (sel_ocount self i) in
     when (negb (ocount =? 1)%nat)
       (consistency_error ["Amide C in residue "; str_Z i; " has ";
                           str_N (N.of_nat ocount); " oxygens."]) >>
     let* ncount := cmd.count_atoms (sel_ncount self i) in
     when (negb (ncount =? 1)%nat)
       (consistency_error ["Amide C in residue "; str_Z i; " has ";
                           str_N (N.of_nat ncount);
                           " amide nitrogens from the next residue"])) >>
  let* cbcount := cmd.count_atoms (sel_cbcount self i) in
  when (negb (cbcount =? 1)%nat && negb (String.eqb resname "NME")
        && negb (String.eqb resname "ACE") && negb (String.eqb resname "BUT"))
    (consistency_error ["Amide N in residue "; str_Z i; " has ";
                        str_N (N.of_nat cbcount); " CA or CB neighbours."]) >>
  let* cacount := cmd.count_atoms (sel_cacount self i) in
  when (negb (cacount =? 1)%nat && negb (String.eqb resname "ACE")
        && negb (String.eqb resname "NME"))
    (consistency_error ["Amide C in residue "; str_Z i; " has ";
                        str_N (N.of_nat cacount); " CA neighbours."]).

Definition checkPeptide (self : string) : M unit :=
  let* minmax := utils.fetchModel self (λ model,
    (rbind (min_resi model) (λ mn, rbind (max_resi model) (λ mx, Ok (mn, mx))),
     model)) in
  let minresidue := minmax.1 in
  let maxresidue := minmax.2 in
  when (negb (minresidue =? 1)%Z)
    (consistency_error ["Lowest residue number is "; str_Z minresidue;
                        " instead of the expected 1."]) >>
  for_each (seqZ 1 maxresidue) (check_residue self maxresidue).

Definition maxResidue (self : string) : M Z :=
  utils.fetchModel self (λ model, (max_resi model, model)).

Definition sel_isNProtected (self : string) : sel :=
  s_and (s_neighbor (s_and (s_and (s_model self) (s_name ["N"])) (s_resi 1)))
        (s_not (s_name ["CB"; "CB1"; "CA"; "H"; "HN"; "CH3"])).

Definition isNProtected (self : string) : M bool :=
  let* n := cmd.count_atoms (sel_isNProtected self) in
  ret (0 <? n)%nat.

Definition sel_isCProtected (self : string) (maxresidue : Z) : sel :=
  s_and (s_neighbor (s_and (s_and (s_model self) (s_name ["C"])) (s_resi maxresidue)))
        (s_not (s_name ["O"; "CA"; "CH3"])).

Definition isCProtected (self : string) : M bool :=
  let* maxresidue := maxResidue self in
  let* n := cmd.count_atoms (sel_isCProtected self maxresidue) in
  ret (0 <? n)%nat.

(** [{a.resn for a in m.atom if a.resi_number == minresi}] *)
Definition resn_set (m : Indexed) (minresi : Z) : list string :=
  remove_dups (resn <$> List.filter (λ a, (resi_number a =? minresi)%Z) (atom m)).

Definition startsWithProline (self : string) : M bool :=
  utils.fetchModel self (λ m,
    (rbind (min_resi m) (λ minresi,
       match resn_set m minresi with
       | [r] => Ok (in_list r ["PRO"; "DPRO"])
       | [] => Raise AssertionError
       | _ => Raise (BetaPeptideConsistencyError
                       "Atoms in the same residue must have the same residue names.")
       end), m)).

Definition copy (self newname : string) : M string :=
  let* model := cmd.get_model (s_model self) in
  cmd.delete newname >>
  cmd.load_model model newname >>
  ret newname.

(** [betaResidueName(sidechain2, sidechain3)] *)
Definition betaResidueName (sidechain2 sidechain3 : option string) : string :=
  let plain (sc : option string) : bool :=
    match sc with None => true | Some x => String.eqb x "G" end in
  if plain sidechain2 && plain sidechain3 then "BALA"
  else if plain sidechain2 then "B3" +:+ default "" sidechain3
  else if plain sidechain3 then "B2" +:+ default "" sidechain2
  else "B0" +:+ default "" sidechain2 +:+ default "" sidechain3.

(** The selections of [isBetaResidue] and [isAlphaResidue]. *)
Definition sel_atoms (self : string) (residue : Z) (names : list string) : sel :=
  s_and (s_and (s_model self) (s_resi residue)) (s_name names).
Definition sel_bonded (self : string) (residue : Z) (centre name : string) : sel :=
  s_and (s_and (s_neighbor (sel_atoms self residue [centre])) (s_resi residue))
        (s_name [name]).
Definition sel_between (self : string) (residue : Z) (a b : string)
    (names : list string) : sel :=
  s_and (s_and (s_neighbor (sel_atoms self residue [a]))
               (s_neighbor (sel_atoms self residue [b])))
        (s_and (s_resi residue) (s_name names)).

Definition isBetaResidue (self : string) (residue : Z) : M bool :=
  let* n := cmd.count_atoms (sel_atoms self residue ["N"; "C"; "H"; "CA"; "O"]) in
  if negb (n =? 5)%nat then ret false else
  let* n := cmd.count_atoms (sel_bonded self residue "N" "H") in
  if negb (n =? 1)%nat then ret false else
  let* n := cmd.count_atoms (sel_bonded self residue "C" "CA") in
  if negb (n =? 1)%nat then ret false else
  let* n := cmd.count_atoms (sel_between self residue "C" "N" ["CA"]) in
  if (n =? 1)%nat then ret false else
  let* n := cmd.count_atoms (sel_between self residue "CA" "N" ["CB"; "CB1"]) in
  if (n =? 1)%nat then ret true else
  ret false.

Definition isAlphaResidue (self : string) (residue : Z) : M bool :=
  let* n := cmd.count_atoms (sel_atoms self residue ["N"; "C"; "H"; "CA"; "O"]) in
  if negb (n =? 5)%nat then ret false else
  let* n := cmd.count_atoms (sel_bonded self residue "N" "H") in
  if negb (n =? 1)%nat then ret false else
  let* n := cmd.count_atoms (sel_bonded self residue "C" "CA") in
  if negb (n =? 1)%nat then ret false else
  let* n := cmd.count_atoms (sel_between self residue "C" "N" ["CA"]) in
  if (n =? 1)%nat then ret true else
  let* n := cmd.count_atoms (sel_between self residue "CA" "N" ["CB"; "CB1"]) in
  if (n =? 1)%nat then ret false else
  ret false.

Section geometry.
Variable orc : Oracle.

Definition loadPeptideBond (objectname : string) : M string :=
  cmd.load orc "peptidebond.pkl" objectname >> ret objectname.

(** The loop of [safe_pairfit]; [rms] is the value of the variable of
    that name, unbound before the first fit. *)
Fixpoint safe_pairfit_loop (n : nat) (selections : list (sel * sel))
    (model1 : sel) (rmstolerance : Q) (rms : option Q) : M Q :=
  match n with
  | 0%nat =>
      match rms with
      | Some rms =>
          raise (RuntimeError
                   ("Could not fit with RMS less than " +:+ str_float orc rmstolerance
                    +:+ ". RMS is: " +:+ str_float orc rms))
      | None =>
          raise (UnboundLocalError "local variable 'rms' referenced before assignment")
      end
  | S n' =>
      let* rms := cmd.pair_fit orc selections in
      if Qltb rms rmstolerance then ret rms
      else
        let* w := get_world in
        modify (λ w, with_draws w (S (draws w))) >>
        cmd.rotate orc (axis_char (randint_0_2 orc (draws w)))
                   (randrange_360 orc (draws w)) model1 >>
        safe_pairfit_loop n' selections model1 rmstolerance (Some rms)
  end.

Definition fit_selection (model : sel) (resi : Z) (names : list string) : sel :=
  s_and (s_and model (s_resi resi)) (s_name names).

Definition safe_pairfit (model1 model2 : sel) (resi1 resi2 : Z)
    (atoms1 atoms2 : list (list string)) (rmstolerance : Q) (ntries : nat) : M Q :=
  let selections1 := fit_selection model1 resi1 <$> atoms1 in
  let selections2 := fit_selection model2 resi2 <$> atoms2 in
  let selections := zip selections1 selections2 in
  safe_pairfit_loop ntries selections model1 rmstolerance None.

(** The default of [ntries], and the two tolerances of [__iadd__]. *)
Definition default_ntries : nat := 10.
Definition tolerance_normal : Q := lit "0.1".
Definition tolerance_proline : Q := lit "0.3".

(** The two superpositions of [__iadd__]: the end of [left] onto
    the carbonyl side of the mould, and the start of [right] onto its
    amine side. [pro1] and [pro2] are the two answers of
    [right.startsWithProline()]. *)
Definition fit_left (lefttemp mouldname : string) (maxleft : Z) : M Q :=
  safe_pairfit (s_model lefttemp) (s_model mouldname) maxleft 1
    [["CA"; "CH3"]; ["C"]; ["O"]] [["Cprev"]; ["C"]; ["O"]]
    tolerance_normal default_ntries.

Definition fit_right (righttemp mouldname : string) (maxleft : Z)
    (pro1 : bool) (cbname : string) (pro2 : bool) : M Q :=
  safe_pairfit (s_model righttemp) (s_model mouldname) (1 + maxleft) 1
    [["N"]; [if pro1 then "CD" else "H"]; [cbname]]
    [["N"]; ["H"]; ["Cnext"]]
    (if pro2 then tolerance_proline else tolerance_normal)
    default_ntries.

Definition sel_cbname (righttemp : string) (maxleft : Z) : sel :=
  s_and (s_and (s_neighbor (s_and (s_and (s_model righttemp) (s_resi (1 + maxleft)))
                                  (s_name ["N"])))
               (s_symbol "C"))
        (s_not (s_name ["C"])).

Definition renumber (maxleft : Z) (model : Indexed) : Indexed :=
  mkIndexed ((λ a, assign (set_resv (resi_number a + maxleft)) a) <$> atom model)
            (bond model).

(** The body of the [with] statement of [__iadd__]: the work on the
    three scratch objects. *)
Definition fuse_in_scratch (self right mouldname lefttemp righttemp : string)
    : M string :=
  let left := self in
  loadPeptideBond mouldname >>
  let* left := copy left lefttemp in
  let* right := copy right righttemp in
  let* maxleft := maxResidue left in
  utils.fetchModel righttemp (λ model, (Ok tt, renumber maxleft model)) >>
  cmd.get_object_list >>
  fit_left lefttemp mouldname maxleft >>
  let* cb := first_atom (sel_cbname righttemp maxleft) in
  let cbname := name cb in
  let* pro1 := startsWithProline right in
  let* pro2 := startsWithProline right in
  fit_right righttemp mouldname maxleft pro1 cbname pro2 >>
  cmd.fuse (s_and (s_and (s_model lefttemp) (s_resi maxleft)) (s_name ["C"]))
           (s_and (s_and (s_model righttemp) (s_resi (1 + maxleft))) (s_name ["N"]))
           3 >>
  cmd.bond (s_and (s_and (s_model righttemp) (s_resi maxleft)) (s_name ["C"]))
           (s_and (s_and (s_model righttemp) (s_resi (1 + maxleft))) (s_name ["N"])) >>
  copy right self.

(** [left += right], for [left] and [right] known to PyMOL under
    these names; [fuel] bounds the search for each temporary name. *)
Definition __iadd__ (fuel : nat) (self right : string) : M string :=
  let left := self in
  let* cprot := isCProtected left in
  if cprot : bool then raise (ValueError "The N-terminal part is C-protected!") else
  let* nprot := isNProtected right in
  let* refuse :=
    (if nprot : bool
     then let* pro := startsWithProline right in ret (negb pro)
     else ret false) in
  if refuse : bool then raise (ValueError "The C-terminal part is N-protected!") else
  checkPeptide left >>
  checkPeptide right >>
  utils.tempObjectName orc fuel (λ mouldname,
  utils.tempObjectName orc fuel (λ lefttemp,
  utils.tempObjectName orc fuel (λ righttemp,
    fuse_in_scratch self right mouldname lefttemp righttemp))).

(** The three passes of [renameAtomsInResidue] over the fetched model
    are not part of this development. *)
Variable rename_heavy_atoms rename_hydrogens strip_tags :
  Z → Indexed → result unit * Indexed.

Definition renameAtomsInResidue (self : string) (residue : Z) : M unit :=
  utils.fetchModel self (rename_heavy_atoms residue) >>
  utils.fetchModel self (rename_hydrogens residue) >>
  utils.fetchModel self (strip_tags residue).

(** The test of [initializeAlphaResidue] that decides on the
    inversion. *)
Definition flips_chirality (sidechain stereo : string) : bool :=
  negb (String.eqb sidechain "G")
  && (String.eqb stereo "D"
      || String.eqb stereo "R" && negb (in_list sidechain ["C"; "CM"])
      || String.eqb stereo "S" && in_list sidechain ["C"; "CM"]).

Definition tag_atoms (model : Indexed) : Indexed :=
  mkIndexed
    ((λ a, if in_list (name a) ["N"; "H"; "C"; "O"]
           then assign (set_name (name a +:+ "_sc0")) a
           else assign (set_name (name a +:+ "_sc2")) a) <$> atom model)
    (bond model).

Definition initializeAlphaResidue (self sidechain stereo : string) : M unit :=
  cmd.delete self >>
  except_CmdException
    (match dict_get sidechain SIDECHAINS with
     | Some frag => cmd.fragment orc frag self
     | None => raise (KeyError sidechain)
     end)
    (match dict_get sidechain SIDECHAINS with
     | Some frag => cmd.load orc (frag +:+ ".pkl") self
     | None => raise (KeyError sidechain)
     end) >>
  when (String.eqb sidechain "CM")
    (cmd.remove (s_and (s_model self) (s_name ["HG"])) >>
     cmd.alter (s_and (s_model self) (s_name ["SG"])) (set_formal_charge (-1)) >>
     cmd.alter (s_and (s_model self) (s_name ["SG"])) (set_partial_charge (-1)) >>
     cmd.alter (s_model self) (set_resn "CYM")) >>
  cmd.alter (s_model self) (set_resv 1) >>
  cmd.alter (s_model self) (set_chain "A") >>
  when (flips_chirality sidechain stereo)
    (cmd.edit (s_and (s_and (s_model self) (s_resi 1)) (s_name ["CA"]))
              (s_and (s_and (s_model self) (s_resi 1)) (s_name ["HA"]))
              (s_and (s_and (s_model self) (s_resi 1)) (s_name ["C"])) >>
     cmd.invert orc >>
     cmd.unpick) >>
  utils.fetchModel self (λ model, (Ok tt, tag_atoms model)) >>
  renameAtomsInResidue self 1.

(** [fold(residue, dihedrals)], for [dihedrals] given as a list of
    numbers (a name of the secondary-structure database is looked up
    by the caller). *)
Definition fold (self : string) (residue : Z) (dihedrals : list Q) : M unit :=
  let* alpha := isAlphaResidue self residue in
  if alpha : bool then
    let* phi := lift (py_getitem dihedrals 0) in
    utils.set_dihedral orc self (["C"], (residue - 1)%Z) (["N"], residue)
      (["CA"], residue) (["C"], residue) phi >>
    let* psi := lift (py_getitem dihedrals 1) in
    utils.set_dihedral orc self (["N"], residue) (["CA"], residue)
      (["C"], residue) (["N"], (residue + 1)%Z) psi >>
    ret tt
  else
    let* beta := isBetaResidue self residue in
    if beta : bool then
      let* phi := lift (py_getitem dihedrals 0) in
      utils.set_dihedral orc self (["C"], (residue - 1)%Z) (["N"], residue)
        (["CB"; "CB1"], residue) (["CA"], residue) phi >>
      let* theta := lift (py_getitem dihedrals 1) in
      utils.set_dihedral orc self (["N"], residue) (["CB"; "CB1"], residue)
        (["CA"], residue) (["C"], residue) theta >>
      let* psi := lift (py_getitem dihedrals 2) in
      utils.set_dihedral orc self (["CB"; "CB1"], residue) (["CA"], residue)
        (["C"], residue) (["N"], (residue + 1)%Z) psi >>
      ret tt
    else
      raise (ValueError ("Residue " +:+ str_Z residue
                         +:+ " is neither an alpha-, nor a beta-amino acid")).

(** The capping groups. Each returns the name of its object. *)
Definition rename_methyl_hydrogens (modelname : string) : M unit :=
  for_each [1; 2; 3]%N (λ i,
    cmd.alter (s_and (s_model modelname) (s_name [str_N i +:+ "HH3"]))
              (set_name ("HH3" +:+ str_N i))).

Definition But (modelname : string) : M string :=
  cmd.load orc "butyrate.pkl" modelname >>
  cmd.alter (s_model modelname) (set_resv 1) >>
  cmd.alter (s_model modelname) (set_chain "A") >>
  ret modelname.

Definition Ace (modelname : string) : M string :=
  cmd.fragment orc "ace" modelname >>
  rename_methyl_hydrogens modelname >>
  cmd.alter (s_model modelname) (set_resv 1) >>
  cmd.alter (s_model modelname) (set_chain "A") >>
  ret modelname.

Definition NMe (modelname : string) : M string :=
  cmd.fragment orc "nme" modelname >>
  rename_methyl_hydrogens modelname >>
  cmd.alter (s_model modelname) (set_resv 1) >>
  cmd.alter (s_model modelname) (set_chain "A") >>
  ret modelname.
End geometry.

End BetaPeptide.

(* ================================================================== *)
(** * betafabgui2/sequencemodel.py                                     *)
(* ================================================================== *)

Module AminoAcidResidue.

(** The [dihedrals] argument of the constructor: the name of a
    secondary structure, a sequence of numbers, or [None]. *)
Inductive dihedrals_arg : Type :=
| DihName (name : string)
| DihSeq (l : list (option Q))
| DihNone.

Record t : Type := Make {
  _kind : string;
  _stereo2 : string;
  _stereo3 : string;
  _sidechain3 : string;
  _sidechain2 : string;
  _dihedrals : option (list (option Q))
}.

Definition KINDS : list string :=
  ["BA"; "B2"; "B3"; "B23"; "A"; "ACE"; "NME"; "BUT"; "ACPC"; "ACHC"].

Definition known_sidechain (sc : string) : bool :=
  in_list sc (dict_keys BetaPeptide.SIDECHAINS).

Definition __init__ (db : SecondaryStructureDB.state)
    (kind stereo2 sidechain2 stereo3 sidechain3 : string)
    (dihedrals : dihedrals_arg) : result t :=
  rbind (match dihedrals with
         | DihName name =>
             rbind (SecondaryStructureDB.dihedrals db name) (λ v,
               Ok (Some (Some <$> omap id (BetaPeptide.tuple_to_list v))))
         | DihSeq l => Ok (Some l)
         | DihNone => Ok None
         end) (λ dihedrals,
  if negb (in_list kind KINDS)
  then Raise (ValueError ("Unknown residue kind: " +:+ kind))
  else if in_list kind ["ACE"; "NME"; "BUT"]
  then Ok (Make kind "" "" "" "" None)
  else
    if negb (in_list stereo2 ["R"; "S"; "D"; "L"]) && in_list kind ["A"]
    then Raise (ValueError ("Unknown absolute conformation designation: " +:+ stereo2))
    else if negb (in_list stereo2 ["R"; "S"]) && in_list kind ["B2"; "B23"; "ACPC"; "ACHC"]
    then Raise (ValueError ("Unknown absolute conformation designation: " +:+ stereo2))
    else if negb (in_list stereo3 ["R"; "S"]) && in_list kind ["B3"; "B23"; "ACPC"; "ACHC"]
    then Raise (ValueError ("Unknown absolute conformation designation: " +:+ stereo3))
    else if negb (known_sidechain sidechain2) && in_list kind ["B2"; "B23"; "A"]
    then Raise (ValueError ("Unknown sidechain: " +:+ sidechain2))
    else if negb (known_sidechain sidechain3) && in_list kind ["B3"; "B23"]
    then Raise (ValueError ("Unknown sidechain: " +:+ sidechain3))
    else if in_list kind ["B2"; "B23"; "B3"; "BA"; "ACPC"; "ACHC"]
            && BetaPeptide.wrong_count dihedrals 3
    then Raise (ValueError ("Residue of kind " +:+ kind +:+ " needs 3 dihedrals!"))
    else if in_list kind ["A"] && BetaPeptide.wrong_count dihedrals 2
    then Raise (ValueError ("Residue of kind " +:+ kind +:+ " needs 2 dihedrals!"))
    else Ok (Make kind stereo2 stereo3 sidechain3 sidechain2 dihedrals)).

(** The read-only properties. *)
Definition kind (r : t) : string := _kind r.
Definition stereo2 (r : t) : string :=
  if in_list (_kind r) ["B2"; "B23"; "A"; "ACPC"; "ACHC"] then _stereo2 r else "".
Definition stereo3 (r : t) : string :=
  if in_list (_kind r) ["B3"; "B23"; "ACPC"; "ACHC"] then _stereo3 r else "".
Definition sidechain2 (r : t) : string :=
  if in_list (_kind r) ["B2"; "B23"; "A"] then _sidechain2 r else "".
Definition sidechain3 (r : t) : string :=
  if in_list (_kind r) ["B3"; "B23"] then _sidechain3 r else "".

Definition __str__ (r : t) (with_dih : bool) : result string :=
  let dih :=
    match _dihedrals r with
    | None => ""
    | Some l => "[" +:+ join_space (format_f <$> omap id l) +:+ "]"
    end in
  let dih := if with_dih then dih else "" in
  let k := kind r in
  if String.eqb k "BA" then Ok ("BA" +:+ dih)
  else if String.eqb k "B2" then
    Ok ("(" +:+ stereo2 r +:+ ")B2h" +:+ sidechain2 r +:+ dih)
  else if String.eqb k "B3" then
    Ok ("(" +:+ stereo3 r +:+ ")B3h" +:+ sidechain3 r +:+ dih)
  else if String.eqb k "B23" then
    Ok ("(2" +:+ stereo2 r +:+ "3" +:+ stereo3 r +:+ ")B23h(2" +:+ sidechain2 r
        +:+ "3" +:+ sidechain3 r +:+ ")" +:+ dih)
  else if String.eqb k "ACPC" then
    Ok ("(2" +:+ stereo2 r +:+ "3" +:+ stereo3 r +:+ ")ACPC" +:+ dih)
  else if String.eqb k "ACHC" then
    Ok ("(2" +:+ stereo2 r +:+ "3" +:+ stereo3 r +:+ ")ACHC" +:+ dih)
  else if String.eqb k "A" then
    Ok ("(" +:+ stereo2 r +:+ ")A" +:+ sidechain2 r +:+ dih)
  else if String.eqb k "ACE" then Ok "ACE"
  else if String.eqb k "NME" then Ok "NME"
  else if String.eqb k "BUT" then Ok "BUT"
  else Raise (ValueError ("Invalid kind: " +:+ k)).

(** How the sequence editor turns an entry of the parser's list into a
    residue ([addFromCommandLine], [pasteResidues]). *)
Definition of_parsed (db : SecondaryStructureDB.state) (r : BetaPeptide.residue)
    : result t :=
  __init__ db (BetaPeptide.kind r) (BetaPeptide.stereo2 r) (BetaPeptide.sidechain2 r)
    (BetaPeptide.stereo3 r) (BetaPeptide.sidechain3 r)
    (match BetaPeptide.dihedrals r with Some l => DihSeq l | None => DihNone end).

(** Rendering what a token parses to: [str(residue)]. *)
Definition render (db : SecondaryStructureDB.state) (r : BetaPeptide.residue)
    : result string :=
  rbind (of_parsed db r) (λ a, __str__ a true).

(** ** The setters of the properties

    (the one of [stereo2] compares the kind by identity and is not
    part of this development) *)

(** [bool(value)] for a string *)
Definition nonempty (value : string) : bool := negb (String.eqb value "").

(** [not value] for a list that may be [None] *)
Definition lacking (value : option (list (option Q))) : bool :=
  match value with
  | None | Some [] => true
  | Some (_ :: _) => false
  end.

(** [value is None or len(value) != n] *)
Definition not_of_length (value : option (list (option Q))) (n : nat) : bool :=
  match value with
  | None => true
  | Some l => negb (length l =? n)%nat
  end.

Definition set_stereo3 (value : string) (self : t) : result t :=
  if negb (in_list value ["R"; "S"; ""])
  then Raise (ValueError ("Invalid chirality: " +:+ value))
  else Ok (Make (_kind self) (_stereo2 self) value (_sidechain3 self)
             (_sidechain2 self) (_dihedrals self)).

Definition set_sidechain2 (value : string) (self : t) : result t :=
  if negb (known_sidechain value) && nonempty value
  then Raise (ValueError ("Unknown sidechain: " +:+ value))
  else Ok (Make (_kind self) (_stereo2 self) (_stereo3 self) (_sidechain3 self)
             value (_dihedrals self)).

Definition set_sidechain3 (value : string) (self : t) : result t :=
  if negb (known_sidechain value) && nonempty value
  then Raise (ValueError ("Unknown sidechain: " +:+ value))
  else Ok (Make (_kind self) (_stereo2 self) (_stereo3 self) value
             (_sidechain2 self) (_dihedrals self)).

Definition set_kind (value : string) (self : t) : result t :=
  if negb (in_list value KINDS)
  then Raise (ValueError ("Unknown residue type: " +:+ value))
  else
    let stereo2 := _stereo2 self in
    let sidechain2 := _sidechain2 self in
    let stereo3 := _stereo3 self in
    let sidechain3 := _sidechain3 self in
    let dihedrals := _dihedrals self in
    let '(stereo2, sidechain2) :=
      if in_list value ["B2"; "A"; "B23"; "ACPC"; "ACHC"]
      then (if nonempty stereo2 then stereo2 else "S",
            if nonempty sidechain2 then sidechain2 else "A")
      else (stereo2, sidechain2) in
    let '(stereo3, sidechain3) :=
      if in_list value ["B3"; "B23"; "ACPC"; "ACHC"]
      then (if nonempty stereo3 then stereo3 else "S",
            if nonempty sidechain3 then sidechain3 else "A")
      else (stereo3, sidechain3) in
    let stereo2 :=
      if in_list value ["B3"; "B23"; "ACPC"; "ACHC"; "B2"]
      then if String.eqb stereo2 "L" then "S"
           else if String.eqb stereo2 "D" then "R" else stereo2
      else stereo2 in
    let dihedrals :=
      if in_list value ["A"]
      then if lacking dihedrals || not_of_length dihedrals 2
           then Some [Some (180 # 1); Some (180 # 1)] else dihedrals
      else if in_list value ["BA"; "B2"; "B3"; "B23"; "ACPC"; "ACHC"]
      then if lacking dihedrals || not_of_length dihedrals 3
           then Some [Some (180 # 1); Some (180 # 1); Some (180 # 1)] else dihedrals
      else if negb (lacking dihedrals) then None else dihedrals in
    Ok (Make value stereo2 stereo3 sidechain3 sidechain2 dihedrals).

Definition set_dihedrals (value : option (list (option Q))) (self : t) : result t :=
  if in_list (_kind self) ["A"] && not_of_length value 2
  then Raise (ValueError "Alpha-amino acids need two dihedral angles")
  else if in_list (_kind self) ["BA"; "B2"; "B3"; "B23"; "ACHC"; "ACPC"]
          && not_of_length value 3
  then Raise (ValueError "Beta-amino acids need three dihedral angles")
  else if in_list (_kind self) ["ACE"; "NME"; "BUT"] && BetaPeptide.is_Some_b value
  then Raise (ValueError "ACE, BUT and NME residues do not need dihedral angles.")
  else Ok (Make (_kind self) (_stereo2 self) (_stereo3 self) (_sidechain3 self)
             (_sidechain2 self) value).

End AminoAcidResidue.

(** The rows of the sequence editor. What the model tells Qt (the
    signals and the row bookkeeping of [QAbstractItemModel]) is left
    out: it changes neither the residues nor the list of failures. *)
Module SequenceModel.

Record t : Type := Make {
  _residues : list AminoAcidResidue.t;
  _failed : list (Z * string)
}.

Definition __init__ : t := Make [] [].

(** [rowCount()], for the invalid parent index the views ask with. *)
Definition rowCount (self : t) : Z := Z.of_nat (length (_residues self)).

(** [[i for i in range(lo, hi) if self._residues[i].kind == kind]] *)
Definition rows_of_kind (self : t) (lo hi : Z) (kind : string) : list Z :=
  List.filter
    (λ i, match py_getitem (_residues self) i with
          | Ok r => String.eqb (AminoAcidResidue.kind r) kind
          | Raise _ => false
          end)
    (seqZ lo (hi - lo)).

Definition isValid (self : t) : bool :=
  match _failed self with [] => true | _ :: _ => false end.

Definition validate (noraise : bool) (self : t) : result (list (Z * string)) * t :=
  let n := Z.of_nat (length (_residues self)) in
  let failed :=
    ((λ idx, (idx, "ACE not at the N terminus")) <$> rows_of_kind self 1 n "ACE")
    ++ ((λ idx, (idx, "BUT not at the N terminus")) <$> rows_of_kind self 1 n "BUT")
    ++ ((λ idx, (idx, "NME not at the C terminus")) <$> rows_of_kind self 0 (n - 1) "NME") in
  let self := Make (_residues self) failed in
  match failed with
  | f :: _ =>
      if noraise then (Ok failed, self)
      else (Raise (BetaPeptideConsistencyError f.2), self)
  | [] => (Ok failed, self)
  end.

(** What every change of the rows ends with: [self.validate(noraise=True)]. *)
Definition revalidated (residues : list AminoAcidResidue.t) (self : t) : t :=
  (validate true (Make residues (_failed self))).2.

Definition append (db : SecondaryStructureDB.state)
    (kind stereo2 sidechain2 stereo3 sidechain3 : string)
    (dihedrals : AminoAcidResidue.dihedrals_arg) (self : t) : result unit * t :=
  match AminoAcidResidue.__init__ db kind stereo2 sidechain2 stereo3 sidechain3
          dihedrals with
  | Raise e => (Raise e, self)
  | Ok r => (Ok tt, revalidated (_residues self ++ [r]) self)
  end.

Definition insert (db : SecondaryStructureDB.state) (row : Z)
    (kind stereo2 sidechain2 stereo3 sidechain3 : string)
    (dihedrals : AminoAcidResidue.dihedrals_arg) (self : t) : result unit * t :=
  match AminoAcidResidue.__init__ db kind stereo2 sidechain2 stereo3 sidechain3
          dihedrals with
  | Raise e => (Raise e, self)
  | Ok r => (Ok tt, revalidated (py_insert (_residues self) row r) self)
  end.

Definition removeRow (row : Z) (self : t) : result unit * t :=
  match py_delitem (_residues self) row with
  | Raise e => (Raise e, self)
  | Ok l => (Ok tt, revalidated l self)
  end.

Definition removeRows (row count : Z) (self : t) : result unit * t :=
  (Ok tt, revalidated (py_delslice (_residues self) row (row + count)) self).

Definition clear (self : t) : result unit * t := (Ok tt, revalidated [] self).

(** [residue = self._residues[row]; del self._residues[row]] *)
Definition take_out (row : Z) (self : t)
    : result (AminoAcidResidue.t * list AminoAcidResidue.t) :=
  rbind (py_getitem (_residues self) row) (λ residue,
  rbind (py_delitem (_residues self) row) (λ l, Ok (residue, l))).

Definition moveDown (row : Z) (self : t) : result Z * t :=
  if (Z.of_nat (length (_residues self)) - 1 <=? row)%Z then (Ok row, self)
  else
    match take_out row self with
    | Raise e => (Raise e, self)
    | Ok (residue, l) =>
        (Ok (row + 1)%Z, revalidated (py_insert l (row + 1) residue) self)
    end.

Definition moveUp (row : Z) (self : t) : result Z * t :=
  if (row <=? 0)%Z then (Ok row, self)
  else
    match take_out row self with
    | Raise e => (Raise e, self)
    | Ok (residue, l) =>
        (Ok (row - 1)%Z, revalidated (py_insert l (row - 1) residue) self)
    end.

Definition moveToTop (row : Z) (self : t) : result Z * t :=
  match take_out row self with
  | Raise e => (Raise e, self)
  | Ok (residue, l) => (Ok 0%Z, revalidated (py_insert l 0 residue) self)
  end.

Definition moveToBottom (row : Z) (self : t) : result Z * t :=
  match take_out row self with
  | Raise e => (Raise e, self)
  | Ok (residue, l) =>
      (Ok (Z.of_nat (length (l ++ [residue])) - 1)%Z, revalidated (l ++ [residue]) self)
  end.

(** [[str(res) for res in self._residues]] *)
Fixpoint strs (l : list AminoAcidResidue.t) : result (list string) :=
  match l with
  | [] => Ok []
  | r :: l' =>
      rbind (AminoAcidResidue.__str__ r true) (λ x,
      rbind (strs l') (λ xs, Ok (x :: xs)))
  end.

Definition residues (self : t) : result (list string) := strs (_residues self).

(** [residue(index)] *)
Definition residue (index : Z) (self : t) : result AminoAcidResidue.t :=
  py_getitem (_residues self) index.

End SequenceModel.

(* ================================================================== *)
(** * A small session to try things on                                 *)
(* ================================================================== *)

Module example.
Import pymol.

Definition at_ (name element : string) (resi : Z) (resn : string) (x : Z) : Atom :=
  mkAtom name element resi resn "A" (inject_Z x, 0%Q, 0%Q) 0 0.

(** A glycine without its hydrogens, to extend at its carbon. *)
Definition gly_left : Indexed :=
  mkIndexed [at_ "N" "N" 1 "GLY" 0; at_ "CA" "C" 1 "GLY" 1;
             at_ "C" "C" 1 "GLY" 2; at_ "O" "O" 1 "GLY" 3]
            [(0, 1); (1, 2); (2, 3)].

(** A glycine with its amide hydrogen, to attach by its nitrogen. *)
Definition gly_right : Indexed :=
  mkIndexed [at_ "N" "N" 1 "GLY" 0; at_ "H" "H" 1 "GLY" 1; at_ "CA" "C" 1 "GLY" 2;
             at_ "C" "C" 1 "GLY" 3; at_ "O" "O" 1 "GLY" 4]
            [(0, 1); (0, 2); (2, 3); (3, 4)].

(** A glycine whose carbon carries a second oxygen: its carbon end is
    taken. *)
Definition gly_oxt : Indexed :=
  mkIndexed [at_ "N" "N" 1 "GLY" 0; at_ "CA" "C" 1 "GLY" 1; at_ "C" "C" 1 "GLY" 2;
             at_ "O" "O" 1 "GLY" 3; at_ "OXT" "O" 1 "GLY" 4]
            [(0, 1); (1, 2); (2, 3); (2, 4)].

(** A glycine whose nitrogen carries a formyl carbon: its nitrogen end
    is taken. *)
Definition gly_formyl : Indexed :=
  mkIndexed [at_ "N" "N" 1 "GLY" 0; at_ "CF" "C" 1 "GLY" 1; at_ "CA" "C" 1 "GLY" 2;
             at_ "C" "C" 1 "GLY" 3; at_ "O" "O" 1 "GLY" 4]
            [(0, 1); (0, 2); (2, 3); (3, 4)].

(** A butyryl group whose carbonyl carbon has no neighbour called CA. *)
Definition but : Indexed :=
  mkIndexed [at_ "C" "C" 1 "BUT" 0; at_ "O" "O" 1 "BUT" 1; at_ "C2" "C" 1 "BUT" 2]
            [(0, 1); (0, 2)].

(** The template peptide bond. *)
Definition peptidebond : Indexed :=
  mkIndexed [at_ "Cprev" "C" 1 "PEP" 10; at_ "C" "C" 1 "PEP" 11; at_ "O" "O" 1 "PEP" 12;
             at_ "N" "N" 1 "PEP" 13; at_ "H" "H" 1 "PEP" 14; at_ "Cnext" "C" 1 "PEP" 15]
            [(0, 1); (1, 2); (1, 3); (3, 4); (3, 5)].

(** The place of the first atom of a selection. *)
Definition first_coord (objs : gmap string Indexed) (s : sel) : option Coord :=
  match selected objs s with
  | (o, i) :: _ => objs !! o ≫= λ m, coord <$> atom m !! i
  | [] => None
  end.

Definition translate (d c : Coord) : Coord :=
  ((c.1.1 + d.1.1)%Q, (c.1.2 + d.1.2)%Q, (c.2 + d.2)%Q).
Definition difference (b a : Coord) : Coord :=
  ((b.1.1 - a.1.1)%Q, (b.1.2 - a.1.2)%Q, (b.2 - a.2)%Q).
Definition coord_eqb (a b : Coord) : bool :=
  Qeq_bool a.1.1 b.1.1 && Qeq_bool a.1.2 b.1.2 && Qeq_bool a.2 b.2.

(** Superposition by translation: the first atom of the first pair is
    taken onto its target. *)
Definition translation (objs : gmap string Indexed) (pairs : list (sel * sel))
    : Coord → Coord :=
  match pairs with
  | (s1, s2) :: _ =>
      match first_coord objs s1, first_coord objs s2 with
      | Some a, Some b => translate (difference b a)
      | _, _ => id
      end
  | [] => id
  end.

(** Whether the translation takes every pair onto its target. *)
Definition exact_fit (objs : gmap string Indexed) (pairs : list (sel * sel)) : bool :=
  forallb (λ p : sel * sel,
             match first_coord objs p.1, first_coord objs p.2 with
             | Some a, Some b => coord_eqb (translation objs pairs a) b
             | _, _ => false
             end) pairs.

(** A host that superposes by translation, reporting an RMS of 0 for an
    exact superposition and of 1 otherwise, and whose fragment library is
    empty. *)
Definition host : Oracle :=
  {| fit_rms := λ objs pairs, if exact_fit objs pairs then 0%Q else 1%Q;
     fit_motion := translation;
     rotation := λ _ _ c, c;
     inversion := λ objs _, objs;
     torsion := λ objs _ _, objs;
     fragment_library := λ _, None;
     resource := λ _, peptidebond;
     randint_0_2 := λ _, axis_x;
     randrange_360 := λ _, 0%Z;
     monotonic := λ n, str_N (N.of_nat n);
     str_float := λ _, "?" |}.

Definition session : World :=
  {| objects := {[ "left" := gly_left; "right" := gly_right;
                   "oxt" := gly_oxt; "formyl" := gly_formyl; "but" := but ]};
     picked := None; tempobjnames := []; draws := 0; clock := 0 |}.

Definition no_pass (_ : Z) (m : Indexed) : result unit * Indexed := (Ok tt, m).

(** Two glycines in a chain, and the same chain numbered from 2. *)
Definition diglycine : Indexed :=
  mkIndexed [at_ "N" "N" 1 "GLY" 0; at_ "CA" "C" 1 "GLY" 1; at_ "C" "C" 1 "GLY" 2;
             at_ "O" "O" 1 "GLY" 3;
             at_ "N" "N" 2 "GLY" 4; at_ "H" "H" 2 "GLY" 5; at_ "CA" "C" 2 "GLY" 6;
             at_ "C" "C" 2 "GLY" 7; at_ "O" "O" 2 "GLY" 8]
            [(0, 1); (1, 2); (2, 3); (2, 4); (4, 5); (4, 6); (6, 7); (7, 8)].

Definition diglycine_from_2 : Indexed :=
  mkIndexed ((λ a, assign (set_resv (resi_number a + 1)) a) <$> atom diglycine)
            (bond diglycine).

Definition chains : World :=
  {| objects := {[ "gg" := diglycine; "late" := diglycine_from_2;
                   "nothing" := empty_model ]};
     picked := None; tempobjnames := []; draws := 0; clock := 0 |}.

(** The acetyl fragment, and a host whose fragment library holds it. *)
Definition acetyl : Indexed :=
  mkIndexed [at_ "C" "C" 0 "ACE" 0; at_ "O" "O" 0 "ACE" 1; at_ "CH3" "C" 0 "ACE" 2;
             at_ "1HH3" "H" 0 "ACE" 3; at_ "2HH3" "H" 0 "ACE" 4;
             at_ "3HH3" "H" 0 "ACE" 5]
            [(0, 1); (0, 2); (2, 3); (2, 4); (2, 5)].

Definition host_with_acetyl : Oracle :=
  {| fit_rms := fit_rms host;
     fit_motion := fit_motion host;
     rotation := rotation host;
     inversion := inversion host;
     torsion := torsion host;
     fragment_library := λ f, if String.eqb f "ace" then Some acetyl else None;
     resource := resource host;
     randint_0_2 := randint_0_2 host;
     randrange_360 := randrange_360 host;
     monotonic := monotonic host;
     str_float := str_float host |}.

(** Three rows of the sequence editor: an acetyl cap, an L-alanine in
    a stretched conformation and an N-methylamide cap. *)
Definition row_ace : AminoAcidResidue.t :=
  AminoAcidResidue.Make "ACE" "" "" "" "" None.
Definition row_ala : AminoAcidResidue.t :=
  AminoAcidResidue.Make "A" "L" "" "" "A" (Some [Some (180 # 1)%Q; Some (180 # 1)%Q]).
Definition row_nme : AminoAcidResidue.t :=
  AminoAcidResidue.Make "NME" "" "" "" "" None.

End example.

(* ================================================================== *)
(** * The vocabulary of the properties                                 *)
(* ================================================================== *)

(** ** The round trip of the sequence grammar *)

Module parser_spec.
Import BetaPeptide SecondaryStructureDB.

(** The round trip of the specification, for one token: what the token
    parses to can be rendered, and the rendering parses to the same. *)
Definition round_trip (db : state) (T : string) : Prop :=
  ∀ r, parseBetaPeptideSequence db T = Ok [r] →
       ∃ t, AminoAcidResidue.render db r = Ok t
            ∧ parseBetaPeptideSequence db t = Ok [r].

End parser_spec.

(** ** Texts, and what a pattern makes of them *)

Module text_spec.
Import re.

(** Every character of [s] is of the class [p]. *)
Fixpoint all_chars (p : ascii → bool) (s : string) : bool :=
  match s with
  | "" => true
  | String c s' => p c && all_chars p s'
  end.

(** [rest] does not go on with a character of the class [p]. *)
Definition stops (p : ascii → bool) (rest : string) : bool :=
  match rest with
  | "" => true
  | String c _ => negb (p c)
  end.

(** The first way a pattern matches. *)
Definition first_match (r : regex) (s : string) (g : groups)
    : option (string * string * groups) :=
  head (results r s g).

(** The numbers with at most six decimals: [k / 10^6]. *)
Definition six_decimals (q : Q) : Prop := ∃ k : Z, q = Qred (k # 1000000).

(** The characters [split] does not cut at, and those [strip] does not
    take away. *)
Definition no_comma (c : ascii) : bool := negb (Ascii.eqb c ",").

Definition solid (c : ascii) : bool := negb (is_space c).

(** [s] starts with a character of the class [p]. *)
Definition starts (p : ascii → bool) (s : string) : bool :=
  match s with
  | "" => false
  | String c _ => p c
  end.

(** [fa] is a notation of the number [a]: [float] reads it as [a], the
    pattern of a number takes the whole of it when no digit and no
    exponent follows, and it holds no blank at its start and no comma. *)
Record number_text (fa : string) (a : Q) : Prop := NumberText {
  nt_float : float fa = Ok a;
  nt_match : ∀ rest g,
    stops is_digit rest = true → stops (one_of "eE") rest = true →
    first_match BetaPeptide.float_regex (fa +:+ rest) g = Some (fa, rest, g);
  nt_solid : ∀ rest, starts solid (fa +:+ rest) = true;
  nt_plain : all_chars no_comma fa = true
}.

(** The first way [r] matches [s] leaves [s'] and the groups [g']. *)
Definition first_to (r : regex) (s : string) (g : groups)
    (s' : string) (g' : groups) : Prop :=
  ∃ m, first_match r s g = Some (m, s', g').

(** The dihedrals of an entry, the text [__str__] writes for them given
    the notations of the numbers, and the groups the pattern sets on
    that text. *)
Inductive dih_text : option (list (option Q)) → string → (groups → groups) → Prop :=
| dih_none : dih_text None "" id
| dih_two fa a fb b :
    number_text fa a → number_text fb b →
    dih_text (Some [Some a; Some b]) ("[" +:+ fa +:+ " " +:+ fb +:+ "]")
      (λ g, dict_set "theta" fb (dict_set "phi" fa g))
| dih_three fa a fb b fc c :
    number_text fa a → number_text fb b → number_text fc c →
    dih_text (Some [Some a; Some b; Some c])
      ("[" +:+ fa +:+ " " +:+ fb +:+ " " +:+ fc +:+ "]")
      (λ g, dict_set "psi" fc (dict_set "theta" fb (dict_set "phi" fa g))).

(** A character of a token: neither a comma nor a blank. *)
Definition token_char (c : ascii) : bool := no_comma c && solid c.

(** One or two capital letters. *)
Definition upper_code (sc : string) : bool :=
  all_chars is_upper sc && (1 <=? String.length sc)%nat
  && (String.length sc <=? 2)%nat.

(** The dihedrals, if any, are all numbers of at most six decimals. *)
Definition angles_ok (d : option (list (option Q))) : Prop :=
  match d with
  | None => True
  | Some l => Forall (λ x, ∃ q, x = Some q ∧ six_decimals q) l
  end.

(** The torsion suffix of [__str__]. *)
Definition dih_str (d : option (list (option Q))) : string :=
  match d with
  | None => ""
  | Some l => "[" +:+ join_space (format_f <$> omap id l) +:+ "]"
  end.

End text_spec.

(** ** The entries of a parsed sequence *)

Module round_trip_spec.
Import re text_spec BetaPeptide SecondaryStructureDB.

(** The entries the loop of [parseBetaPeptideSequence] can append. *)
Inductive parsed : residue → Prop :=
| parsed_bare d : wrong_count d 3 = false → parsed (Residue "BA" "G" "" "G" "" d)
| parsed_alpha sc st d : wrong_count d 2 = false → parsed (Residue "A" sc st "" "" d)
| parsed_beta2 sc st d : wrong_count d 3 = false → parsed (Residue "B2" sc st "G" "" d)
| parsed_beta3 sc st d : wrong_count d 3 = false → parsed (Residue "B3" "G" "" sc st d)
| parsed_ace : parsed (Residue "ACE" "" "" "" "" None)
| parsed_but : parsed (Residue "BUT" "" "" "" "" None)
| parsed_nme : parsed (Residue "NME" "" "" "" "" None)
| parsed_acpc st2 st3 d : parsed (Residue "ACPC" "" st2 "" st3 d)
| parsed_achc st2 st3 d : parsed (Residue "ACHC" "" st2 "" st3 d)
| parsed_beta23 sc2 st2 sc3 st3 d :
    wrong_count d 3 = false → parsed (Residue "B23" sc2 st2 sc3 st3 d).

End round_trip_spec.

(** ** The rounds of a superposition *)

Module safe_pairfit_spec.
Import pymol BetaPeptide.

(** The commands of the rounds that missed the tolerance: a fit, its
    RMS, and the rotation that followed. *)
Definition missed_rounds (selections : list (sel * sel)) (model1 : sel)
    (missed : list (Q * ascii * Z)) : list event :=
  flat_map (λ x : Q * ascii * Z,
              [e_pair_fit selections x.1.1; e_rotate x.1.2 x.2 model1]) missed.

(** What a superposition with tolerance [tol] and [ntries] attempts may
    do: either some attempt, not later than the last, is the first with
    an RMS below the tolerance, and its RMS is returned at once; or all
    the attempts miss the tolerance, each is followed by a rotation
    about one of the three axes, and a [RuntimeError] tells the tolerance
    and the last RMS. *)
Definition retries (orc : Oracle) (selections : list (sel * sel)) (model1 : sel)
    (tol : Q) (ntries : nat) (rms0 : option Q)
    (out : result Q * World * list event) : Prop :=
  ∃ missed : list (Q * ascii * Z),
    Forall (λ x, Qltb x.1.1 tol = false ∧ x.1.2 ∈ ["x"; "y"; "z"]%char) missed
    ∧ ((∃ rms, out.1.1 = Ok rms ∧ Qltb rms tol = true
               ∧ length missed < ntries
               ∧ out.2 = missed_rounds selections model1 missed
                         ++ [e_pair_fit selections rms])
       ∨ (length missed = ntries
          ∧ out.2 = missed_rounds selections model1 missed
          ∧ out.1.1 =
              match last missed.*1.*1, rms0 with
              | Some rms, _ | None, Some rms =>
                  Raise (RuntimeError
                           ("Could not fit with RMS less than " +:+ str_float orc tol
                            +:+ ". RMS is: " +:+ str_float orc rms))
              | None, None =>
                  Raise (UnboundLocalError
                           "local variable 'rms' referenced before assignment")
              end)).

End safe_pairfit_spec.

(** ** Traces *)

Module trace_spec.
Import pymol.

(** A computation that never asks for an inversion. *)
Definition quiet {A} (m : M A) : Prop := ∀ w, e_invert ∉ (m w).2.

(** A computation that never raises. *)
Definition succeeds {A} (m : M A) : Prop := ∀ w, ∃ a w' t, m w = (Ok a, w', t).

End trace_spec.

(** ** The inversion rule *)

Module residue_spec.
Import pymol BetaPeptide.

(** What [initializeAlphaResidue] does before it decides on the
    inversion. *)
Definition load_fragment (orc : Oracle) (self sidechain : string) : M unit :=
  cmd.delete self >>
  except_CmdException
    (match dict_get sidechain SIDECHAINS with
     | Some frag => cmd.fragment orc frag self
     | None => raise (KeyError sidechain)
     end)
    (match dict_get sidechain SIDECHAINS with
     | Some frag => cmd.load orc (frag +:+ ".pkl") self
     | None => raise (KeyError sidechain)
     end) >>
  when (String.eqb sidechain "CM")
    (cmd.remove (s_and (s_model self) (s_name ["HG"])) >>
     cmd.alter (s_and (s_model self) (s_name ["SG"])) (set_formal_charge (-1)) >>
     cmd.alter (s_and (s_model self) (s_name ["SG"])) (set_partial_charge (-1)) >>
     cmd.alter (s_model self) (set_resn "CYM")) >>
  cmd.alter (s_model self) (set_resv 1) >>
  cmd.alter (s_model self) (set_chain "A").

(** The rule of the specification, in its words. *)
Definition must_invert (sidechain stereo : string) : Prop :=
  sidechain ≠ "G"
  ∧ (stereo = "D"
     ∨ (stereo = "R" ∧ sidechain ≠ "C" ∧ sidechain ≠ "CM")
     ∨ (stereo = "S" ∧ (sidechain = "C" ∨ sidechain = "CM"))).

End residue_spec.

(** ** The commands of the checks before a fusion *)

Module fusion_spec.
Import pymol utils BetaPeptide.

(** The commands of a [with fetchModel(...)] block. *)
Definition reloaded (self : string) (m : Indexed) : list event :=
  [e_get_model (s_model self); e_delete self; e_load_model m self;
   e_get_model (s_model self)].

(** The commands that read, and those that put back an object a
    [fetchModel] block fetched. *)
Definition harmless (e : event) : Prop :=
  match e with
  | e_get_model _ | e_count_atoms _ | e_delete _ | e_load_model _ _ => True
  | _ => False
  end.

End fusion_spec.

(** ** The rules of the consistency check *)

Module checkPeptide_spec.
Import pymol utils BetaPeptide.

Definition consistency {A} (parts : list string) : result A :=
  Raise (BetaPeptideConsistencyError (String.concat "" parts)).

(** The rules of one residue as a function of the objects of the
    session: the residue name, then the rules on the amide bonds towards
    the previous and the next residue, then the two neighbour rules. *)
Definition resname_of (objs : gmap string Indexed) (self : string) (i : Z)
    : result string :=
  match atom (get_model objs (sel_residue self i)) with
  | a :: _ => Ok (resn a)
  | [] => Raise (IndexError "list index out of range")
  end.

Definition amide_rules (objs : gmap string Indexed) (self : string)
    (maxresidue i : Z) (resname : string) : result unit :=
  rbind (if (1 <? i)%Z && negb (in_list resname ["PRO"; "DPRO"]) then
           let hcount := count_atoms objs (sel_hcount self i) in
           let ccount := count_atoms objs (sel_ccount self i) in
           if negb (hcount =? 1)%nat
           then consistency ["Amide N in residue "; str_Z i; " has ";
                             str_N (N.of_nat hcount); " hydrogens."]
           else if negb (ccount =? 1)%nat
           then consistency ["Amide N in residue "; str_Z i; " has ";
                             str_N (N.of_nat ccount);
                             " amide carbons from the previous residue."]
           else Ok tt
         else Ok tt) (λ _,
  if (i <? maxresidue)%Z then
    let ocount := count_atoms objs (sel_ocount self i) in
    let ncount := count_atoms objs (sel_ncount self i) in
    if negb (ocount =? 1)%nat
    then consistency ["Amide C in residue "; str_Z i; " has ";
                      str_N (N.of_nat ocount); " oxygens."]
    else if negb (ncount =? 1)%nat
    then consistency ["Amide C in residue "; str_Z i; " has ";
                      str_N (N.of_nat ncount);
                      " amide nitrogens from the next residue"]
    else Ok tt
  else Ok tt).

Definition nitrogen_rule (objs : gmap string Indexed) (self : string)
    (i : Z) (resname : string) : result unit :=
  let cbcount := count_atoms objs (sel_cbcount self i) in
  if negb (cbcount =? 1)%nat && negb (in_list resname ["NME"; "ACE"; "BUT"])
  then consistency ["Amide N in residue "; str_Z i; " has ";
                    str_N (N.of_nat cbcount); " CA or CB neighbours."]
  else Ok tt.

Definition carbon_rule (objs : gmap string Indexed) (self : string)
    (i : Z) (resname : string) : result unit :=
  let cacount := count_atoms objs (sel_cacount self i) in
  if negb (cacount =? 1)%nat && negb (in_list resname ["ACE"; "NME"])
  then consistency ["Amide C in residue "; str_Z i; " has ";
                    str_N (N.of_nat cacount); " CA neighbours."]
  else Ok tt.

Definition residue_rules (objs : gmap string Indexed) (self : string)
    (maxresidue i : Z) : result unit :=
  rbind (resname_of objs self i) (λ resname,
  rbind (amide_rules objs self maxresidue i resname) (λ _,
  rbind (nitrogen_rule objs self i resname) (λ _,
  carbon_rule objs self i resname))).

(** The first exception of a sequence of checks. *)
Definition first_error (l : list (result unit)) : result unit :=
  foldr (λ r acc, rbind r (λ _, acc)) (Ok tt) l.

(** A computation that only reads the session: its answer is a function
    of the session, which it leaves as it was. *)
Definition reads {A} (m : M A) (f : World → result A) : Prop :=
  ∀ w, ∃ t, m w = (f w, w, t).

End checkPeptide_spec.

(** ** The chain a fusion builds *)

Module joining_spec.
Import pymol utils BetaPeptide.

(** The answer and the session a computation ends with. *)
Definition outcome {A} (m : M A) (w : World) : result A * World := (m w).1.

(** Every [model] of the selection is [o]. *)
Fixpoint only_model (o : string) (s : sel) : bool :=
  match s with
  | s_model x => String.eqb x o
  | s_name _ | s_resi _ | s_symbol _ => true
  | s_neighbor t => only_model o t
  | s_and a b | s_or a b => only_model o a && only_model o b
  | s_not a => only_model o a
  end.

(** The selection shows its object at the top of its conjunctions. *)
Fixpoint within (o : string) (s : sel) : bool :=
  match s with
  | s_model x => String.eqb x o
  | s_neighbor t => within o t
  | s_and a b => within o a || within o b
  | _ => false
  end.

(** The same selection for a copy of the object under another name,
    with its residues renumbered. *)
Fixpoint shift_sel (o' : string) (k : Z) (s : sel) : sel :=
  match s with
  | s_model _ => s_model o'
  | s_name ns => s_name ns
  | s_resi r => s_resi (r + k)
  | s_symbol e => s_symbol e
  | s_neighbor t => s_neighbor (shift_sel o' k t)
  | s_and a b => s_and (shift_sel o' k a) (shift_sel o' k b)
  | s_or a b => s_or (shift_sel o' k a) (shift_sel o' k b)
  | s_not a => s_not (shift_sel o' k a)
  end.

(** A copy of a model whose coordinates were moved and whose residue
    numbers were shifted. *)
Definition shifted (k : Z) (f : Coord → Coord) (m : Indexed) : Indexed :=
  move_model f (renumber k m).

(** [w'] differs from [w] in its objects and in the random numbers
    drawn. *)
Definition same_registry (w w' : World) : Prop :=
  picked w' = picked w ∧ tempobjnames w' = tempobjnames w ∧ clock w' = clock w.

(** The first name [tempObjectName] tries in the session [w]. *)
Definition first_name (orc : Oracle) (w : World) : string :=
  "_temporary" +:+ str_N (N.of_nat 0) +:+ monotonic orc (clock w).

(** An atom of such a copy. *)
Definition shift_atom (k : Z) (f : Coord → Coord) (a : Atom) : Atom :=
  map_coord f (assign (set_resv (resi_number a + k)) a).

(** The test of [startsWithProline] on a fetched model. *)
Definition first_is_proline (m : Indexed) : result bool :=
  rbind (min_resi m) (λ minresi,
    match resn_set m minresi with
    | [r] => Ok (in_list r ["PRO"; "DPRO"])
    | [] => Raise AssertionError
    | _ => Raise (BetaPeptideConsistencyError
                    "Atoms in the same residue must have the same residue names.")
    end).

(** [model o and resi r and name ns] *)
Definition atomic (o : string) (r : Z) (ns : list string) : sel :=
  s_and (s_and (s_model o) (s_resi r)) (s_name ns).

(** The places, in a model, of the atoms of residue [r] that bear one
    of the names [ns]. *)
Definition picks (m : Indexed) (r : Z) (ns : list string) : list nat :=
  List.filter (λ i, atom_test m i (λ a, (resi_number a =? r)%Z && in_list (name a) ns))
              (seq 0 (length (atom m))).

(** The chain a fusion builds: the atoms of [B], renumbered and moved,
    then those of [A], moved; the bonds of both, and one more from the
    carbon [iC] of [A] to the nitrogen [iN] of [B]. *)
Definition joined (A B : Indexed) (k : Z) (f g : Coord → Coord) (iC iN : nat)
    : Indexed :=
  let both := merge (shifted k g B) (move_model f A) in
  mkIndexed (atom both) (bond both ++ [((length (atom B) + iC)%nat, iN)]).

(** The atoms of residue [i], in the order of the model. *)
Definition residue_atoms (m : Indexed) (i : Z) : list Atom :=
  List.filter (λ a, (resi_number a =? i)%Z) (atom m).

(** The name [tempObjectName] tries first when the clock reads [c]. *)
Definition scratch_name (orc : Oracle) (c : nat) : string :=
  "_temporary" +:+ str_N (N.of_nat 0) +:+ monotonic orc c.

End joining_spec.

(** ** The rows of the sequence editor *)

Module sequence_spec.

(** The rule of the editor on capping groups: ACE and BUT only in the
    first row, NME only in the last. *)
Definition well_capped (l : list AminoAcidResidue.t) : Prop :=
  ∀ (i : nat) r, l !! i = Some r →
    (AminoAcidResidue.kind r = "ACE" ∨ AminoAcidResidue.kind r = "BUT" → i = 0%nat)
    ∧ (AminoAcidResidue.kind r = "NME" → S i = length l).

(** What the constructor and the [kind] setter leave in [_dihedrals]
    for a kind: two angles, three angles, or none. *)
Definition fits (kind : string) (d : option (list (option Q))) : Prop :=
  if in_list kind ["A"] then ∃ a b, d = Some [a; b]
  else if in_list kind ["BA"; "B2"; "B3"; "B23"; "ACPC"; "ACHC"]
  then ∃ a b c, d = Some [a; b; c]
  else d = None.

End sequence_spec.

(** ** Alpha and beta residues *)

Module folding_spec.
Import pymol BetaPeptide.

(** What both tests ask of the backbone of a residue: one atom each of
    the names N, C, H, CA and O, the H bonded to the N, and the CA to
    the C. *)
Definition backbone_shape (objs : gmap string Indexed) (self : string) (residue : Z)
    : bool :=
  (count_atoms objs (sel_atoms self residue ["N"; "C"; "H"; "CA"; "O"]) =? 5)%nat
  && (count_atoms objs (sel_bonded self residue "N" "H") =? 1)%nat
  && (count_atoms objs (sel_bonded self residue "C" "CA") =? 1)%nat.

(** The CA is bonded to the N as well. *)
Definition alpha_shape (objs : gmap string Indexed) (self : string) (residue : Z)
    : bool :=
  backbone_shape objs self residue
  && (count_atoms objs (sel_between self residue "C" "N" ["CA"]) =? 1)%nat.

(** It is not, and one atom called CB or CB1 sits between the CA and
    the N. *)
Definition beta_shape (objs : gmap string Indexed) (self : string) (residue : Z)
    : bool :=
  backbone_shape objs self residue
  && negb (count_atoms objs (sel_between self residue "C" "N" ["CA"]) =? 1)%nat
  && (count_atoms objs (sel_between self residue "CA" "N" ["CB"; "CB1"]) =? 1)%nat.

(** The exception of [fold] on a list with too few angles. *)
Definition too_few : result unit := Raise (IndexError "list index out of range").

End folding_spec.

(** ** Capping groups *)

Module capping_spec.
Import pymol.

(** What the constructors of the capping groups make of an atom of the
    fragment: the hydrogens of the methyl group get the number at the
    end of their name, and every atom is put in residue 1 of chain A. *)
Definition methyl_name (n : string) : string :=
  if String.eqb n "1HH3" then "HH31"
  else if String.eqb n "2HH3" then "HH32"
  else if String.eqb n "3HH3" then "HH33"
  else n.

Definition cap_atom (rename : string → string) (a : Atom) : Atom :=
  mkAtom (rename (name a)) (symbol a) 1 (resn a) "A" (coord a)
         (formal_charge a) (partial_charge a).

Definition capped (rename : string → string) (m : Indexed) : Indexed :=
  mkIndexed (cap_atom rename <$> atom m) (bond m).

End capping_spec.

(* ================================================================== *)
(** * Properties                                                       *)
(* ================================================================== *)

Section dict_facts.
Context {V : Type}.
Implicit Types d : list (string * V).

Lemma dict_set_fresh k v d :
  k ∉ dict_keys d → dict_set k v d = d ++ [(k, v)].
Proof.
  induction d as [|[k' v'] d IH]; simpl; [done|].
  intros Hk. apply not_elem_of_cons in Hk as [Hne Hk].
  destruct (String.eqb_spec k' k); [congruence|]. by rewrite IH.
Qed.

Lemma dict_update_fresh d other :
  NoDup (dict_keys (d ++ other)) → dict_update d other = d ++ other.
Proof.
  revert d. induction other as [|[k v] other IH]; intros d Hnd; simpl.
  - by rewrite app_nil_r.
  - unfold dict_update in *. simpl.
    rewrite dict_set_fresh.
    + rewrite IH; rewrite <- app_assoc; done.
    + unfold dict_keys in *. rewrite fmap_app in Hnd.
      apply NoDup_app in Hnd as (_ & Hd & _).
      intros Hin. apply (Hd k Hin). simpl. left.
Qed.

Lemma dict_get_elem k v d : dict_get k d = Some v → (k, v) ∈ d.
Proof.
  induction d as [|[k' v'] d IH]; simpl; [done|].
  destruct (String.eqb_spec k' k) as [->|Hk].
  - intros [= ->]. left.
  - intros H. right. auto.
Qed.

Lemma dict_get_Some_elem k v d :
  NoDup (dict_keys d) → dict_get k d = Some v ↔ (k, v) ∈ d.
Proof.
  induction d as [|[k' v'] d IH]; simpl; intros Hnd.
  - split; [done|]. by intros ?%elem_of_nil.
  - apply NoDup_cons in Hnd as [Hk' Hnd]. destruct (String.eqb_spec k' k) as [Hk|Hk]; subst.
    + split.
      * intros [= ->]. left.
      * intros [[= ->]|Hin]%elem_of_cons; [done|].
        exfalso. apply Hk'. unfold dict_keys.
        apply list_elem_of_fmap. by exists (k, v).
    + rewrite IH by done. split.
      * intros ?. by right.
      * intros [[= -> ->]|Hin]%elem_of_cons; [done|done].
Qed.
End dict_facts.

Section list_facts.
Context {A B : Type}.

Lemma filter_split_Permutation (p : A → bool) (l : list A) :
  List.filter (λ x, negb (p x)) l ++ List.filter p l ≡ₚ l.
Proof.
  induction l as [|x l IH]; simpl; [done|].
  destruct (p x); simpl.
  - rewrite <- Permutation_middle. by constructor.
  - by constructor.
Qed.

(** A filtering map that accepts a single element of a duplicate-free
    list yields a single result. *)
Lemma omap_singleton (f : A → option B) (l : list A) x0 y0 :
  NoDup l → x0 ∈ l → f x0 = Some y0 →
  (∀ x, x ∈ l → is_Some (f x) → x = x0) →
  omap f l = [y0].
Proof.
  induction l as [|x l IH]; intros Hnd Hin Hf Huniq.
  - by apply elem_of_nil in Hin.
  - apply NoDup_cons in Hnd as [Hx Hnd]. simpl.
    assert (Hrest : ∀ l', (∀ z, z ∈ l' → f z = None) → omap f l' = []).
    { induction l' as [|z l' IH']; [done|]. intros Hnone. simpl.
      rewrite (Hnone z) by left. apply IH'. intros z' Hz'. apply Hnone. by right. }
    apply elem_of_cons in Hin as [->|Hin].
    + rewrite Hf. f_equal. apply Hrest. intros z Hz.
      destruct (f z) eqn:Hfz; [|done].
      assert (z = x) as -> by (apply Huniq; [by right | by rewrite Hfz]).
      done.
    + destruct (f x) eqn:Hfx.
      * assert (x = x0) as -> by (apply Huniq; [left | by rewrite Hfx]). done.
      * apply IH; auto. intros z Hz. apply Huniq. by right.
Qed.

Lemma omap_all_None (f : A → option B) (l : list A) :
  (∀ x, x ∈ l → f x = None) → omap f l = [].
Proof.
  induction l as [|z l IH]; [done|]. intros Hnone. simpl.
  rewrite (Hnone z) by left. apply IH. intros z' Hz'. apply Hnone. by right.
Qed.
End list_facts.

Lemma Qltb_lt (x y : Q) : Qltb x y = true ↔ (x < y)%Q.
Proof.
  unfold Qltb. rewrite negb_true_iff. split.
  - intros H. apply Qnot_le_lt. intros Hle. apply Qle_bool_iff in Hle. congruence.
  - intros H. destruct (Qle_bool y x) eqn:E; [|done].
    apply Qle_bool_iff in E. exfalso. by apply (Qlt_not_le x y).
Qed.

Module SecondaryStructureDB_facts.
Import SecondaryStructureDB.

Lemma reachable_no_instance st : reachable st → _instance st = None.
Proof.
  induction 1 as [|c st _ IH]; [done|].
  destruct c; simpl; try done.
  unfold __new__. by rewrite IH.
Qed.

(** The entries a lookup sees are the stored ones, those of the
    alpha-peptides first. *)
Lemma getAll_all st :
  NoDup (dict_keys (pref_get st DEFAULT_HELIXTYPES)) →
  getAll st true true =
    List.filter (λ kv, negb (is_beta_entry kv)) (pref_get st DEFAULT_HELIXTYPES)
    ++ List.filter is_beta_entry (pref_get st DEFAULT_HELIXTYPES).
Proof.
  intros Hnd. unfold getAll.
  set (ss := pref_get st DEFAULT_HELIXTYPES) in *.
  assert (Hperm : NoDup (dict_keys (List.filter (λ kv, negb (is_beta_entry kv)) ss
                                     ++ List.filter is_beta_entry ss))).
  { unfold dict_keys. by rewrite filter_split_Permutation. }
  rewrite (dict_update_fresh [] _).
  - simpl. by apply dict_update_fresh.
  - simpl. unfold dict_keys in *. rewrite fmap_app in Hperm.
    by apply NoDup_app in Hperm as (? & _ & _).
Qed.

Lemma getAll_Permutation st :
  NoDup (dict_keys (pref_get st DEFAULT_HELIXTYPES)) →
  getAll st true true ≡ₚ pref_get st DEFAULT_HELIXTYPES.
Proof. intros Hnd. rewrite getAll_all by done. apply filter_split_Permutation. Qed.

Lemma find_diff_within phi theta psi tol k v :
  is_Some (find_diff phi theta psi tol (k, v)) ↔ within phi theta psi tol v.
Proof.
  destruct v as [[a0 a1] a2]. unfold find_diff, within.
  assert (Hb : ∀ x, Qltb x tol = true ↔ (x < tol)%Q) by (intros; apply Qltb_lt).
  destruct theta as [th|], a1 as [a1|]; cbn beta iota;
    try (split; [by intros [? ?] | by intros (? & ? & ?)]).
  - generalize (Qabs (a0 - phi)) (Qabs (a1 - th)) (Qabs (a2 - psi)).
    intros d0 d1 d2. rewrite <- !Hb.
    destruct (Qltb d0 tol), (Qltb d1 tol), (Qltb d2 tol); cbn [andb];
      (split; [intros [? ?] | intros (? & ? & ?)]); try done; eauto.
  - generalize (Qabs (a0 - phi)) (Qabs (a2 - psi)).
    intros d0 d2. rewrite <- !Hb.
    destruct (Qltb d0 tol), (Qltb d2 tol); cbn [andb];
      (split; [intros [? ?] | intros (? & ? & ?)]); try done; eauto.
Qed.

Lemma find_diff_key phi theta psi tol kv kd :
  find_diff phi theta psi tol kv = Some kd → kd.1 = kv.1.
Proof.
  destruct kv as [k [[a0 a1] a2]]. unfold find_diff.
  destruct theta, a1; try done; case_match; try done; by intros [= <-].
Qed.

(** C10: in every state the class can reach, calling
    [SecondaryStructureDB()] raises a [TypeError], because
    [object.__new__] is called without the class; the [_instance]
    attribute stays unassigned and no call ever returns an instance, so
    that the operations of the database are only available on the
    class. *)
Theorem new_raises_TypeError st :
  reachable st →
  (__new__ st).1 = Raise (TypeError "object.__new__(): not enough arguments")
  ∧ _instance (__new__ st).2 = None
  ∧ (__new__ st).2 = st
  ∧ ∀ obj, (__new__ st).1 ≠ Ok obj.
Proof.
  intros Hr. pose proof (reachable_no_instance st Hr) as Hnone.
  unfold __new__. rewrite Hnone. simpl. by repeat split.
Qed.

Lemma new_raises_TypeError_witness :
  let st := step CallNew (step (CallAdd "mine" 1 None 2) (step CallNew initial)) in
  reachable st ∧
  (__new__ st).1 = Raise (TypeError "object.__new__(): not enough arguments").
Proof.
  intros st.
  assert (Hr : reachable st) by (repeat constructor).
  split; [exact Hr|]. exact (proj1 (new_raises_TypeError st Hr)).
Defined.



End SecondaryStructureDB_facts.

Module parser_facts.
Import BetaPeptide SecondaryStructureDB.
Export parser_spec.

Example parse_several db :
  parseBetaPeptideSequence db "(S)B2hCM, (D)AK[-57 -47] ,NME"
  = Ok [Residue "B2" "CM" "S" "G" "" None;
        Residue "A" "K" "D" "" "" (Some [Some (lit "-57"); Some (lit "-47")]);
        Residue "NME" "" "" "" "" None].
Proof. vm_compute. reflexivity. Qed.

(** The second alternative of the mantissa wants the letters [or]
    before the point, and [float] then rejects them. *)
Example parse_bare_fraction db :
  parseBetaPeptideSequence db "BA[.5 1 1]"
  = Raise (ValueError "Invalid amino-acid designation: BA[.5 1 1]")
  ∧ parseBetaPeptideSequence db "BA[or.5 1 1]"
    = Raise (ValueError "could not convert string to float: or.5").
Proof. split; vm_compute; reflexivity. Qed.

(** C5: the four tokens of the specification. Explicit angles are
    parsed to the numbers written; a capping group is a residue without
    dihedrals and rejects a torsion suffix with a [ValueError]; a name in
    braces is resolved from the secondary-structure database. *)
Theorem parse_spec_tokens db :
  SecondaryStructureDB.dihedrals db "H14M"
    = Ok (lit "-140.3", Some (lit "66.5"), lit "-136.8") →
  parseBetaPeptideSequence db "(S)B3hV[-140.3 66.5 -136.8]"
    = Ok [Residue "B3" "G" "" "V" "S"
            (Some [Some (lit "-140.3"); Some (lit "66.5"); Some (lit "-136.8")])]
  ∧ parseBetaPeptideSequence db "ACE" = Ok [Residue "ACE" "" "" "" "" None]
  ∧ parseBetaPeptideSequence db "ACE[10 20]"
    = Raise (ValueError "Residue ACE does not supports custom dihedrals.")
  ∧ parseBetaPeptideSequence db "(2S3R)B23h(2A3L){H14M}"
    = Ok [Residue "B23" "A" "S" "L" "R"
            (Some [Some (lit "-140.3"); Some (lit "66.5"); Some (lit "-136.8")])].
Proof.
  intros Hdb. repeat split; try (vm_compute; reflexivity).
  unfold parseBetaPeptideSequence.
  change (strip <$> split_comma "(2S3R)B23h(2A3L){H14M}")
    with ["(2S3R)B23h(2A3L){H14M}"].
  cbn [parse_all]. unfold parse_aminoacid.
  assert (Hm : re.match_ regex "(2S3R)B23h(2A3L){H14M}"
               = Some [("stereo2", "S"); ("stereo3", "R"); ("sc2", "A");
                       ("sc3", "L"); ("ssname", "H14M")])
    by (vm_compute; reflexivity).
  rewrite Hm. unfold parse_dihedrals.
  cbn [dict_get String.eqb Ascii.eqb Bool.eqb].
  rewrite Hdb. vm_compute. reflexivity.
Qed.

Lemma parse_spec_tokens_witness :
  parseBetaPeptideSequence initial "(2S3R)B23h(2A3L){H14M}"
  = Ok [Residue "B23" "A" "S" "L" "R"
          (Some [Some (lit "-140.3"); Some (lit "66.5"); Some (lit "-136.8")])].
Proof.
  assert (H : SecondaryStructureDB.dihedrals initial "H14M"
              = Ok (lit "-140.3", Some (lit "66.5"), lit "-136.8"))
    by (vm_compute; reflexivity).
  exact (proj2 (proj2 (proj2 (parse_spec_tokens initial H)))).
Defined.


End parser_facts.

(* ------------------------------------------------------------------ *)
(** ** Texts: prefixes, digits, and what a pattern makes of them       *)
(* ------------------------------------------------------------------ *)

Module text_facts.
Import re.
Export text_spec.

Lemma append_cons x (a b : string) : String x a +:+ b = String x (a +:+ b).
Proof. reflexivity. Qed.

Lemma append_nil_l (a : string) : "" +:+ a = a.
Proof. reflexivity. Qed.

Lemma append_assoc (a b c : string) : (a +:+ b) +:+ c = a +:+ (b +:+ c).
Proof. induction a as [|x a IH]; [done|]. rewrite !append_cons. simpl. by rewrite IH. Qed.

Lemma append_nil_r (a : string) : a +:+ "" = a.
Proof. induction a as [|x a IH]; [done|]. rewrite !append_cons. simpl. by rewrite IH. Qed.

Lemma length_append (a b : string) :
  String.length (a +:+ b) = String.length a + String.length b.
Proof. induction a as [|x a IH]; [done|]. rewrite !append_cons. simpl. by rewrite IH. Qed.

Lemma str_drop_app a rest : str_drop (String.length a) (a +:+ rest) = rest.
Proof. induction a as [|x a IH]; [rewrite append_nil_l; by destruct rest|]. by rewrite append_cons. Qed.

Lemma str_take_app a rest : str_take (String.length a) (a +:+ rest) = a.
Proof. induction a as [|x a IH]; [rewrite append_nil_l; by destruct rest|]. rewrite !append_cons. simpl. by rewrite IH. Qed.

Lemma prefix_app l rest : String.prefix l (l +:+ rest) = true.
Proof.
  induction l as [|x l IH]; [rewrite append_nil_l; by destruct rest|].
  rewrite append_cons. simpl. destruct (ascii_dec x x); [done|congruence].
Qed.

Lemma all_chars_app p a b : all_chars p (a +:+ b) = all_chars p a && all_chars p b.
Proof.
  induction a as [|x a IH]; [done|]. rewrite append_cons. simpl.
  by rewrite IH, andb_assoc.
Qed.

Lemma span_len_app p ds rest :
  all_chars p ds = true → stops p rest = true →
  span_len p (ds +:+ rest) = String.length ds.
Proof.
  intros Hds Hrest. induction ds as [|c ds IH].
  - rewrite append_nil_l. destruct rest as [|c rest]; [done|]. simpl in *.
    by apply negb_true_iff in Hrest as ->.
  - rewrite append_cons. simpl in *. apply andb_true_iff in Hds as [-> Hds].
    by rewrite IH.
Qed.

Lemma span_app p ds rest :
  all_chars p ds = true → stops p rest = true → span p (ds +:+ rest) = (ds, rest).
Proof.
  intros Hds Hrest. induction ds as [|c ds IH].
  - rewrite append_nil_l. destruct rest as [|c rest]; [done|]. simpl in *.
    by apply negb_true_iff in Hrest as ->.
  - rewrite append_cons. simpl in *. apply andb_true_iff in Hds as [-> Hds].
    by rewrite IH.
Qed.

Lemma first_Seq r1 r2 s g m1 s1 g1 m2 s2 g2 :
  first_match r1 s g = Some (m1, s1, g1) →
  first_match r2 s1 g1 = Some (m2, s2, g2) →
  first_match (Seq r1 r2) s g = Some (m1 +:+ m2, s2, g2).
Proof.
  unfold first_match. cbn [results].
  destruct (results r1 s g) as [|x l]; [done|]. intros [= ->]. cbn.
  destruct (results r2 s1 g1) as [|y l']; [done|]. by intros [= ->].
Qed.

Lemma first_Seq_as r1 r2 s g m1 s1 g1 m2 s2 g2 m :
  first_match r1 s g = Some (m1, s1, g1) →
  first_match r2 s1 g1 = Some (m2, s2, g2) →
  m = m1 +:+ m2 →
  first_match (Seq r1 r2) s g = Some (m, s2, g2).
Proof. intros H1 H2 ->. by eapply first_Seq. Qed.

Lemma first_Group name r s g m s' g' :
  first_match r s g = Some (m, s', g') →
  first_match (Group name r) s g = Some (m, s', dict_set name m g').
Proof.
  unfold first_match. cbn [results].
  destruct (results r s g) as [|x l]; [done|]. by intros [= ->].
Qed.

Lemma first_Opt_taken r s g y :
  first_match r s g = Some y → first_match (Opt r) s g = Some y.
Proof.
  unfold first_match. cbn [results]. by destruct (results r s g).
Qed.

Lemma first_Opt_skipped r s g :
  results r s g = [] → first_match (Opt r) s g = Some ("", s, g).
Proof. unfold first_match. cbn [results]. by intros ->. Qed.

Lemma first_Alt_l r1 r2 s g y :
  first_match r1 s g = Some y → first_match (Alt r1 r2) s g = Some y.
Proof. unfold first_match. cbn [results]. by destruct (results r1 s g). Qed.

Lemma first_Alt_r r1 r2 s g :
  results r1 s g = [] → first_match (Alt r1 r2) s g = first_match r2 s g.
Proof. unfold first_match. cbn [results]. by intros ->. Qed.

Lemma first_Lit l rest g : first_match (Lit l) (l +:+ rest) g = Some (l, rest, g).
Proof.
  unfold first_match. cbn [results]. by rewrite prefix_app, str_drop_app.
Qed.

Lemma first_Chr p c rest g :
  p c = true → first_match (Chr p) (String c rest) g = Some (String c "", rest, g).
Proof. unfold first_match. cbn [results]. by intros ->. Qed.

Lemma results_Chr_stops p s g : stops p s = true → results (Chr p) s g = [].
Proof.
  destruct s as [|c s]; [done|]. cbn. by intros ->%negb_true_iff.
Qed.

Lemma results_Seq_nil r1 r2 s g : results r1 s g = [] → results (Seq r1 r2) s g = [].
Proof. cbn [results]. by intros ->. Qed.

Lemma head_rev_seq (lo n : nat) :
  (lo ≤ n)%nat → head (rev (seq lo (S n - lo))) = Some n.
Proof.
  intros Hle. replace (S n - lo)%nat with (S (n - lo)) by lia.
  rewrite seq_S, rev_app_distr. cbn. f_equal. lia.
Qed.

(** Greedy repetition takes the whole run of the class. *)
Lemma first_Rep p lo hi ds rest g :
  all_chars p ds = true → stops p rest = true →
  (lo ≤ String.length ds)%nat →
  match hi with Some h => (String.length ds ≤ h)%nat | None => True end →
  first_match (Rep p lo hi) (ds +:+ rest) g = Some (ds, rest, g).
Proof.
  intros Hds Hrest Hlo Hhi. unfold first_match. cbn [results].
  rewrite span_len_app by done.
  set (n := match hi with Some h => String.length ds `min` h | None => String.length ds end).
  assert (n = String.length ds) as ->.
  { unfold n. destruct hi; [|done]. lia. }
  pose proof (head_rev_seq lo (String.length ds) Hlo) as Hhead.
  destruct (rev (seq lo (S (String.length ds) - lo))) as [|k l]; [done|].
  injection Hhead as ->. cbn. by rewrite str_take_app, str_drop_app.
Qed.

(** *** Decimal digits *)

Lemma digit_char_is_digit d : (d < 10)%N → is_digit (digit_char d) = true.
Proof.
  intros Hd. assert (Hc : d ∈ [0; 1; 2; 3; 4; 5; 6; 7; 8; 9]%N).
  { rewrite list_elem_of_In. simpl. lia. }
  rewrite !elem_of_cons, elem_of_nil in Hc. by destruct_or!; subst.
Qed.

Lemma digit_val_char d : (d < 10)%N → digit_val (digit_char d) = d.
Proof.
  intros Hd. unfold digit_val, digit_char.
  rewrite N_ascii_embedding by lia. lia.
Qed.

Lemma pad_digits_acc w n acc : pad_digits w n acc = pad_digits w n "" +:+ acc.
Proof.
  revert n acc. induction w as [|w IH]; intros n acc; [done|]. cbn [pad_digits].
  rewrite (IH _ (String _ acc)), (IH _ (String _ "")).
  by rewrite append_assoc.
Qed.

Lemma pad_digits_length w n : String.length (pad_digits w n "") = w.
Proof.
  revert n. induction w as [|w IH]; intros n; [done|]. cbn [pad_digits].
  rewrite pad_digits_acc, length_append, IH. simpl. lia.
Qed.

Lemma pad_digits_all w n : all_chars is_digit (pad_digits w n "") = true.
Proof.
  revert n. induction w as [|w IH]; intros n; [done|]. cbn [pad_digits].
  rewrite pad_digits_acc, all_chars_app, IH. cbn [all_chars].
  rewrite digit_char_is_digit; [done|]. apply N.mod_lt. lia.
Qed.

Lemma digits_val_app acc a b :
  digits_val acc (a +:+ b) = digits_val (digits_val acc a) b.
Proof.
  revert acc. induction a as [|c a IH]; intros acc; [done|].
  rewrite append_cons. cbn [digits_val]. apply IH.
Qed.

Lemma digits_val_pad w n acc :
  digits_val acc (pad_digits w n "") = (acc * 10 ^ N.of_nat w + n mod 10 ^ N.of_nat w)%N.
Proof.
  revert n. induction w as [|w IH]; intros n.
  - cbn [pad_digits digits_val]. change (N.of_nat 0) with 0%N.
    rewrite N.pow_0_r, N.mod_1_r. lia.
  - cbn [pad_digits]. rewrite pad_digits_acc, digits_val_app, IH.
    cbn [digits_val]. rewrite digit_val_char by (apply N.mod_lt; lia).
    rewrite Nat2N.inj_succ, N.pow_succ_r'.
    rewrite (N.Div0.mod_mul_r n 10 (10 ^ N.of_nat w)). lia.
Qed.

Lemma ndigits_bound fuel n :
  (n < 2 ^ N.of_nat fuel)%N → (n < 10 ^ N.of_nat (ndigits fuel n))%N.
Proof.
  revert n. induction fuel as [|fuel IH]; intros n Hn.
  - cbn in *. lia.
  - cbn [ndigits]. destruct (N.ltb_spec n 10) as [Hlt|Hge]; [cbn; lia|].
    rewrite Nat2N.inj_succ, N.pow_succ_r' in *.
    assert (Hq : (n / 10 < 2 ^ N.of_nat fuel)%N).
    { apply N.Div0.div_lt_upper_bound. lia. }
    specialize (IH _ Hq).
    pose proof (N.Div0.div_mod n 10) as Hdm.
    pose proof (N.mod_lt n 10 ltac:(lia)). lia.
Qed.

Lemma ndigits_pos fuel n : (1 ≤ ndigits fuel n)%nat.
Proof. destruct fuel; cbn; [lia|]. destruct (n <? 10)%N; lia. Qed.

Lemma size_nat_bound n : (n < 2 ^ N.of_nat (N.size_nat n))%N.
Proof.
  destruct n as [|p]; [cbn; lia|]. cbn [N.size_nat].
  induction p as [p IH|p IH|]; cbn [Pos.size_nat];
    rewrite ?Nat2N.inj_succ, ?N.pow_succ_r'; cbn in *; lia.
Qed.

Lemma str_N_all n : all_chars is_digit (str_N n) = true.
Proof. apply pad_digits_all. Qed.

Lemma str_N_length n : (1 ≤ String.length (str_N n))%nat.
Proof. unfold str_N. rewrite pad_digits_length. apply ndigits_pos. Qed.

Lemma digits_val_str_N n : digits_val 0 (str_N n) = n.
Proof.
  unfold str_N. rewrite digits_val_pad, N.mod_small; [lia|].
  apply ndigits_bound, size_nat_bound.
Qed.

(** *** Numbers and their decimal notation *)

Lemma round_half_even_int q z : q == inject_Z z → round_half_even q = z.
Proof.
  intros Hq. unfold round_half_even.
  rewrite (Qfloor_comp _ _ Hq), Qfloor_Z. unfold Qltb.
  destruct (Qle_bool (1 # 2) (q - inject_Z z)) eqn:E; [|done].
  apply Qle_bool_iff in E. rewrite Hq in E.
  assert (H0 : inject_Z z - inject_Z z == 0) by ring.
  rewrite H0 in E. by compute in E.
Qed.

Lemma Qltb_Qred_0 k d : Qltb (Qred (k # d)) 0 = (k <? 0)%Z.
Proof.
  unfold Qltb. destruct (Qle_bool 0 (Qred (k # d))) eqn:E.
  - apply Qle_bool_iff in E. rewrite Qred_correct in E.
    unfold Qle in E. simpl in E. symmetry. apply Z.ltb_ge. lia.
  - symmetry. apply Z.ltb_lt. destruct (Z.ltb_spec k 0) as [|Hk]; [done|].
    assert (Hle : (0 <= Qred (k # d))%Q).
    { rewrite Qred_correct. unfold Qle. simpl. lia. }
    apply Qle_bool_iff in Hle. congruence.
Qed.

(** What [float] makes of a sign, digits, a point and digits. *)
Lemma float_decimal (neg : bool) ip fp :
  all_chars is_digit ip = true → (1 ≤ String.length ip)%nat →
  all_chars is_digit fp = true →
  float ((if neg then "-" else "") +:+ ip +:+ "." +:+ fp)
  = Ok (Qred (scale10 (let m := Z.of_N (digits_val 0 (ip +:+ fp)) in
                       if neg then (- m)%Z else m)
                      (0 - Z.of_nat (String.length fp)))).
Proof.
  intros Hip Hlen Hfp. unfold float.
  assert (Hsign :
    match (if neg then "-" else "") +:+ ip +:+ "." +:+ fp with
    | String c t =>
        if Ascii.eqb c "-" then (true, t)
        else if Ascii.eqb c "+" then (false, t)
        else (false, (if neg then "-" else "") +:+ ip +:+ "." +:+ fp)
    | "" => (false, (if neg then "-" else "") +:+ ip +:+ "." +:+ fp)
    end = (neg, ip +:+ "." +:+ fp)).
  { destruct neg; [done|]. rewrite append_nil_l.
    destruct ip as [|c ip]; [simpl in Hlen; lia|]. rewrite append_cons.
    cbn [all_chars] in Hip. apply andb_true_iff in Hip as [Hc _].
    destruct (Ascii.eqb_spec c "-") as [->|_]; [done|].
    by destruct (Ascii.eqb_spec c "+") as [->|_]. }
  rewrite Hsign. rewrite span_app by done.
  rewrite append_cons, append_nil_l. cbn [Ascii.eqb Bool.eqb].
  cbn beta iota.
  assert (Hspan : span is_digit fp = (fp, "")).
  { rewrite <- (append_nil_r fp) at 1. by apply span_app. }
  rewrite Hspan.
  destruct (Nat.eqb_spec (String.length ip + String.length fp) 0) as [H0|_]; [lia|].
  done.
Qed.

Lemma float_format_f q : six_decimals q → float (format_f q) = Ok q.
Proof.
  intros [k ->]. unfold format_f.
  assert (Hr : round_half_even (Qabs (Qred (k # 1000000)) * inject_Z 1000000)
               = Z.abs k).
  { apply round_half_even_int. rewrite Qred_correct.
    unfold Qabs, Qmult, Qeq, inject_Z. cbn [Qnum Qden]. lia. }
  rewrite Hr, Qltb_Qred_0. set (n := Z.to_N (Z.abs k)).
  rewrite float_decimal;
    [|apply str_N_all|apply str_N_length|apply pad_digits_all].
  rewrite digits_val_app, digits_val_str_N, digits_val_pad, pad_digits_length.
  f_equal. f_equal. unfold scale10. cbn [Z.leb Z.compare Z.sub Z.add Z.of_nat Nat.add
    Z.opp Pos.of_succ_nat Pos.succ Z.pos_sub]. 
  change (N.of_nat 6) with 6%N.
  assert (Hn : (n / 1000000 * 10 ^ 6 + (n mod 1000000) mod 10 ^ 6 = n)%N).
  { change (10 ^ 6)%N with 1000000%N. rewrite N.Div0.mod_mod.
    pose proof (N.Div0.div_mod n 1000000). lia. }
  rewrite Hn. unfold n. rewrite Z2N.id by lia.
  change (Z.to_pos (10 ^ 6)) with 1000000%positive.
  destruct (Z.ltb_spec k 0); f_equal; lia.
Qed.

(** *** The pattern of a number, on a decimal notation *)

Lemma digit_not_space c : is_digit c = true → is_space c = false.
Proof.
  unfold is_digit, is_space, ascii_in. intros H.
  apply andb_true_iff in H as [H1 H2]. apply N.leb_le in H1, H2.
  apply orb_false_iff. split; apply andb_false_iff.
  - right. apply N.leb_gt. lia.
  - right. apply N.leb_gt. lia.
Qed.

Lemma digit_not_sign c : is_digit c = true → re.one_of "+-" c = false.
Proof.
  unfold is_digit, ascii_in. intros H.
  apply andb_true_iff in H as [H1 H2]. apply N.leb_le in H1, H2.
  unfold re.one_of. cbn [list_ascii_of_string existsb].
  destruct (Ascii.eqb_spec c "+") as [->|_]; [cbn in *; lia|].
  destruct (Ascii.eqb_spec c "-") as [->|_]; [cbn in *; lia|]. done.
Qed.

Lemma stops_digits p ip rest :
  (∀ c, is_digit c = true → p c = false) →
  all_chars is_digit ip = true → (1 ≤ String.length ip)%nat →
  stops p (ip +:+ rest) = true.
Proof.
  intros Hp Hip Hlen. destruct ip as [|c ip]; [simpl in Hlen; lia|].
  rewrite append_cons. cbn [stops all_chars] in *.
  apply andb_true_iff in Hip as [Hc _]. by rewrite (Hp _ Hc).
Qed.

Lemma first_float_decimal (neg : bool) ip fp rest g :
  all_chars is_digit ip = true → (1 ≤ String.length ip)%nat →
  all_chars is_digit fp = true →
  stops is_digit rest = true → stops (re.one_of "eE") rest = true →
  first_match BetaPeptide.float_regex
    (((if neg then "-" else "") +:+ ip +:+ "." +:+ fp) +:+ rest) g
  = Some ((if neg then "-" else "") +:+ ip +:+ "." +:+ fp, rest, g).
Proof.
  intros Hip Hlen Hfp Hrest He.
  rewrite !append_assoc.
  unfold BetaPeptide.float_regex. cbn [seq_of].
  apply (first_Seq_as _ _ _ _ (if neg then "-" else "")
           (ip +:+ "." +:+ fp +:+ rest) g (ip +:+ "." +:+ fp) rest g).
  - destruct neg.
    + apply first_Opt_taken.
      apply (first_Seq _ _ _ _ "-" (ip +:+ "." +:+ fp +:+ rest) g
               "" (ip +:+ "." +:+ fp +:+ rest) g).
      * by apply first_Chr.
      * apply (first_Rep is_space 0 None ""); [done| |simpl; lia|done].
        apply stops_digits; [apply digit_not_space|done..].
    + apply first_Opt_skipped, results_Seq_nil, results_Chr_stops.
      apply stops_digits; [apply digit_not_sign|done..].
  - apply (first_Seq_as _ _ _ _ (ip +:+ "." +:+ fp) rest g "" rest g).
    + apply first_Alt_l.
      apply (first_Seq _ _ _ _ ip ("." +:+ fp +:+ rest) g ("." +:+ fp) rest g).
      * apply first_Rep; [done|done|done|done].
      * apply first_Opt_taken.
        apply (first_Seq _ _ _ _ "." (fp +:+ rest) g fp rest g).
        -- apply first_Lit.
        -- apply first_Rep; [done|done|simpl; lia|done].
    + apply first_Opt_skipped, results_Seq_nil, results_Chr_stops. done.
    + by rewrite append_nil_r.
  - done.
Qed.

(** [format_f] writes a sign, digits, a point and six digits. *)
Lemma first_float_format_f q rest g :
  stops is_digit rest = true → stops (re.one_of "eE") rest = true →
  first_match BetaPeptide.float_regex (format_f q +:+ rest) g
  = Some (format_f q, rest, g).
Proof.
  intros Hrest He. unfold format_f.
  apply first_float_decimal;
    [apply str_N_all|apply str_N_length|apply pad_digits_all|done..].
Qed.

(** *** Commas and surrounding blanks *)

Lemma all_chars_impl (p q : ascii → bool) s :
  (∀ c, p c = true → q c = true) → all_chars p s = true → all_chars q s = true.
Proof.
  intros Hpq. induction s as [|c s IH]; [done|]. cbn [all_chars].
  intros [Hc Hs]%andb_true_iff. by rewrite (Hpq _ Hc), IH.
Qed.

Lemma split_comma_go_plain s cur :
  all_chars no_comma s = true → split_comma_go s cur = [str_rev_onto cur s].
Proof.
  revert cur. induction s as [|c s IH]; intros cur; [done|].
  cbn [all_chars split_comma_go]. intros [Hc Hs]%andb_true_iff.
  unfold no_comma in Hc. apply negb_true_iff in Hc. rewrite Hc. by rewrite IH.
Qed.

Lemma split_comma_plain s : all_chars no_comma s = true → split_comma s = [s].
Proof. apply split_comma_go_plain. Qed.

Lemma str_rev_onto_twice s a b :
  str_rev_onto (str_rev_onto s a) b = str_rev_onto a (s +:+ b).
Proof.
  revert a b. induction s as [|c s IH]; intros a b; [done|].
  rewrite append_cons. cbn [str_rev_onto]. by rewrite IH.
Qed.

Lemma str_rev_onto_app a b acc :
  str_rev_onto (a +:+ b) acc = str_rev_onto b (str_rev_onto a acc).
Proof.
  revert acc. induction a as [|c a IH]; intros acc; [done|].
  rewrite append_cons. cbn [str_rev_onto]. by rewrite IH.
Qed.

Lemma lstrip_solid s : starts solid s = true → lstrip s = s.
Proof.
  destruct s as [|c s]; [done|]. cbn [starts lstrip]. unfold solid.
  by intros ->%negb_true_iff.
Qed.

Lemma strip_solid s :
  starts solid s = true → starts solid (str_rev_onto s "") = true → strip s = s.
Proof.
  intros H1 H2. unfold strip. rewrite (lstrip_solid s H1), (lstrip_solid _ H2).
  by rewrite str_rev_onto_twice, append_nil_r.
Qed.

Lemma starts_rev p s acc :
  all_chars p s = true → starts p acc = true ∨ (1 ≤ String.length s)%nat →
  starts p (str_rev_onto s acc) = true.
Proof.
  revert acc. induction s as [|c s IH]; intros acc Hs Hacc.
  - destruct Hacc as [|Hlen]; [done|]. simpl in Hlen. lia.
  - cbn [all_chars] in Hs. apply andb_true_iff in Hs as [Hc Hs].
    cbn [str_rev_onto]. apply IH; [done|]. by left.
Qed.

(** *** The notation of a number, as the grammar and [float] see it *)

Lemma digit_no_comma c : is_digit c = true → no_comma c = true.
Proof.
  unfold is_digit, ascii_in, no_comma. intros H.
  apply andb_true_iff in H as [H1 H2]. apply N.leb_le in H1, H2.
  by destruct (Ascii.eqb_spec c ",") as [->|_]; [cbn in *; lia|].
Qed.

Lemma format_f_text q : six_decimals q → number_text (format_f q) q.
Proof.
  intros Hq. split.
  - by apply float_format_f.
  - intros rest g. apply first_float_format_f.
  - intros rest. unfold format_f. rewrite !append_assoc.
    destruct (Qltb q 0); [done|]. rewrite append_nil_l.
    pose proof (str_N_all (Z.to_N (round_half_even (Qabs q * inject_Z 1000000))
                           / 1000000)) as Hall.
    pose proof (str_N_length (Z.to_N (round_half_even (Qabs q * inject_Z 1000000))
                              / 1000000)) as Hlen.
    destruct (str_N _) as [|c ip]; [simpl in Hlen; lia|].
    rewrite append_cons. cbn [starts all_chars] in *.
    apply andb_true_iff in Hall as [Hc _]. unfold solid.
    by rewrite (digit_not_space _ Hc).
  - unfold format_f. rewrite !all_chars_app.
    rewrite (all_chars_impl _ _ _ digit_no_comma (str_N_all _)).
    rewrite (all_chars_impl _ _ _ digit_no_comma (pad_digits_all _ _)).
    by destruct (Qltb q 0).
Qed.

(** *** Where the first match leads *)

Lemma to_Seq r1 r2 s g s1 g1 s2 g2 :
  first_to r1 s g s1 g1 → first_to r2 s1 g1 s2 g2 →
  first_to (Seq r1 r2) s g s2 g2.
Proof. intros [m1 H1] [m2 H2]. eexists. by eapply first_Seq. Qed.

Lemma to_Group name r s g m s' g' :
  first_match r s g = Some (m, s', g') →
  first_to (Group name r) s g s' (dict_set name m g').
Proof. intros H. eexists. by apply first_Group. Qed.

Lemma to_Lit_app l rest g : first_to (Lit l) (l +:+ rest) g rest g.
Proof. eexists. by apply first_Lit. Qed.

Lemma to_Rep p lo hi ds rest g :
  all_chars p ds = true → stops p rest = true →
  (lo ≤ String.length ds)%nat →
  match hi with Some h => (String.length ds ≤ h)%nat | None => True end →
  first_to (Rep p lo hi) (ds +:+ rest) g rest g.
Proof. intros. eexists. by apply first_Rep. Qed.

Lemma to_Rep_none p hi rest g :
  stops p rest = true → first_to (Rep p 0 hi) rest g rest g.
Proof.
  intros H. exists "". apply (first_Rep p 0 hi "" rest g); [done|done|simpl; lia|].
  destruct hi; [simpl; lia|done].
Qed.

Lemma to_Opt_taken r s g s' g' : first_to r s g s' g' → first_to (Opt r) s g s' g'.
Proof. intros [m H]. exists m. by apply first_Opt_taken. Qed.

Lemma to_Opt_skipped r s g : results r s g = [] → first_to (Opt r) s g s g.
Proof. intros H. eexists. by apply first_Opt_skipped. Qed.

Lemma to_Alt_l r1 r2 s g s' g' : first_to r1 s g s' g' → first_to (Alt r1 r2) s g s' g'.
Proof. intros [m H]. exists m. by apply first_Alt_l. Qed.

Lemma to_Alt_r r1 r2 s g s' g' :
  results r1 s g = [] → first_to r2 s g s' g' → first_to (Alt r1 r2) s g s' g'.
Proof. intros H0 [m H]. exists m. by rewrite first_Alt_r. Qed.

Lemma to_Eol g : first_to Eol "" g "" g.
Proof. by exists "". Qed.

Lemma match_to r s s' g' : first_to r s [] s' g' → match_ r s = Some g'.
Proof. intros [m H]. unfold match_. unfold first_match in H. by rewrite H. Qed.

Lemma dict_get_set {V} k k' (v : V) d :
  dict_get k (dict_set k' v d) = if String.eqb k' k then Some v else dict_get k d.
Proof.
  induction d as [|[k0 v0] d IH]; [done|]. cbn [dict_set].
  destruct (String.eqb_spec k0 k') as [->|Hne]; cbn [dict_get]; [by destruct (String.eqb k' k)|].
  rewrite IH. destruct (String.eqb_spec k0 k) as [->|]; [|done].
  by destruct (String.eqb_spec k' k).
Qed.

(** *** The torsion suffix a residue is rendered with *)

Lemma dih_text_upper d txt upd : dih_text d txt upd → stops is_upper txt = true.
Proof. by destruct 1. Qed.

Lemma dih_text_plain d txt upd : dih_text d txt upd → all_chars no_comma txt = true.
Proof.
  destruct 1 as [|fa a fb b [_ _ _ Ha] [_ _ _ Hb]
                 |fa a fb b fc c [_ _ _ Ha] [_ _ _ Hb] [_ _ _ Hc]]; [done|..];
    rewrite !all_chars_app, Ha, Hb, ?Hc; done.
Qed.

Lemma solid_stops_space s : starts solid s = true → stops is_space s = true.
Proof. by destruct s. Qed.

Lemma dih_text_to d txt upd g :
  dih_text d txt upd →
  first_to (Seq (star is_space) (Seq (Opt BetaPeptide.torsion_regex) Eol))
    txt g "" (upd g).
Proof.
  destruct 1 as [|fa a fb b Ha Hb|fa a fb b fc c Ha Hb Hc].
  - eapply to_Seq; [by apply to_Rep_none|].
    eapply to_Seq; [apply to_Opt_skipped; vm_compute; reflexivity|apply to_Eol].
  - eapply to_Seq; [by apply to_Rep_none|].
    eapply to_Seq; [|apply to_Eol]. apply to_Opt_taken, to_Alt_l.
    unfold BetaPeptide.torsion_regex. cbn [seq_of].
    eapply to_Seq; [apply to_Lit_app|].
    eapply to_Seq; [apply to_Rep_none, solid_stops_space, Ha|].
    eapply to_Seq; [apply to_Group, Ha; done|].
    eapply to_Seq; [by apply (to_Rep is_space 1 None " ");
                    [done|apply solid_stops_space, Hb|simpl; lia|done]|].
    eapply to_Seq; [apply to_Group, Hb; done|].
    eapply to_Seq; [apply to_Opt_skipped; vm_compute; reflexivity|].
    eapply to_Seq; [by apply to_Rep_none|].
    apply (to_Lit_app "]" "").
  - eapply to_Seq; [by apply to_Rep_none|].
    eapply to_Seq; [|apply to_Eol]. apply to_Opt_taken, to_Alt_l.
    unfold BetaPeptide.torsion_regex. cbn [seq_of].
    eapply to_Seq; [apply to_Lit_app|].
    eapply to_Seq; [apply to_Rep_none, solid_stops_space, Ha|].
    eapply to_Seq; [apply to_Group, Ha; done|].
    eapply to_Seq; [by apply (to_Rep is_space 1 None " ");
                    [done|apply solid_stops_space, Hb|simpl; lia|done]|].
    eapply to_Seq; [apply to_Group, Hb; done|].
    eapply to_Seq.
    { apply to_Opt_taken. eapply to_Seq.
      - by apply (to_Rep is_space 1 None " ");
          [done|apply solid_stops_space, Hc|simpl; lia|done].
      - apply to_Group, Hc; done. }
    eapply to_Seq; [by apply to_Rep_none|].
    apply (to_Lit_app "]" "").
Qed.

Lemma dih_text_parse db d txt upd g :
  dih_text d txt upd →
  dict_get "phi" g = None → dict_get "theta" g = None →
  dict_get "psi" g = None → dict_get "ssname" g = None →
  BetaPeptide.parse_dihedrals db (upd g) = Ok d.
Proof.
  destruct 1 as [|fa a fb b [Ha _ _ _] [Hb _ _ _]
                 |fa a fb b fc c [Ha _ _ _] [Hb _ _ _] [Hc _ _ _]];
    intros H1 H2 H3 H4; unfold BetaPeptide.parse_dihedrals;
    rewrite ?dict_get_set; cbn [String.eqb Ascii.eqb Bool.eqb id];
    rewrite ?H1, ?H2, ?H3, ?H4, ?Ha, ?Hb, ?Hc; done.
Qed.

Lemma token_no_comma c : token_char c = true → no_comma c = true.
Proof. by intros [? _]%andb_true_iff. Qed.

Lemma token_solid c : token_char c = true → solid c = true.
Proof. by intros [_ ?]%andb_true_iff. Qed.

Lemma dih_text_rev d txt upd acc :
  dih_text d txt upd → starts solid acc = true →
  starts solid (str_rev_onto txt acc) = true.
Proof. destruct 1; [done|..]; intros _; by rewrite !str_rev_onto_app. Qed.

(** A token made of a residue designation [P] and a torsion suffix:
    [split] and [strip] leave it alone, and the pattern reads the
    designation, then the suffix. *)
Lemma parse_token db P d txt upd G0 r :
  all_chars token_char P = true → (1 ≤ String.length P)%nat →
  dih_text d txt upd →
  first_to BetaPeptide.residue_regex (P +:+ txt) [] txt G0 →
  dict_get "phi" G0 = None → dict_get "theta" G0 = None →
  dict_get "psi" G0 = None → dict_get "ssname" G0 = None →
  BetaPeptide.residue_of (P +:+ txt) (upd G0) d = Ok r →
  BetaPeptide.parseBetaPeptideSequence db (P +:+ txt) = Ok [r].
Proof.
  intros HP Hlen Hd Hres H1 H2 H3 H4 Hr.
  unfold BetaPeptide.parseBetaPeptideSequence.
  rewrite split_comma_plain.
  2:{ rewrite all_chars_app, (dih_text_plain _ _ _ Hd).
      by rewrite (all_chars_impl _ _ _ token_no_comma HP). }
  cbn [fmap list_fmap]. rewrite strip_solid.
  - cbn [BetaPeptide.parse_all]. unfold BetaPeptide.parse_aminoacid.
    rewrite (match_to BetaPeptide.regex _ "" (upd G0)).
    + rewrite (dih_text_parse db d txt upd G0) by done. cbn [rbind]. by rewrite Hr.
    + unfold BetaPeptide.regex. cbn [seq_of].
      eapply to_Seq; [exact Hres|]. by apply (dih_text_to d).
  - destruct P as [|c P]; [simpl in Hlen; lia|]. rewrite append_cons.
    cbn [starts all_chars] in *. apply andb_true_iff in HP as [Hc _].
    by apply token_solid.
  - rewrite str_rev_onto_app. eapply dih_text_rev; [done|].
    apply starts_rev; [|by right]. by apply (all_chars_impl _ _ _ token_solid).
Qed.

(** *** Side-chain codes *)

Lemma known_sidechain_upper sc :
  AminoAcidResidue.known_sidechain sc = true → upper_code sc = true.
Proof.
  unfold AminoAcidResidue.known_sidechain, in_list.
  intros (k & Hin & ->%String.eqb_eq)%existsb_exists.
  assert (Hall : forallb upper_code (dict_keys BetaPeptide.SIDECHAINS) = true)
    by (vm_compute; reflexivity).
  by apply (proj1 (forallb_forall _ _) Hall).
Qed.

Lemma upper_token c : is_upper c = true → token_char c = true.
Proof.
  unfold is_upper, ascii_in, token_char, no_comma, solid, is_space, ascii_in.
  intros [H1 H2]%andb_true_iff. apply N.leb_le in H1, H2.
  apply andb_true_iff. split.
  - by destruct (Ascii.eqb_spec c ",") as [->|_]; [cbn in *; lia|].
  - apply negb_true_iff, orb_false_iff. split; apply andb_false_iff.
    + right. apply N.leb_gt. lia.
    + right. apply N.leb_gt. lia.
Qed.

Lemma upper_code_spec sc :
  upper_code sc = true →
  all_chars is_upper sc = true ∧ all_chars token_char sc = true
  ∧ (1 ≤ String.length sc)%nat ∧ (String.length sc ≤ 2)%nat.
Proof.
  unfold upper_code. intros [[H1 H2]%andb_true_iff H3]%andb_true_iff.
  apply Nat.leb_le in H2, H3. split_and!; [done| |done..].
  by apply (all_chars_impl _ _ _ upper_token).
Qed.

Lemma in_list_cases x l : in_list x l = true → x ∈ l.
Proof.
  unfold in_list. intros (k & Hin & ->%String.eqb_eq)%existsb_exists.
  by apply list_elem_of_In.
Qed.

(** *** What the constructor checks *)

Import AminoAcidResidue.

Lemma init_accepts db k s2 sc2 s3 sc3 d :
  is_ok (__init__ db k s2 sc2 s3 sc3
           (match d with Some l => DihSeq l | None => DihNone end)) = true →
  in_list k ["ACE"; "NME"; "BUT"] = false →
  (in_list k ["A"] = true → in_list s2 ["R"; "S"; "D"; "L"] = true)
  ∧ (in_list k ["B2"; "B23"; "ACPC"; "ACHC"] = true → in_list s2 ["R"; "S"] = true)
  ∧ (in_list k ["B3"; "B23"; "ACPC"; "ACHC"] = true → in_list s3 ["R"; "S"] = true)
  ∧ (in_list k ["B2"; "B23"; "A"] = true → known_sidechain sc2 = true)
  ∧ (in_list k ["B3"; "B23"] = true → known_sidechain sc3 = true)
  ∧ (in_list k ["B2"; "B23"; "B3"; "BA"; "ACPC"; "ACHC"] = true
     → BetaPeptide.wrong_count d 3 = false)
  ∧ (in_list k ["A"] = true → BetaPeptide.wrong_count d 2 = false)
  ∧ __init__ db k s2 sc2 s3 sc3
      (match d with Some l => DihSeq l | None => DihNone end)
    = Ok (Make k s2 s3 sc3 sc2 d).
Proof.
  unfold __init__. intros Hok Hcap.
  assert (Hd : match match d with Some l => DihSeq l | None => DihNone end with
               | DihName name =>
                   rbind (SecondaryStructureDB.dihedrals db name) (λ v,
                     Ok (Some (Some <$> omap id (BetaPeptide.tuple_to_list v))))
               | DihSeq l => Ok (Some l)
               | DihNone => Ok None
               end = Ok d) by by destruct d.
  rewrite Hd in *. cbn [rbind] in *. rewrite Hcap in *.
  destruct (negb (in_list k KINDS)); [done|].
  destruct (negb (in_list s2 ["R"; "S"; "D"; "L"]) && in_list k ["A"]) eqn:E1; [done|].
  destruct (negb (in_list s2 ["R"; "S"]) && in_list k ["B2"; "B23"; "ACPC"; "ACHC"])
    eqn:E2; [done|].
  destruct (negb (in_list s3 ["R"; "S"]) && in_list k ["B3"; "B23"; "ACPC"; "ACHC"])
    eqn:E3; [done|].
  destruct (negb (known_sidechain sc2) && in_list k ["B2"; "B23"; "A"]) eqn:E4; [done|].
  destruct (negb (known_sidechain sc3) && in_list k ["B3"; "B23"]) eqn:E5; [done|].
  destruct (in_list k ["B2"; "B23"; "B3"; "BA"; "ACPC"; "ACHC"]
            && BetaPeptide.wrong_count d 3) eqn:E6; [done|].
  destruct (in_list k ["A"] && BetaPeptide.wrong_count d 2) eqn:E7; [done|].
  split_and!; try done; intros Hk; rewrite Hk in *;
    rewrite ?andb_true_r in *; cbn [andb] in *; by try apply negb_false_iff.
Qed.

(** *** The angles of an entry and their rendering *)

Lemma dih_text_of d n :
  angles_ok d → BetaPeptide.wrong_count d n = false → n = 2%nat ∨ n = 3%nat →
  ∃ upd, dih_text d (dih_str d) upd.
Proof.
  destruct d as [l|]; [|intros; eexists; constructor].
  cbn [angles_ok BetaPeptide.wrong_count]. intros Hl Hn%negb_false_iff%Nat.eqb_eq Hc.
  destruct l as [|x [|y [|z [|]]]]; simpl in Hn; try lia.
  - apply Forall_cons in Hl as [(a & -> & Ha) Hl].
    apply Forall_cons in Hl as [(b & -> & Hb) _].
    eexists. unfold dih_str. cbn [omap list_omap id fmap list_fmap join_space].
    rewrite !append_assoc. apply dih_two; by apply format_f_text.
  - apply Forall_cons in Hl as [(a & -> & Ha) Hl].
    apply Forall_cons in Hl as [(b & -> & Hb) Hl].
    apply Forall_cons in Hl as [(c & -> & Hc') _].
    eexists. unfold dih_str. cbn [omap list_omap id fmap list_fmap join_space].
    rewrite !append_assoc. apply dih_three; by apply format_f_text.
Qed.

End text_facts.

(* ------------------------------------------------------------------ *)
(** ** Rendering a parsed entry and parsing it again                  *)
(* ------------------------------------------------------------------ *)

Module round_trip_facts.
Import re text_facts BetaPeptide SecondaryStructureDB.
Export round_trip_spec.

Lemma residue_of_parsed a m d r : residue_of a m d = Ok r → parsed r.
Proof.
  unfold residue_of, capping.
  repeat lazymatch goal with
         | |- context [if ?c then _ else _] => destruct c eqn:?
         end;
    intros [= <-]; try by constructor.
  all: by destruct d; [|constructor].
Qed.

Lemma parse_all_single db l r :
  parse_all db l = Ok [r] → ∃ a, l = [a] ∧ parse_aminoacid db a = Ok r.
Proof.
  destruct l as [|a [|b l]]; [by intros [=]| |].
  - cbn [parse_all]. destruct (parse_aminoacid db a) as [r'|] eqn:E; [|done].
    intros [= ->]. by exists a.
  - cbn [parse_all]. destruct (parse_aminoacid db a); [|done]. cbn [rbind].
    destruct (parse_aminoacid db b); [|done]. cbn [rbind].
    by destruct (parse_all db l).
Qed.

Lemma parse_single_parsed db T r :
  parseBetaPeptideSequence db T = Ok [r] → parsed r.
Proof.
  intros (a & _ & Ha)%parse_all_single. unfold parse_aminoacid in Ha.
  destruct (match_ regex a) as [m|]; [|done].
  destruct (parse_dihedrals db m) as [d|]; [|done].
  by apply residue_of_parsed in Ha.
Qed.

Ltac text_side := first [assumption | reflexivity | (simpl; lia) | done].

(** One step of the first match of a designation. *)
Ltac to_step :=
  lazymatch goal with
  | |- first_to (Seq _ _) _ _ _ _ => eapply to_Seq; [to_step|to_step]
  | |- first_to (Lit ?l) _ _ _ _ => apply (to_Lit_app l)
  | |- first_to (Group _ (Lit ?l)) _ _ _ _ => eapply to_Group; apply (first_Lit l)
  | |- first_to (Group _ (Chr _)) _ _ _ _ =>
      eapply to_Group; apply first_Chr; reflexivity
  | |- first_to (Group _ (Rep _ _ _)) _ _ _ _ =>
      eapply to_Group; apply first_Rep; text_side
  end.

(** The alternatives that fail on the text at hand, then the one that
    matches. *)
Ltac designation :=
  rewrite ?append_assoc; unfold residue_regex, stereo_RS, sidechain_code;
  cbn [alt_of seq_of];
  repeat (apply to_Alt_r; [vm_compute; reflexivity|]);
  first [to_step | apply to_Alt_l; to_step].

(** Rendering an accepted entry and reading the text again. *)
Lemma reparse db r x P n G0 :
  AminoAcidResidue.of_parsed db r = Ok x →
  AminoAcidResidue.__str__ x true = Ok (P +:+ dih_str (BetaPeptide.dihedrals r)) →
  all_chars token_char P = true → (1 ≤ String.length P)%nat →
  angles_ok (BetaPeptide.dihedrals r) → wrong_count (BetaPeptide.dihedrals r) n = false →
  n = 2%nat ∨ n = 3%nat →
  (∀ txt, stops is_upper txt = true →
          first_to residue_regex (P +:+ txt) [] txt G0) →
  dict_get "phi" G0 = None → dict_get "theta" G0 = None →
  dict_get "psi" G0 = None → dict_get "ssname" G0 = None →
  (∀ a txt upd, dih_text (BetaPeptide.dihedrals r) txt upd →
                residue_of a (upd G0) (BetaPeptide.dihedrals r) = Ok r) →
  ∃ t, AminoAcidResidue.render db r = Ok t
       ∧ parseBetaPeptideSequence db t = Ok [r].
Proof.
  intros Hx Hstr HP Hlen Hang Hwc Hn Hres H1 H2 H3 H4 Hr.
  destruct (dih_text_of _ _ Hang Hwc Hn) as [upd Hd].
  exists (P +:+ dih_str (BetaPeptide.dihedrals r)). split.
  - unfold AminoAcidResidue.render. by rewrite Hx.
  - eapply parse_token; eauto. apply Hres. by eapply dih_text_upper.
Qed.

Ltac reparse_with P n Hinit Hwc :=
  eapply (reparse _ _ _ P n); cbn [BetaPeptide.dihedrals];
  [ exact Hinit
  | rewrite ?append_assoc; reflexivity
  | rewrite ?all_chars_app;
    repeat match goal with
           | H : all_chars token_char _ = true |- _ => rewrite H; clear H
           end; reflexivity
  | rewrite ?length_append; simpl; lia
  | assumption
  | exact Hwc
  | first [by left | by right]
  | intros txt Htxt; designation
  | reflexivity | reflexivity | reflexivity | reflexivity
  | intros a txt upd Hd; inversion Hd; subst; try discriminate Hwc;
    vm_compute; reflexivity ].

Ltac stereo_cases H :=
  apply in_list_cases in H; rewrite !elem_of_cons, elem_of_nil in H;
  destruct_or!; try done; subst.

Ltac code_facts H :=
  apply known_sidechain_upper, upper_code_spec in H as (? & ? & ? & ?).

Section round_trip.
Variable db : state.

Lemma round_trip_bare d :
  is_ok (AminoAcidResidue.of_parsed db (Residue "BA" "G" "" "G" "" d)) = true →
  angles_ok d →
  ∃ t, AminoAcidResidue.render db (Residue "BA" "G" "" "G" "" d) = Ok t
       ∧ parseBetaPeptideSequence db t = Ok [Residue "BA" "G" "" "G" "" d].
Proof.
  intros Hacc Hang.
  destruct (init_accepts db "BA" "" "G" "" "G" d Hacc eq_refl)
    as (_ & _ & _ & _ & _ & Hwc & _ & Hinit).
  specialize (Hwc eq_refl).
  reparse_with "BA" 3%nat Hinit Hwc.
Qed.

Lemma round_trip_alpha sc st d :
  is_ok (AminoAcidResidue.of_parsed db (Residue "A" sc st "" "" d)) = true →
  angles_ok d →
  ∃ t, AminoAcidResidue.render db (Residue "A" sc st "" "" d) = Ok t
       ∧ parseBetaPeptideSequence db t = Ok [Residue "A" sc st "" "" d].
Proof.
  intros Hacc Hang.
  destruct (init_accepts db "A" st sc "" "" d Hacc eq_refl)
    as (Hst & _ & _ & Hsc & _ & _ & Hwc & Hinit).
  specialize (Hst eq_refl). specialize (Hsc eq_refl). specialize (Hwc eq_refl).
  code_facts Hsc. stereo_cases Hst.
  - reparse_with ("(" +:+ "R" +:+ ")" +:+ "A" +:+ sc) 2%nat Hinit Hwc.
  - reparse_with ("(" +:+ "S" +:+ ")" +:+ "A" +:+ sc) 2%nat Hinit Hwc.
  - reparse_with ("(" +:+ "D" +:+ ")" +:+ "A" +:+ sc) 2%nat Hinit Hwc.
  - reparse_with ("(" +:+ "L" +:+ ")" +:+ "A" +:+ sc) 2%nat Hinit Hwc.
Qed.

Lemma round_trip_beta2 sc st d :
  is_ok (AminoAcidResidue.of_parsed db (Residue "B2" sc st "G" "" d)) = true →
  angles_ok d →
  ∃ t, AminoAcidResidue.render db (Residue "B2" sc st "G" "" d) = Ok t
       ∧ parseBetaPeptideSequence db t = Ok [Residue "B2" sc st "G" "" d].
Proof.
  intros Hacc Hang.
  destruct (init_accepts db "B2" st sc "" "G" d Hacc eq_refl)
    as (_ & Hst & _ & Hsc & _ & Hwc & _ & Hinit).
  specialize (Hst eq_refl). specialize (Hsc eq_refl). specialize (Hwc eq_refl).
  code_facts Hsc. stereo_cases Hst.
  - reparse_with ("(" +:+ "R" +:+ ")" +:+ "B" +:+ "2" +:+ "h" +:+ sc) 3%nat Hinit Hwc.
  - reparse_with ("(" +:+ "S" +:+ ")" +:+ "B" +:+ "2" +:+ "h" +:+ sc) 3%nat Hinit Hwc.
Qed.

Lemma round_trip_beta3 sc st d :
  is_ok (AminoAcidResidue.of_parsed db (Residue "B3" "G" "" sc st d)) = true →
  angles_ok d →
  ∃ t, AminoAcidResidue.render db (Residue "B3" "G" "" sc st d) = Ok t
       ∧ parseBetaPeptideSequence db t = Ok [Residue "B3" "G" "" sc st d].
Proof.
  intros Hacc Hang.
  destruct (init_accepts db "B3" "" "G" st sc d Hacc eq_refl)
    as (_ & _ & Hst & _ & Hsc & Hwc & _ & Hinit).
  specialize (Hst eq_refl). specialize (Hsc eq_refl). specialize (Hwc eq_refl).
  code_facts Hsc. stereo_cases Hst.
  - reparse_with ("(" +:+ "R" +:+ ")" +:+ "B" +:+ "3" +:+ "h" +:+ sc) 3%nat Hinit Hwc.
  - reparse_with ("(" +:+ "S" +:+ ")" +:+ "B" +:+ "3" +:+ "h" +:+ sc) 3%nat Hinit Hwc.
Qed.

Lemma round_trip_acpc st2 st3 d :
  is_ok (AminoAcidResidue.of_parsed db (Residue "ACPC" "" st2 "" st3 d)) = true →
  angles_ok d →
  ∃ t, AminoAcidResidue.render db (Residue "ACPC" "" st2 "" st3 d) = Ok t
       ∧ parseBetaPeptideSequence db t = Ok [Residue "ACPC" "" st2 "" st3 d].
Proof.
  intros Hacc Hang.
  destruct (init_accepts db "ACPC" st2 "" st3 "" d Hacc eq_refl)
    as (_ & Hst2 & Hst3 & _ & _ & Hwc & _ & Hinit).
  specialize (Hst2 eq_refl). specialize (Hst3 eq_refl). specialize (Hwc eq_refl).
  stereo_cases Hst2; stereo_cases Hst3.
  - reparse_with ("(2" +:+ "R" +:+ "3" +:+ "R" +:+ ")ACPC") 3%nat Hinit Hwc.
  - reparse_with ("(2" +:+ "R" +:+ "3" +:+ "S" +:+ ")ACPC") 3%nat Hinit Hwc.
  - reparse_with ("(2" +:+ "S" +:+ "3" +:+ "R" +:+ ")ACPC") 3%nat Hinit Hwc.
  - reparse_with ("(2" +:+ "S" +:+ "3" +:+ "S" +:+ ")ACPC") 3%nat Hinit Hwc.
Qed.

Lemma round_trip_achc st2 st3 d :
  is_ok (AminoAcidResidue.of_parsed db (Residue "ACHC" "" st2 "" st3 d)) = true →
  angles_ok d →
  ∃ t, AminoAcidResidue.render db (Residue "ACHC" "" st2 "" st3 d) = Ok t
       ∧ parseBetaPeptideSequence db t = Ok [Residue "ACHC" "" st2 "" st3 d].
Proof.
  intros Hacc Hang.
  destruct (init_accepts db "ACHC" st2 "" st3 "" d Hacc eq_refl)
    as (_ & Hst2 & Hst3 & _ & _ & Hwc & _ & Hinit).
  specialize (Hst2 eq_refl). specialize (Hst3 eq_refl). specialize (Hwc eq_refl).
  stereo_cases Hst2; stereo_cases Hst3.
  - reparse_with ("(2" +:+ "R" +:+ "3" +:+ "R" +:+ ")ACHC") 3%nat Hinit Hwc.
  - reparse_with ("(2" +:+ "R" +:+ "3" +:+ "S" +:+ ")ACHC") 3%nat Hinit Hwc.
  - reparse_with ("(2" +:+ "S" +:+ "3" +:+ "R" +:+ ")ACHC") 3%nat Hinit Hwc.
  - reparse_with ("(2" +:+ "S" +:+ "3" +:+ "S" +:+ ")ACHC") 3%nat Hinit Hwc.
Qed.

Lemma round_trip_beta23 sc2 st2 sc3 st3 d :
  is_ok (AminoAcidResidue.of_parsed db (Residue "B23" sc2 st2 sc3 st3 d)) = true →
  angles_ok d →
  ∃ t, AminoAcidResidue.render db (Residue "B23" sc2 st2 sc3 st3 d) = Ok t
       ∧ parseBetaPeptideSequence db t = Ok [Residue "B23" sc2 st2 sc3 st3 d].
Proof.
  intros Hacc Hang.
  destruct (init_accepts db "B23" st2 sc2 st3 sc3 d Hacc eq_refl)
    as (_ & Hst2 & Hst3 & Hsc2 & Hsc3 & Hwc & _ & Hinit).
  specialize (Hst2 eq_refl). specialize (Hst3 eq_refl).
  specialize (Hsc2 eq_refl). specialize (Hsc3 eq_refl). specialize (Hwc eq_refl).
  code_facts Hsc2. code_facts Hsc3. stereo_cases Hst2; stereo_cases Hst3.
  - reparse_with ("(2" +:+ "R" +:+ "3" +:+ "R" +:+ ")" +:+ "B23h" +:+ "(2"
                  +:+ sc2 +:+ "3" +:+ sc3 +:+ ")") 3%nat Hinit Hwc.
  - reparse_with ("(2" +:+ "R" +:+ "3" +:+ "S" +:+ ")" +:+ "B23h" +:+ "(2"
                  +:+ sc2 +:+ "3" +:+ sc3 +:+ ")") 3%nat Hinit Hwc.
  - reparse_with ("(2" +:+ "S" +:+ "3" +:+ "R" +:+ ")" +:+ "B23h" +:+ "(2"
                  +:+ sc2 +:+ "3" +:+ sc3 +:+ ")") 3%nat Hinit Hwc.
  - reparse_with ("(2" +:+ "S" +:+ "3" +:+ "S" +:+ ")" +:+ "B23h" +:+ "(2"
                  +:+ sc2 +:+ "3" +:+ sc3 +:+ ")") 3%nat Hinit Hwc.
Qed.

End round_trip.



End round_trip_facts.

(* ------------------------------------------------------------------ *)
(** ** Computations: what they return, leave and send                  *)
(* ------------------------------------------------------------------ *)

Section monad_facts.
Context {A B : Type}.

Lemma bind_Ok (m : M A) (k : A → M B) w a w' t :
  m w = (Ok a, w', t) →
  bind m k w = ((k a w').1.1, (k a w').1.2, t ++ (k a w').2).
Proof. unfold bind. intros ->. by destruct (k a w') as [[??]?]. Qed.

Lemma bind_Raise (m : M A) (k : A → M B) w e w' t :
  m w = (Raise e, w', t) → bind m k w = (Raise e, w', t).
Proof. unfold bind. by intros ->. Qed.
End monad_facts.

Module utils_facts.
Import pymol utils.

(** C9: [set_dihedral] counts the atoms of its four selections; unless
    each one holds exactly one atom it returns [False], having sent no
    other command and left the session as it was; otherwise it asks
    PyMOL to set the torsion of the four atoms to the value, unpicks and
    returns [True]. *)
Theorem set_dihedral_spec orc modelname nr1 nr2 nr3 nr4 value w :
  let s1 := atom_selection modelname nr1 in
  let s2 := atom_selection modelname nr2 in
  let s3 := atom_selection modelname nr3 in
  let s4 := atom_selection modelname nr4 in
  let counted := [e_count_atoms s1; e_count_atoms s2; e_count_atoms s3; e_count_atoms s4] in
  if bool_decide (Forall (λ s, count_atoms (objects w) s = 1%nat) [s1; s2; s3; s4])
  then set_dihedral orc modelname nr1 nr2 nr3 nr4 value w
       = (Ok true,
          with_picked (with_objects w (torsion orc (objects w) (s1, s2, s3, s4) value)) None,
          counted ++ [e_set_dihedral s1 s2 s3 s4 value; e_unpick])
  else set_dihedral orc modelname nr1 nr2 nr3 nr4 value w = (Ok false, w, counted).
Proof.
  intros s1 s2 s3 s4 counted. unfold set_dihedral.
  fold s1 s2 s3 s4.
  assert (Hcounts : map_M cmd.count_atoms [s1; s2; s3; s4] w
                    = (Ok (count_atoms (objects w) <$> [s1; s2; s3; s4]), w, counted)).
  { destruct w. reflexivity. }
  case_bool_decide as Hall.
  - erewrite bind_Ok by exact Hcounts.
    assert (Hb : forallb (λ c, c =? 1)%nat (count_atoms (objects w) <$> [s1; s2; s3; s4]) = true).
    { apply forallb_forall. intros c Hc%list_elem_of_In.
      apply list_elem_of_fmap in Hc as (s & -> & Hs).
      rewrite Forall_forall in Hall. apply Nat.eqb_eq. by apply Hall. }
    rewrite Hb. destruct w. reflexivity.
  - erewrite bind_Ok by exact Hcounts.
    assert (Hb : forallb (λ c, c =? 1)%nat (count_atoms (objects w) <$> [s1; s2; s3; s4]) = false).
    { apply not_true_is_false. intros Hb. apply Hall.
      rewrite forallb_forall in Hb. apply Forall_forall. intros s Hs.
      apply Nat.eqb_eq, Hb, list_elem_of_In, list_elem_of_fmap. eauto. }
    rewrite Hb. reflexivity.
Qed.

End utils_facts.

Module safe_pairfit_facts.
Import pymol BetaPeptide.
Export safe_pairfit_spec.

Lemma safe_pairfit_loop_retries orc n selections model1 tol rms0 w :
  retries orc selections model1 tol n rms0
    (safe_pairfit_loop orc n selections model1 tol rms0 w).
Proof.
  revert rms0 w. induction n as [|n IH]; intros rms0 w.
  - exists []. split; [constructor|]. right. simpl.
    by destruct rms0.
  - cbn [safe_pairfit_loop].
    set (rms := fit_rms orc (objects w) selections).
    assert (Hfit : ∃ w1, cmd.pair_fit orc selections w
                         = (Ok rms, w1, [e_pair_fit selections rms])).
    { eexists. unfold cmd.pair_fit, bind, get_world, emit, cmd.update_objects, modify, ret.
      simpl. reflexivity. }
    destruct Hfit as [w1 Hfit].
    erewrite bind_Ok by exact Hfit.
    destruct (Qltb rms tol) eqn:Hlt.
    + exists []. split; [constructor|]. left. exists rms. simpl.
      repeat split; [done|lia].
    + set (ax := axis_char (randint_0_2 orc (draws w1))).
      set (ang := randrange_360 orc (draws w1)).
      match goal with |- retries _ _ _ _ _ _ (?a, ?b, _ ++ (bind _ ?k ?w').2) =>
        set (rest := k) end.
      assert (Hrot : ∃ w2, ∀ X (k : M X),
                 (let* w := get_world in
                  modify (λ w, with_draws w (S (draws w))) >>
                  cmd.rotate orc (axis_char (randint_0_2 orc (draws w)))
                     (randrange_360 orc (draws w)) model1 >> k) w1
                 = ((k w2).1.1, (k w2).1.2, e_rotate ax ang model1 :: (k w2).2)).
      { eexists. intros X k.
        unfold bind, get_world, modify, cmd.rotate, emit, cmd.update_objects, modify.
        simpl. destruct (k _) as [[??]?] eqn:Hk. simpl. rewrite Hk. reflexivity. }
      destruct Hrot as [w2 Hrot]. unfold rest. rewrite Hrot. simpl.
      destruct (IH (Some rms) w2) as (missed & Hmissed & Hout).
      exists ((rms, ax, ang) :: missed). split.
      { constructor; [|done]. split; [done|]. unfold ax.
        destruct (randint_0_2 orc (draws w1)); simpl;
          rewrite list_elem_of_In; simpl; auto. }
      destruct Hout as [(rms' & Hr & Hlt' & Hlen & Ht)|(Hlen & Ht & Hr)].
      * left. exists rms'. simpl. repeat split; [done|done|lia|].
        by rewrite Ht.
      * right. simpl. repeat split; [lia|by rewrite Ht|].
        rewrite Hr. simpl.
        destruct missed as [|x missed]; [reflexivity|].
        rewrite !fmap_cons, last_cons_cons.
        destruct (last (x.1.1 :: missed.*1.*1)) eqn:E; [done|].
        by apply last_None in E.
Qed.


End safe_pairfit_facts.

(* ------------------------------------------------------------------ *)
(** ** Which computations invert, and which always go through         *)
(* ------------------------------------------------------------------ *)

Export trace_spec.

Section trace_facts.
Import pymol.

Lemma bind_trace {A B} (m : M A) (k : A → M B) w :
  (bind m k w).2
  = (m w).2 ++ match (m w).1.1 with
               | Ok a => (k a (m w).1.2).2
               | Raise _ => []
               end.
Proof.
  unfold bind. destruct (m w) as [[[a|e] w'] t]; simpl.
  - by destruct (k a w') as [[??]?].
  - by rewrite app_nil_r.
Qed.

Lemma quiet_bind {A B} (m : M A) (k : A → M B) :
  quiet m → (∀ a, quiet (k a)) → quiet (bind m k).
Proof.
  intros Hm Hk w. rewrite bind_trace. apply not_elem_of_app. split; [apply Hm|].
  destruct (m w).1.1; [apply Hk | apply not_elem_of_nil].
Qed.

Lemma quiet_ret {A} (a : A) : quiet (ret a).
Proof. intros w. apply not_elem_of_nil. Qed.

Lemma quiet_raise {A} e : quiet (raise (A := A) e).
Proof. intros w. apply not_elem_of_nil. Qed.

Lemma quiet_lift {A} (r : result A) : quiet (lift r).
Proof. intros w. apply not_elem_of_nil. Qed.

Lemma quiet_get_world : quiet get_world.
Proof. intros w. apply not_elem_of_nil. Qed.

Lemma quiet_modify f : quiet (modify f).
Proof. intros w. apply not_elem_of_nil. Qed.

Lemma quiet_emit e : e ≠ e_invert → quiet (emit e).
Proof. intros He w Hin. apply list_elem_of_singleton in Hin. congruence. Qed.

Lemma quiet_when b m : quiet m → quiet (BetaPeptide.when b m).
Proof. destruct b; [done|]. intros _. apply quiet_ret. Qed.

Lemma quiet_except {A} (m h : M A) : quiet m → quiet h → quiet (except_CmdException m h).
Proof.
  intros Hm Hh w. unfold except_CmdException.
  specialize (Hm w). destruct (m w) as [[[a|e] w'] t]; [done|].
  destruct e; try done. specialize (Hh w').
  destruct (h w') as [[??]?]. simpl in *. apply not_elem_of_app. done.
Qed.

Lemma succeeds_bind {A B} (m : M A) (k : A → M B) :
  succeeds m → (∀ a, succeeds (k a)) → succeeds (bind m k).
Proof.
  intros Hm Hk w. destruct (Hm w) as (a & w' & t & Hmw).
  destruct (Hk a w') as (b & w'' & t' & Hkw).
  exists b, w'', (t ++ t'). erewrite bind_Ok by exact Hmw. by rewrite Hkw.
Qed.

Lemma succeeds_ret {A} (a : A) : succeeds (ret a).
Proof. intros w. by eexists _, _, _. Qed.

Lemma succeeds_emit e : succeeds (emit e).
Proof. intros w. by eexists _, _, _. Qed.

Lemma succeeds_modify f : succeeds (modify f).
Proof. intros w. by eexists _, _, _. Qed.

Lemma succeeds_when b m : succeeds m → succeeds (BetaPeptide.when b m).
Proof. destruct b; [done|]. intros _. apply succeeds_ret. Qed.

Lemma succeeds_update f : succeeds (cmd.update_objects f).
Proof. apply succeeds_modify. Qed.

Lemma quiet_update f : quiet (cmd.update_objects f).
Proof. apply quiet_modify. Qed.
End trace_facts.

Create HintDb trace.
Global Hint Resolve quiet_ret quiet_raise quiet_lift quiet_get_world quiet_modify
  quiet_update quiet_when quiet_except succeeds_ret succeeds_emit succeeds_modify
  succeeds_update succeeds_when : trace.

Ltac trace_step :=
  first
    [ apply quiet_bind; [|intros ?]
    | apply succeeds_bind; [|intros ?]
    | apply quiet_when
    | apply succeeds_when
    | apply quiet_except
    | apply quiet_emit; discriminate
    | solve [auto with trace] ].

Module residue_facts.
Import pymol BetaPeptide.
Export residue_spec.

Section with_passes.
Variable orc : Oracle.
Variable rename_heavy_atoms rename_hydrogens strip_tags :
  Z → Indexed → result unit * Indexed.

Lemma quiet_fetchModel {A} self (body : Indexed → result A * Indexed) :
  quiet (utils.fetchModel self body).
Proof.
  unfold utils.fetchModel, cmd.get_model, cmd.delete, cmd.load_model.
  repeat trace_step. destruct (body _). repeat trace_step.
Qed.

Lemma quiet_renameAtomsInResidue self residue :
  quiet (renameAtomsInResidue rename_heavy_atoms rename_hydrogens strip_tags
           self residue).
Proof.
  unfold renameAtomsInResidue.
  repeat (apply quiet_bind; [apply quiet_fetchModel | intros ?]).
  apply quiet_fetchModel.
Qed.

Lemma quiet_load_fragment self sidechain : quiet (load_fragment orc self sidechain).
Proof.
  unfold load_fragment, cmd.delete, cmd.fragment, cmd.load, cmd.remove, cmd.alter.
  repeat trace_step;
    destruct (dict_get sidechain SIDECHAINS); repeat trace_step.
  destruct (fragment_library orc _); repeat trace_step.
Qed.

Lemma succeeds_load_fragment self sidechain :
  is_Some (dict_get sidechain SIDECHAINS) → succeeds (load_fragment orc self sidechain).
Proof.
  intros [frag Hfrag].
  unfold load_fragment, cmd.delete, cmd.remove, cmd.alter. rewrite Hfrag.
  repeat trace_step.
  intros w. unfold except_CmdException, cmd.fragment, cmd.load, bind, emit,
    cmd.update_objects, modify, raise.
  destruct (fragment_library orc frag); simpl; by eexists _, _, _.
Qed.

Lemma flips_chirality_iff sidechain stereo :
  flips_chirality sidechain stereo = true ↔ must_invert sidechain stereo.
Proof.
  unfold flips_chirality, must_invert, in_list. simpl.
  destruct (String.eqb_spec sidechain "G"), (String.eqb_spec stereo "D"),
    (String.eqb_spec stereo "R"), (String.eqb_spec stereo "S"),
    (String.eqb_spec sidechain "C"), (String.eqb_spec sidechain "CM");
    subst; simpl; split; try done; try (intuition congruence).
Qed.

(** C8: when an alpha residue is built with a known side-chain code,
    PyMOL is asked to invert (once, after picking CA with its HA and C
    neighbours as the pivot) exactly when the code is not glycine and
    the stereo descriptor is D, or R for a side chain that is not a
    cysteine, or S for one that is; in particular never for L and never
    for glycine. *)
Theorem inversion_iff_rule self sidechain stereo w :
  is_Some (dict_get sidechain SIDECHAINS) →
  let t := (initializeAlphaResidue orc rename_heavy_atoms rename_hydrogens
              strip_tags self sidechain stereo w).2 in
  let pick := e_edit (s_and (s_and (s_model self) (s_resi 1)) (s_name ["CA"]))
                     (s_and (s_and (s_model self) (s_resi 1)) (s_name ["HA"]))
                     (s_and (s_and (s_model self) (s_resi 1)) (s_name ["C"])) in
  (must_invert sidechain stereo →
     ∃ t1 t2, t = t1 ++ [pick; e_invert; e_unpick] ++ t2
              ∧ (e_invert ∉ t1) ∧ (e_invert ∉ t2))
  ∧ (¬ must_invert sidechain stereo → (e_invert ∉ t))
  ∧ (stereo = "L" → (e_invert ∉ t))
  ∧ (sidechain = "G" → (e_invert ∉ t)).
Proof.
  intros Hknown t pick.
  set (suffix := (utils.fetchModel self (λ model, (Ok tt, tag_atoms model)) >>
                  renameAtomsInResidue rename_heavy_atoms rename_hydrogens
                    strip_tags self 1)).
  assert (Hsuffix : quiet suffix).
  { apply quiet_bind; [apply quiet_fetchModel|].
    intros _. apply quiet_renameAtomsInResidue. }
  destruct (succeeds_load_fragment self sidechain Hknown w) as (u & w1 & t1 & Hpre).
  pose proof (quiet_load_fragment self sidechain w) as Hq1. rewrite Hpre in Hq1.
  simpl in Hq1.
  assert (Ht : t = t1 ++ (if flips_chirality sidechain stereo
                          then [pick; e_invert; e_unpick] else [])
                      ++ (suffix (if flips_chirality sidechain stereo
                                  then with_picked (with_objects (with_picked w1 (Some
                                         (s_and (s_and (s_model self) (s_resi 1)) (s_name ["CA"]),
                                          s_and (s_and (s_model self) (s_resi 1)) (s_name ["HA"]),
                                          s_and (s_and (s_model self) (s_resi 1)) (s_name ["C"]))))
                                         (inversion orc (objects w1) (Some
                                         (s_and (s_and (s_model self) (s_resi 1)) (s_name ["CA"]),
                                          s_and (s_and (s_model self) (s_resi 1)) (s_name ["HA"]),
                                          s_and (s_and (s_model self) (s_resi 1)) (s_name ["C"]))))) None
                                  else w1)).2).
  { subst t. unfold initializeAlphaResidue. fold suffix.
    revert Hpre. unfold load_fragment.
    generalize (cmd.delete self) as c1.
    generalize (except_CmdException
      match dict_get sidechain SIDECHAINS with
      | Some frag => cmd.fragment orc frag self
      | None => raise (KeyError sidechain)
      end
      match dict_get sidechain SIDECHAINS with
      | Some frag => cmd.load orc (frag +:+ ".pkl") self
      | None => raise (KeyError sidechain)
      end) as c2.
    generalize (when (sidechain =? "CM")%string
      (cmd.remove (s_and (s_model self) (s_name ["HG"])) >>
       cmd.alter (s_and (s_model self) (s_name ["SG"])) (set_formal_charge (-1)) >>
       cmd.alter (s_and (s_model self) (s_name ["SG"])) (set_partial_charge (-1)) >>
       cmd.alter (s_model self) (set_resn "CYM"))) as c3.
    generalize (cmd.alter (s_model self) (set_resv 1)) as c4.
    generalize (cmd.alter (s_model self) (set_chain "A")) as c5.
    intros c5 c4 c3 c2 c1. unfold bind.
    destruct (c1 w) as [[[?|?] ?] ?]; [|done].
    destruct (c2 _) as [[[?|?] ?] ?]; [|done].
    destruct (c3 _) as [[[?|?] ?] ?]; [|done].
    destruct (c4 _) as [[[?|?] ?] ?]; [|done].
    destruct (c5 _) as [[[?|?] ?] ?] eqn:E5; [|done].
    intros [= -> -> <-].
    destruct (flips_chirality sidechain stereo); simpl.
    - destruct (suffix _) as [[??]?]. simpl. by rewrite <- !app_assoc.
    - destruct (suffix _) as [[??]?]. simpl. by rewrite <- !app_assoc. }
  assert (Hno : ¬ must_invert sidechain stereo → e_invert ∉ t).
  { intros Hn. rewrite Ht.
    destruct (flips_chirality sidechain stereo) eqn:E.
    - by apply flips_chirality_iff in E.
    - rewrite !not_elem_of_app. repeat split; [done|apply not_elem_of_nil|apply Hsuffix]. }
  repeat split.
  - intros Hinv%flips_chirality_iff. rewrite Hinv in Ht.
    eexists t1, _. split; [exact Ht|]. split; [done|apply Hsuffix].
  - done.
  - intros ->. apply Hno. unfold must_invert. intuition congruence.
  - intros ->. apply Hno. unfold must_invert. intuition congruence.
Qed.
End with_passes.

Lemma inversion_iff_rule_witness :
  e_invert ∈ (initializeAlphaResidue example.host example.no_pass example.no_pass
                example.no_pass "ala" "A" "D" example.session).2.
Proof.
  assert (Hknown : is_Some (dict_get "A" SIDECHAINS)) by (by eexists).
  destruct (inversion_iff_rule example.host example.no_pass example.no_pass
              example.no_pass "ala" "A" "D" example.session Hknown) as [Hinv _].
  destruct Hinv as (t1 & t2 & -> & _).
  - split; [discriminate|]. by left.
  - rewrite !elem_of_app. right. left. apply list_elem_of_In. simpl. auto.
Defined.

End residue_facts.

(* ------------------------------------------------------------------ *)
(** ** Selections and models                                           *)
(* ------------------------------------------------------------------ *)

Module pymol_facts.
Import pymol.

Lemma merge_empty_r m : merge m empty_model = m.
Proof. destruct m. unfold merge. simpl. by rewrite !app_nil_r. Qed.

Lemma merge_empty_l m : merge empty_model m = m.
Proof.
  destruct m as [atoms bonds]. unfold merge. simpl. f_equal.
  induction bonds as [|[i j] bonds IH]; [done|].
  rewrite fmap_cons. simpl. f_equal. exact IH.
Qed.

Lemma omap_lookup_seq {A} (pre l : list A) :
  omap (λ i, (pre ++ l) !! i) (seq (length pre) (length l)) = l.
Proof.
  revert pre. induction l as [|x l IH]; intros pre; [done|].
  simpl. rewrite list_lookup_middle by done. f_equal.
  specialize (IH (pre ++ [x])). rewrite <- app_assoc in IH. simpl in IH.
  rewrite length_app in IH. simpl in IH.
  by replace (length pre + 1) with (S (length pre)) in IH by lia.
Qed.

Lemma filter_true_id {A} (p : A → bool) (l : list A) :
  (∀ x, p x = true) → List.filter p l = l.
Proof. intros Hp. induction l as [|x l IH]; simpl; [done|]. by rewrite Hp, IH. Qed.

Lemma filter_false_nil {A} (p : A → bool) (l : list A) :
  (∀ x, p x = false) → List.filter p l = [].
Proof. intros Hp. induction l as [|x l IH]; simpl; [done|]. by rewrite Hp. Qed.

(** The whole of an object is the object. *)
Lemma get_model_in_whole objs X m : get_model_in objs (s_model X) X m = m.
Proof.
  destruct m as [atoms bonds]. unfold get_model_in, selected_in, reindex. simpl.
  rewrite String.eqb_refl. f_equal.
  - rewrite filter_true_id by done. apply (omap_lookup_seq []).
  - assert (Hlen : ∀ i, length (List.filter (λ _ : nat, true) (seq 0 i)) = i).
    { intros i. rewrite filter_true_id by done. apply length_seq. }
    induction bonds as [|[i j] bonds IH]; [done|].
    cbn [omap list_omap andb fst snd]. rewrite !Hlen. f_equal. exact IH.
Qed.

Lemma get_model_in_other objs X o m :
  o ≠ X → get_model_in objs (s_model X) o m = empty_model.
Proof.
  intros Hne. unfold get_model_in, selected_in. simpl.
  assert (String.eqb X o = false) as -> by (apply String.eqb_neq; congruence).
  rewrite filter_false_nil by done. simpl. f_equal.
  induction (bond m) as [|b l IH]; [done|]. simpl. done.
Qed.

Lemma foldr_merge_single (f : string * Indexed → Indexed) X
    (l : list (string * Indexed)) :
  NoDup l.*1 →
  (∀ o m, o ≠ X → f (o, m) = empty_model) →
  foldr (λ om acc, merge (f om) acc) empty_model l
  = match dict_get X l with Some m => f (X, m) | None => empty_model end.
Proof.
  intros Hnd Hf. induction l as [|[o m] l IH]; [done|].
  simpl in *. apply NoDup_cons in Hnd as [Ho Hnd]. rewrite IH by done.
  destruct (String.eqb_spec o X) as [->|Hne].
  - assert (dict_get X l = None) as ->; [|apply merge_empty_r].
    destruct (dict_get X l) eqn:E; [|done].
    exfalso. apply Ho. apply dict_get_elem in E.
    apply list_elem_of_fmap. by exists (X, i).
  - rewrite Hf by done. apply merge_empty_l.
Qed.

Lemma dict_get_map_to_list (objs : gmap string Indexed) X :
  dict_get X (map_to_list objs) = objs !! X.
Proof.
  destruct (objs !! X) as [m|] eqn:E.
  - apply dict_get_Some_elem; [apply NoDup_fst_map_to_list|].
    by apply elem_of_map_to_list.
  - destruct (dict_get X (map_to_list objs)) as [m|] eqn:E'; [|done].
    apply dict_get_elem, elem_of_map_to_list in E'. congruence.
Qed.

(** [get_model('model X')] is the object [X], or nothing. *)
Lemma get_model_model objs X :
  get_model objs (s_model X) = default empty_model (objs !! X).
Proof.
  unfold get_model.
  rewrite (foldr_merge_single (λ om, get_model_in objs (s_model X) om.1 om.2) X).
  - rewrite dict_get_map_to_list. destruct (objs !! X); [|done].
    apply get_model_in_whole.
  - apply NoDup_fst_map_to_list.
  - intros o m Hne. by apply get_model_in_other.
Qed.

(** Putting back an object that was not changed changes nothing. *)
Lemma reload_same (objs : gmap string Indexed) X m :
  objs !! X = Some m → <[X := m]> (delete X objs) = objs.
Proof. intros H. rewrite insert_delete_eq. by apply insert_id. Qed.

End pymol_facts.

(* ------------------------------------------------------------------ *)
(** ** The checks before a fusion                                      *)
(* ------------------------------------------------------------------ *)

Module fusion_facts.
Import pymol utils BetaPeptide pymol_facts.
Export fusion_spec.

(** A block that reads a model leaves the session as it was. *)
Lemma fetchModel_read {A} self (f : Indexed → result A) w m :
  objects w !! self = Some m →
  fetchModel self (λ model, (f model, model)) w = (f m, w, reloaded self m).
Proof.
  intros Hm. unfold fetchModel, cmd.get_model, cmd.delete, cmd.load_model,
    cmd.update_objects, bind, emit, get_world, modify, ret, lift. simpl.
  rewrite get_model_model, Hm. simpl.
  destruct w as [objs ? ? ? ?]. unfold with_objects. simpl in *.
  by rewrite reload_same.
Qed.

Lemma fetchModel_absent {A} self (f : Indexed → result A) w :
  objects w !! self = None →
  (fetchModel self (λ model, (f model, model)) w).1.1 = f empty_model.
Proof.
  intros Hm. unfold fetchModel, cmd.get_model, cmd.delete, cmd.load_model,
    cmd.update_objects, bind, emit, get_world, modify, ret, lift. simpl.
  rewrite get_model_model, Hm. simpl. by destruct (f empty_model).
Qed.

Lemma fetchModel_Ok {A} self (f : Indexed → result A) w a :
  f empty_model ≠ Ok a →
  (fetchModel self (λ model, (f model, model)) w).1.1 = Ok a →
  ∃ m, objects w !! self = Some m ∧ f m = Ok a
       ∧ fetchModel self (λ model, (f model, model)) w = (Ok a, w, reloaded self m).
Proof.
  intros Hempty Hok. destruct (objects w !! self) as [m|] eqn:Hm.
  - exists m. rewrite (fetchModel_read self f w m Hm) in *. simpl in Hok.
    by rewrite Hok.
  - rewrite fetchModel_absent in Hok by done. done.
Qed.

Lemma maxResidue_Ok self w mx :
  (maxResidue self w).1.1 = Ok mx →
  ∃ m, objects w !! self = Some m ∧ max_resi m = Ok mx
       ∧ maxResidue self w = (Ok mx, w, reloaded self m).
Proof. apply fetchModel_Ok. done. Qed.

Lemma isNProtected_run self w :
  isNProtected self w
  = (Ok (0 <? count_atoms (objects w) (sel_isNProtected self))%nat, w,
     [e_count_atoms (sel_isNProtected self)]).
Proof. reflexivity. Qed.

Lemma isCProtected_Ok self w b :
  (isCProtected self w).1.1 = Ok b →
  ∃ m mx, objects w !! self = Some m ∧ max_resi m = Ok mx
          ∧ b = (0 <? count_atoms (objects w) (sel_isCProtected self mx))%nat
          ∧ isCProtected self w
            = (Ok b, w, reloaded self m ++ [e_count_atoms (sel_isCProtected self mx)]).
Proof.
  unfold isCProtected. intros Hb.
  destruct (maxResidue self w) as [[[mx|e] w1] t1] eqn:Hmax.
  - destruct (maxResidue_Ok self w mx) as (m & Hm & Hmx & Hrun);
      [by rewrite Hmax|].
    exists m, mx. rewrite Hrun in Hmax. injection Hmax as <- <-.
    erewrite bind_Ok in Hb |- * by exact Hrun. simpl in Hb. injection Hb as <-.
    done.
  - erewrite bind_Raise in Hb by exact Hmax. done.
Qed.

Lemma startsWithProline_Ok self w b :
  (startsWithProline self w).1.1 = Ok b →
  ∃ m, objects w !! self = Some m
       ∧ startsWithProline self w = (Ok b, w, reloaded self m).
Proof.
  intros Hb. unfold startsWithProline in *.
  edestruct (fetchModel_Ok (A := bool) self) as (m & Hm & _ & Hrun);
    [|exact Hb|]; [done|]. eauto.
Qed.

(** C3: when the carbon end of [left] is capped, and when the nitrogen
    end of [right] is capped and [right] does not start with a proline,
    [left += right] raises a [ValueError]. It has then only counted
    atoms and fetched the two peptides: the session (its objects and
    their geometry, the temporary names) is what it was, and no scratch
    object was loaded or named. *)
Theorem fusion_refused orc fuel self right w :
  ((isCProtected self w).1.1 = Ok true →
     (__iadd__ orc fuel self right w).1
     = (Raise (ValueError "The N-terminal part is C-protected!"), w)
     ∧ Forall harmless (__iadd__ orc fuel self right w).2)
  ∧ ((isCProtected self w).1.1 = Ok false →
     (isNProtected right w).1.1 = Ok true →
     (startsWithProline right w).1.1 = Ok false →
       (__iadd__ orc fuel self right w).1
       = (Raise (ValueError "The C-terminal part is N-protected!"), w)
       ∧ Forall harmless (__iadd__ orc fuel self right w).2).
Proof.
  split.
  - intros Hc. destruct (isCProtected_Ok _ _ _ Hc) as (m & mx & _ & _ & _ & Hrun).
    unfold __iadd__. erewrite bind_Ok by exact Hrun. simpl. split; [done|].
    repeat constructor.
  - intros Hc Hn Hp.
    destruct (isCProtected_Ok _ _ _ Hc) as (m & mx & _ & _ & _ & Hrun).
    destruct (startsWithProline_Ok _ _ _ Hp) as (m' & _ & Hrun').
    rewrite isNProtected_run in Hn. simpl in Hn. injection Hn as Hn.
    unfold __iadd__. erewrite bind_Ok by exact Hrun. cbv beta iota.
    erewrite bind_Ok by apply isNProtected_run. cbv beta iota.
    rewrite Hn.
    erewrite (bind_Ok (bind (startsWithProline right) _)).
    2:{ erewrite bind_Ok by exact Hrun'. simpl. reflexivity. }
    simpl. split; [done|]. repeat constructor.
Qed.

Lemma fusion_refused_witness :
  (__iadd__ example.host 1 "oxt" "right" example.session).1.1
  = Raise (ValueError "The N-terminal part is C-protected!")
  ∧ (__iadd__ example.host 1 "left" "formyl" example.session).1.1
    = Raise (ValueError "The C-terminal part is N-protected!").
Proof.
  split.
  - refine (f_equal fst (proj1 (proj1
      (fusion_refused example.host 1 "oxt" "right" example.session) _))).
    vm_compute. reflexivity.
  - refine (f_equal fst (proj1 (proj2
      (fusion_refused example.host 1 "left" "formyl" example.session) _ _ _)));
      vm_compute; reflexivity.
Defined.

End fusion_facts.

(* ------------------------------------------------------------------ *)
(** ** The consistency check                                           *)
(* ------------------------------------------------------------------ *)

Module checkPeptide_facts.
Import pymol utils BetaPeptide pymol_facts fusion_facts.
Export checkPeptide_spec.

Lemma reads_ret {A} (a : A) : reads (ret a) (λ _, Ok a).
Proof. intros w. by eexists. Qed.

Lemma reads_raise {A} e : reads (raise (A := A) e) (λ _, Raise e).
Proof. intros w. by eexists. Qed.

Lemma reads_bind {A B} (m : M A) (k : A → M B) f g :
  reads m f → (∀ a, reads (k a) (g a)) →
  reads (bind m k) (λ w, rbind (f w) (λ a, g a w)).
Proof.
  intros Hm Hk w. destruct (Hm w) as [t Ht]. unfold bind. rewrite Ht.
  destruct (f w) as [a|e]; cbn [rbind]; [|by eexists].
  destruct (Hk a w) as [t' Ht']. rewrite Ht'. by eexists.
Qed.

Lemma reads_when b m f :
  reads m f → reads (when b m) (λ w, if b then f w else Ok tt).
Proof. destruct b; [done|]. intros _. apply reads_ret. Qed.

Lemma reads_ext {A} (m : M A) f g : reads m f → (∀ w, f w = g w) → reads m g.
Proof. intros Hm Hfg w. destruct (Hm w) as [t Ht]. exists t. by rewrite <- Hfg. Qed.

Lemma reads_count_atoms s :
  reads (cmd.count_atoms s) (λ w, Ok (count_atoms (objects w) s)).
Proof. intros w. by eexists. Qed.

Lemma reads_first_atom s :
  reads (first_atom s)
    (λ w, match atom (get_model (objects w) s) with
          | a :: _ => Ok a
          | [] => Raise (IndexError "list index out of range")
          end).
Proof.
  intros w. unfold first_atom, cmd.get_model, bind, emit, get_world, ret, raise.
  cbn [fst snd]. destruct (atom (get_model (objects w) s)); by eexists.
Qed.

Lemma check_residue_run self maxresidue i :
  reads (check_residue self maxresidue i)
        (λ w, residue_rules (objects w) self maxresidue i).
Proof.
  unfold check_residue.
  eapply reads_ext.
  { eapply reads_bind; [apply reads_first_atom|]. intros a.
    eapply reads_bind.
    { apply reads_when.
      eapply reads_bind; [apply reads_count_atoms|]. intros hcount.
      eapply reads_bind; [apply reads_when, reads_raise|]. intros ?.
      eapply reads_bind; [apply reads_count_atoms|]. intros ccount.
      apply reads_when, reads_raise. }
    intros ?. eapply reads_bind.
    { apply reads_when.
      eapply reads_bind; [apply reads_count_atoms|]. intros ocount.
      eapply reads_bind; [apply reads_when, reads_raise|]. intros ?.
      eapply reads_bind; [apply reads_count_atoms|]. intros ncount.
      apply reads_when, reads_raise. }
    intros ?. eapply reads_bind; [apply reads_count_atoms|]. intros cbcount.
    eapply reads_bind; [apply reads_when, reads_raise|]. intros ?.
    eapply reads_bind; [apply reads_count_atoms|]. intros cacount.
    apply reads_when, reads_raise. }
  intros w. cbv beta.
  unfold residue_rules, resname_of, amide_rules, nitrogen_rule, carbon_rule,
    consistency, in_list.
  destruct (atom (get_model (objects w) (sel_residue self i))) as [|a l]; [done|].
  cbn [rbind existsb].
  destruct ((1 <? i)%Z && negb (String.eqb (resn a) "PRO" || (String.eqb (resn a) "DPRO" || false))).
  - destruct (negb (count_atoms (objects w) (sel_hcount self i) =? 1)%nat); [done|].
    cbn [rbind].
    destruct (negb (count_atoms (objects w) (sel_ccount self i) =? 1)%nat); [done|].
    cbn [rbind].
    destruct (i <? maxresidue)%Z.
    + destruct (negb (count_atoms (objects w) (sel_ocount self i) =? 1)%nat); [done|].
      cbn [rbind].
      destruct (negb (count_atoms (objects w) (sel_ncount self i) =? 1)%nat); [done|].
      cbn [rbind].
      destruct (negb (count_atoms (objects w) (sel_cbcount self i) =? 1)%nat),
        (negb (count_atoms (objects w) (sel_cacount self i) =? 1)%nat),
        (String.eqb (resn a) "NME"), (String.eqb (resn a) "ACE"),
        (String.eqb (resn a) "BUT"); cbn [rbind andb orb negb]; done.
    + cbn [rbind].
      destruct (negb (count_atoms (objects w) (sel_cbcount self i) =? 1)%nat),
        (negb (count_atoms (objects w) (sel_cacount self i) =? 1)%nat),
        (String.eqb (resn a) "NME"), (String.eqb (resn a) "ACE"),
        (String.eqb (resn a) "BUT"); cbn [rbind andb orb negb]; done.
  - cbn [rbind].
    destruct (i <? maxresidue)%Z.
    + destruct (negb (count_atoms (objects w) (sel_ocount self i) =? 1)%nat); [done|].
      cbn [rbind].
      destruct (negb (count_atoms (objects w) (sel_ncount self i) =? 1)%nat); [done|].
      cbn [rbind].
      destruct (negb (count_atoms (objects w) (sel_cbcount self i) =? 1)%nat),
        (negb (count_atoms (objects w) (sel_cacount self i) =? 1)%nat),
        (String.eqb (resn a) "NME"), (String.eqb (resn a) "ACE"),
        (String.eqb (resn a) "BUT"); cbn [rbind andb orb negb]; done.
    + cbn [rbind].
      destruct (negb (count_atoms (objects w) (sel_cbcount self i) =? 1)%nat),
        (negb (count_atoms (objects w) (sel_cacount self i) =? 1)%nat),
        (String.eqb (resn a) "NME"), (String.eqb (resn a) "ACE"),
        (String.eqb (resn a) "BUT"); cbn [rbind andb orb negb]; done.
Qed.

Lemma for_each_run {A} (body : A → M unit) (f : A → result unit) l w :
  (∀ x, ∃ t, body x w = (f x, w, t)) →
  ∃ t, for_each l body w = (first_error (f <$> l), w, t).
Proof.
  intros Hbody. induction l as [|x l [t IH]]; [by eexists|].
  destruct (Hbody x) as [t1 H1]. cbn [for_each]. unfold bind. rewrite H1.
  rewrite fmap_cons. cbn [first_error foldr].
  destruct (f x) as [[]|e]; cbn [rbind].
  - rewrite IH. by eexists.
  - by eexists.
Qed.

(** What [checkPeptide] answers on a peptide with atoms: it leaves the
    session as it was, and finds the first broken rule. *)
Lemma checkPeptide_run self w m mn mx :
  objects w !! self = Some m → min_resi m = Ok mn → max_resi m = Ok mx →
  ∃ t, checkPeptide self w
       = (if negb (mn =? 1)%Z
          then consistency ["Lowest residue number is "; str_Z mn;
                            " instead of the expected 1."]
          else first_error (residue_rules (objects w) self mx <$> seqZ 1 mx), w, t).
Proof.
  intros Hm Hmn Hmx. unfold checkPeptide.
  erewrite bind_Ok.
  2:{ rewrite (fetchModel_read self _ w m Hm). rewrite Hmn, Hmx. reflexivity. }
  cbv beta iota. cbn [fst snd]. unfold when, consistency_error, consistency.
  destruct (negb (mn =? 1)%Z).
  - unfold bind, raise. by eexists.
  - destruct (for_each_run (check_residue self mx) (residue_rules (objects w) self mx)
                (seqZ 1 mx) w) as [t Ht].
    { intros x. apply (check_residue_run self mx x w). }
    unfold bind, ret. rewrite Ht. by eexists.
Qed.

Lemma in_list_elem x l : in_list x l = true ↔ x ∈ l.
Proof.
  unfold in_list. rewrite existsb_exists. split.
  - intros (y & Hy%list_elem_of_In & ->%String.eqb_eq). done.
  - intros Hx. exists x. split; [by apply list_elem_of_In | apply String.eqb_refl].
Qed.

Lemma first_error_Ok l : first_error l = Ok tt → ∀ r, r ∈ l → r = Ok tt.
Proof.
  induction l as [|r l IH]; intros Hl r' Hr'; [by apply elem_of_nil in Hr'|].
  cbn [first_error foldr] in Hl. destruct r as [[]|e]; [|done].
  apply elem_of_cons in Hr' as [->|Hr']; [done|]. by apply IH.
Qed.

Lemma first_error_app l1 l2 :
  (∀ r, r ∈ l1 → r = Ok tt) → first_error (l1 ++ l2) = first_error l2.
Proof.
  induction l1 as [|r l1 IH]; intros Hl1; [done|].
  cbn [app first_error foldr]. rewrite (Hl1 r) by left. cbn [rbind].
  apply IH. intros r' Hr'. apply Hl1. by right.
Qed.

(** The checks of the residues [1..mx], cut at residue [i]. *)
Lemma seqZ_split (i mx : Z) :
  (1 ≤ i ≤ mx)%Z → seqZ 1 mx = seqZ 1 (i - 1) ++ i :: seqZ (i + 1) (mx - i).
Proof.
  intros Hi. replace mx with ((i - 1) + (1 + (mx - i)))%Z at 1 by lia.
  rewrite seqZ_app by lia. f_equal.
  replace (1 + (i - 1))%Z with i by lia.
  rewrite seqZ_cons by lia. f_equal. f_equal; lia.
Qed.

(** C4 (amended): on a peptide numbered from 1 that passes
    [checkPeptide], in every residue exactly one atom called CA, CB or CB1
    is next to a nitrogen, unless the residue is NME, ACE or BUT, and
    exactly one atom called CA is next to a carbonyl carbon, unless the
    residue is ACE or NME. The first residue that breaks a rule stops the
    check: when its amide-bond rules hold, a broken nitrogen rule, and
    after it a broken carbon rule, raises the consistency error that
    names the residue and the count. *)
Theorem neighbour_rules self w m mx :
  objects w !! self = Some m → min_resi m = Ok 1%Z → max_resi m = Ok mx →
  let objs := objects w in
  let cb i := count_atoms objs (sel_cbcount self i) in
  let ca i := count_atoms objs (sel_cacount self i) in
  ((checkPeptide self w).1.1 = Ok tt →
     ∀ i, (1 ≤ i ≤ mx)%Z →
       ∃ resname, resname_of objs self i = Ok resname
         ∧ (cb i = 1%nat ∨ resname ∈ ["NME"; "ACE"; "BUT"])
         ∧ (ca i = 1%nat ∨ resname ∈ ["ACE"; "NME"]))
  ∧ (∀ i resname, (1 ≤ i ≤ mx)%Z →
       (∀ j, (1 ≤ j < i)%Z → residue_rules objs self mx j = Ok tt) →
       resname_of objs self i = Ok resname →
       amide_rules objs self mx i resname = Ok tt →
       (cb i ≠ 1%nat → resname ∉ ["NME"; "ACE"; "BUT"] →
          (checkPeptide self w).1.1
          = consistency ["Amide N in residue "; str_Z i; " has ";
                         str_N (N.of_nat (cb i)); " CA or CB neighbours."])
       ∧ ((cb i = 1%nat ∨ resname ∈ ["NME"; "ACE"; "BUT"]) →
          ca i ≠ 1%nat → resname ∉ ["ACE"; "NME"] →
          (checkPeptide self w).1.1
          = consistency ["Amide C in residue "; str_Z i; " has ";
                         str_N (N.of_nat (ca i)); " CA neighbours."])).
Proof.
  intros Hm Hmn Hmx objs cb ca.
  destruct (checkPeptide_run self w m 1 mx Hm Hmn Hmx) as [t Hrun].
  rewrite Hrun. cbn [fst snd negb Z.eqb Pos.eqb]. fold objs. clear Hrun.
  assert (Hnb : ∀ i resname,
    nitrogen_rule objs self i resname = Ok tt
    ↔ (cb i = 1%nat ∨ resname ∈ ["NME"; "ACE"; "BUT"])).
  { intros i resname. unfold nitrogen_rule, consistency. fold (cb i).
    rewrite <- in_list_elem.
    destruct (Nat.eqb_spec (cb i) 1), (in_list resname _); cbn [negb andb];
      split; try done; auto; intros [?|?]; done. }
  assert (Hcb : ∀ i resname,
    carbon_rule objs self i resname = Ok tt
    ↔ (ca i = 1%nat ∨ resname ∈ ["ACE"; "NME"])).
  { intros i resname. unfold carbon_rule, consistency. fold (ca i).
    rewrite <- in_list_elem.
    destruct (Nat.eqb_spec (ca i) 1), (in_list resname _); cbn [negb andb];
      split; try done; auto; intros [?|?]; done. }
  split.
  - intros Hok i Hi.
    assert (Hri : residue_rules objs self mx i = Ok tt).
    { apply (first_error_Ok _ Hok). apply list_elem_of_fmap. exists i.
      split; [done|]. apply elem_of_seqZ. lia. }
    unfold residue_rules in Hri.
    destruct (resname_of objs self i) as [resname|]; [|done]. cbn [rbind] in Hri.
    destruct (amide_rules objs self mx i resname) as [[]|]; [|done]. cbn [rbind] in Hri.
    destruct (nitrogen_rule objs self i resname) as [[]|] eqn:Hn; [|done].
    cbn [rbind] in Hri. exists resname. split; [done|]. split.
    + by apply Hnb.
    + by apply Hcb.
  - intros i resname Hi Hbefore Hres Hamide.
    assert (Hfirst : first_error (residue_rules objs self mx <$> seqZ 1 mx)
                     = rbind (rbind (nitrogen_rule objs self i resname) (λ _,
                                carbon_rule objs self i resname))
                             (λ _, first_error (residue_rules objs self mx
                                                  <$> seqZ (i + 1) (mx - i)))).
    { rewrite (seqZ_split i mx Hi), fmap_app, first_error_app.
      - rewrite fmap_cons. cbn [first_error foldr]. unfold residue_rules at 1.
        rewrite Hres. cbn [rbind]. rewrite Hamide. cbn [rbind]. done.
      - intros r (j & -> & Hj%elem_of_seqZ)%list_elem_of_fmap. apply Hbefore. lia. }
    rewrite Hfirst. split.
    + intros Hne Hnot.
      assert (Hn : nitrogen_rule objs self i resname
                   = consistency ["Amide N in residue "; str_Z i; " has ";
                                  str_N (N.of_nat (cb i)); " CA or CB neighbours."]).
      { unfold nitrogen_rule. fold (cb i).
        apply Nat.eqb_neq in Hne. rewrite Hne.
        destruct (in_list resname ["NME"; "ACE"; "BUT"]) eqn:E; [|done].
        by apply in_list_elem in E. }
      by rewrite Hn.
    + intros Hn%Hnb Hne Hnot. rewrite Hn. cbn [rbind].
      assert (Hc : carbon_rule objs self i resname
                   = consistency ["Amide C in residue "; str_Z i; " has ";
                                  str_N (N.of_nat (ca i)); " CA neighbours."]).
      { unfold carbon_rule. fold (ca i).
        apply Nat.eqb_neq in Hne. rewrite Hne.
        destruct (in_list resname ["ACE"; "NME"]) eqn:E; [|done].
        by apply in_list_elem in E. }
      by rewrite Hc.
Qed.

(** C4, as stated, fails for BUT: a butyryl residue is exempt from the
    nitrogen rule only, and one whose carbonyl carbon has no CA neighbour
    is refused. *)
Lemma but_is_not_exempt :
  resname_of (objects example.session) "but" 1 = Ok "BUT"
  ∧ (checkPeptide "but" example.session).1.1
    = Raise (BetaPeptideConsistencyError "Amide C in residue 1 has 0 CA neighbours.").
Proof. split; vm_compute; reflexivity. Qed.

Lemma neighbour_rules_witness :
  ∃ resname, resname_of (objects example.session) "right" 1 = Ok resname
    ∧ (count_atoms (objects example.session) (sel_cbcount "right" 1) = 1%nat
       ∨ resname ∈ ["NME"; "ACE"; "BUT"])
    ∧ (count_atoms (objects example.session) (sel_cacount "right" 1) = 1%nat
       ∨ resname ∈ ["ACE"; "NME"]).
Proof.
  assert (Hm : objects example.session !! "right" = Some example.gly_right)
    by (vm_compute; reflexivity).
  assert (Hmn : min_resi example.gly_right = Ok 1%Z) by reflexivity.
  assert (Hmx : max_resi example.gly_right = Ok 1%Z) by reflexivity.
  assert (Hck : (checkPeptide "right" example.session).1.1 = Ok tt)
    by (vm_compute; reflexivity).
  apply (proj1 (neighbour_rules "right" example.session example.gly_right 1
                  Hm Hmn Hmx) Hck 1%Z).
  lia.
Defined.

End checkPeptide_facts.

(* ------------------------------------------------------------------ *)
(** ** What a fusion leaves in the session                             *)
(* ------------------------------------------------------------------ *)

Module joining_facts.
Import pymol utils BetaPeptide pymol_facts fusion_facts checkPeptide_facts.
Export joining_spec.

Lemma outcome_bind_Ok {A B} (m : M A) (k : A → M B) w a w' :
  outcome m w = (Ok a, w') → outcome (bind m k) w = outcome (k a) w'.
Proof.
  unfold outcome, bind. destruct (m w) as [[r w1] t]. simpl.
  intros [= -> ->]. by destruct (k a w') as [[??]?].
Qed.

Lemma outcome_bind_Raise {A B} (m : M A) (k : A → M B) w e w' :
  outcome m w = (Raise e, w') → outcome (bind m k) w = (Raise e, w').
Proof.
  unfold outcome, bind. destruct (m w) as [[r w1] t]. simpl. by intros [= -> ->].
Qed.

Lemma outcome_finally {A} (m : M A) (cleanup : M unit) w r w' w'' :
  outcome m w = (r, w') → outcome cleanup w' = (Ok tt, w'') →
  outcome (finally m cleanup) w = (r, w'').
Proof.
  unfold outcome, finally. destruct (m w) as [[r1 w1] t]. simpl.
  intros [= -> ->]. destruct (cleanup w') as [[[[]|e] w2] t2]; simpl; by intros [= ->].
Qed.

Lemma outcome_get_world {A} (k : World → M A) w :
  outcome (bind get_world k) w = outcome (k w) w.
Proof. unfold outcome, bind, get_world. by destruct (k w w) as [[??]?]. Qed.

Lemma outcome_modify {A} f (k : unit → M A) w :
  outcome (bind (modify f) k) w = outcome (k tt) (f w).
Proof. unfold outcome, bind, modify. by destruct (k tt (f w)) as [[??]?]. Qed.

Lemma outcome_reads {A} (m : M A) f w : reads m f → outcome m w = (f w, w).
Proof. intros H. destruct (H w) as [t Ht]. unfold outcome. by rewrite Ht. Qed.

(** *** Moving and renumbering a model *)

Lemma map_coord_id a : map_coord id a = a.
Proof. by destruct a. Qed.

Lemma move_model_id m : move_model id m = m.
Proof.
  destruct m as [atoms bonds]. unfold move_model. simpl. f_equal.
  rewrite <- (list_fmap_id atoms) at 2. apply list_fmap_ext.
  intros _ a _. apply map_coord_id.
Qed.

Lemma move_model_compose f g m :
  move_model f (move_model g m) = move_model (f ∘ g) m.
Proof.
  unfold move_model. simpl. f_equal. rewrite <- list_fmap_compose.
  apply list_fmap_ext. intros _ a _. by destruct a.
Qed.

(** *** Selections that are confined to one object *)

Lemma within_selects objs o s o' i :
  within o s = true → selects objs s o' i = true → o' = o.
Proof.
  induction s as [x|ns|r|e|t IH|a IHa b IHb|a IHa b IHb|a IHa] in i |- *;
    cbn [within selects]; try done.
  - intros ->%String.eqb_eq ->%String.eqb_eq. done.
  - intros Ht [_ (j & _ & [_ Hj]%andb_true_iff)%existsb_exists]%andb_true_iff.
    by apply (IH j).
  - intros [Ha|Hb]%orb_true_iff [Hsa Hsb]%andb_true_iff; eauto.
Qed.

Lemma shifted_lookup k f m i :
  atom (shifted k f m) !! i
  = (λ a, map_coord f (assign (set_resv (resi_number a + k)) a)) <$> atom m !! i.
Proof.
  unfold shifted, move_model, renumber. simpl.
  rewrite !list_lookup_fmap. by destruct (atom m !! i).
Qed.

Lemma shifted_length k f m : length (atom (shifted k f m)) = length (atom m).
Proof. unfold shifted, move_model, renumber. simpl. by rewrite !length_fmap. Qed.

Lemma shifted_0 f m : shifted 0 f m = move_model f m.
Proof.
  unfold shifted, renumber. f_equal. destruct m as [atoms bonds]. simpl. f_equal.
  rewrite <- (list_fmap_id atoms) at 2. apply list_fmap_ext.
  intros _ a _. destruct a. simpl. f_equal. lia.
Qed.

Lemma selects_shifted objs objs' o o' k f m s i :
  objs !! o = Some m → objs' !! o' = Some (shifted k f m) →
  only_model o s = true →
  selects objs' (shift_sel o' k s) o' i = selects objs s o i.
Proof.
  intros Ho Ho'.
  induction s as [x|ns|r|e|t IH|a IHa b IHb|a IHa b IHb|a IHa] in i |- *;
    cbn [only_model shift_sel selects]; rewrite ?Ho, ?Ho'; cbn [default from_option id].
  - intros ->%String.eqb_eq. by rewrite !String.eqb_refl.
  - intros _. unfold atom_test. rewrite shifted_lookup. by destruct (atom m !! i).
  - intros _. unfold atom_test. rewrite shifted_lookup.
    destruct (atom m !! i) as [a|]; [|done]. simpl.
    destruct (Z.eqb_spec (resi_number a) r), (Z.eqb_spec (resi_number a + k) (r + k));
      try done; lia.
  - intros _. unfold atom_test. rewrite shifted_lookup. by destruct (atom m !! i).
  - intros Ht. rewrite IH by done. f_equal. rewrite shifted_length.
    induction (seq 0 (length (atom m))) as [|j l IHl]; [done|]. cbn [existsb].
    rewrite IHl, IH by done. done.
  - intros [Ha Hb]%andb_true_iff. by rewrite IHa, IHb.
  - intros [Ha Hb]%andb_true_iff. by rewrite IHa, IHb.
  - intros Ha. by rewrite IHa.
Qed.

Lemma within_shift_sel o o' k s : within o s = true → within o' (shift_sel o' k s) = true.
Proof.
  induction s; cbn [within shift_sel]; try done.
  - intros _. apply String.eqb_refl.
  - intros [?|?]%orb_true_iff; apply orb_true_iff; auto.
Qed.

Lemma flat_map_single {X} (f : string * Indexed → list X) o
    (l : list (string * Indexed)) :
  NoDup l.*1 →
  (∀ o' m, o' ≠ o → f (o', m) = []) →
  flat_map f l = match dict_get o l with Some m => f (o, m) | None => [] end.
Proof.
  intros Hnd Hf. induction l as [|[o' m] l IH]; [done|].
  simpl in *. apply NoDup_cons in Hnd as [Ho Hnd]. rewrite IH by done.
  destruct (String.eqb_spec o' o) as [->|Hne].
  - assert (dict_get o l = None) as ->; [|by rewrite app_nil_r].
    destruct (dict_get o l) eqn:E; [|done].
    exfalso. apply Ho. apply dict_get_elem in E.
    apply list_elem_of_fmap. by exists (o, i).
  - by rewrite Hf.
Qed.

Lemma selected_in_elsewhere objs o s o' m :
  within o s = true → o' ≠ o → selected_in objs s o' m = [].
Proof.
  intros Hs Hne. unfold selected_in. apply filter_false_nil. intros i.
  destruct (selects objs s o' i) eqn:E; [|done].
  by apply (within_selects _ o) in E.
Qed.

(** The atoms of a selection confined to [o] are atoms of [o]. *)
Lemma selected_within objs o s m :
  within o s = true → objs !! o = Some m →
  selected objs s = (o,.) <$> selected_in objs s o m.
Proof.
  intros Hs Ho. unfold selected.
  rewrite (flat_map_single _ o).
  - by rewrite dict_get_map_to_list, Ho.
  - apply NoDup_fst_map_to_list.
  - intros o' m' Hne. cbn [fst snd]. by rewrite (selected_in_elsewhere _ o).
Qed.

Lemma get_model_in_elsewhere objs o s o' m :
  within o s = true → o' ≠ o → get_model_in objs s o' m = empty_model.
Proof.
  intros Hs Hne. unfold get_model_in.
  rewrite (selected_in_elsewhere _ o) by done. cbn [omap list_omap].
  unfold empty_model. f_equal.
  induction (bond m) as [|b l IH]; [done|]. cbn [omap list_omap].
  destruct (selects objs s o' b.1) eqn:E; [|done].
  by apply (within_selects _ o) in E.
Qed.

Lemma get_model_within objs o s m :
  within o s = true → objs !! o = Some m →
  get_model objs s = get_model_in objs s o m.
Proof.
  intros Hs Ho. unfold get_model.
  rewrite (foldr_merge_single (λ om, get_model_in objs s om.1 om.2) o).
  - by rewrite dict_get_map_to_list, Ho.
  - apply NoDup_fst_map_to_list.
  - intros o' m' Hne. by apply (get_model_in_elsewhere _ o).
Qed.

Lemma selected_in_shifted objs objs' o o' k f m s :
  objs !! o = Some m → objs' !! o' = Some (shifted k f m) →
  only_model o s = true →
  selected_in objs' (shift_sel o' k s) o' (shifted k f m) = selected_in objs s o m.
Proof.
  intros Ho Ho' Hs. unfold selected_in. rewrite shifted_length.
  induction (seq 0 (length (atom m))) as [|j l IHl]; [done|]. cbn [List.filter].
  by rewrite IHl, (selects_shifted objs objs' o o' k f m).
Qed.

Lemma get_model_atoms_shifted objs objs' o o' k f m s :
  objs !! o = Some m → objs' !! o' = Some (shifted k f m) →
  only_model o s = true → within o s = true →
  length (atom (get_model objs' (shift_sel o' k s)))
  = length (atom (get_model objs s)).
Proof.
  intros Ho Ho' Hs Hw.
  rewrite (get_model_within objs o s m), (get_model_within objs' o' _ (shifted k f m));
    [|by apply (within_shift_sel o)|done..].
  unfold get_model_in. cbn [atom].
  rewrite (selected_in_shifted objs objs' o o' k f m) by done.
  induction (selected_in objs s o m) as [|j l IHl]; [done|]. cbn [omap list_omap].
  rewrite shifted_lookup. destruct (atom m !! j); cbn [fmap option_fmap option_map];
    cbn [length]; by rewrite IHl.
Qed.

(** *** Commands that change one object *)

Lemma imap_single (objs : gmap string Indexed) o m (F : string → Indexed → Indexed) :
  objs !! o = Some m → (∀ o' m', o' ≠ o → F o' m' = m') →
  map_imap (λ o m, Some (F o m)) objs = <[o := F o m]> objs.
Proof.
  intros Ho HF. apply map_eq. intros o'. rewrite map_lookup_imap.
  destruct (decide (o' = o)) as [->|Hne].
  - by rewrite lookup_insert_eq, Ho.
  - rewrite lookup_insert_ne by done. destruct (objs !! o') as [m'|]; [|done].
    simpl. by rewrite HF.
Qed.

Lemma same_registry_trans w1 w2 w3 :
  same_registry w1 w2 → same_registry w2 w3 → same_registry w1 w3.
Proof. intros (?&?&?) (?&?&?). repeat split; congruence. Qed.

Section moves.
Variable orc : Oracle.

Lemma pair_fit_moves pairs o m w :
  objects w !! o = Some m → Forall (λ p : sel * sel, within o p.1 = true) pairs →
  ∃ f, outcome (cmd.pair_fit orc pairs) w
       = (Ok (fit_rms orc (objects w) pairs),
          with_objects w (<[o := move_model f m]> (objects w))).
Proof.
  intros Ho Hpairs.
  set (mobile := flat_map (λ p : sel * sel, (selected (objects w) p.1).*1) pairs).
  exists (if in_list o mobile then fit_motion orc (objects w) pairs else id).
  unfold outcome, cmd.pair_fit, cmd.update_objects, bind, get_world, emit, modify, ret.
  cbn -[in_list]. f_equal. f_equal. fold mobile.
  rewrite (imap_single _ o m
             (λ o m, if in_list o mobile
                     then move_model (fit_motion orc (objects w) pairs) m else m)).
  - destruct (in_list o mobile); [done|]. by rewrite move_model_id.
  - done.
  - intros o' m' Hne. destruct (in_list o' mobile) eqn:E; [|done].
    exfalso. apply in_list_elem in E. unfold mobile in E.
    apply list_elem_of_In, in_flat_map in E as (p & Hp & Hin).
    apply list_elem_of_In in Hp, Hin.
    rewrite Forall_forall in Hpairs. specialize (Hpairs p Hp).
    apply list_elem_of_fmap in Hin as ([o'' i] & -> & Hin).
    rewrite (selected_within _ o _ m) in Hin by done.
    by apply list_elem_of_fmap in Hin as (j & [= -> ->] & _).
Qed.

Lemma rotate_moves ax ang o m w :
  objects w !! o = Some m →
  outcome (cmd.rotate orc ax ang (s_model o)) w
  = (Ok tt, with_objects w (<[o := move_model (rotation orc ax ang) m]> (objects w))).
Proof.
  intros Ho. unfold outcome, cmd.rotate, cmd.update_objects, bind, emit, modify.
  cbn. f_equal. f_equal.
  rewrite (imap_single _ o m
             (λ o' m', mkIndexed
                (imap (λ i a, if String.eqb o o'
                              then map_coord (rotation orc ax ang) a else a) (atom m'))
                (bond m'))).
  - rewrite String.eqb_refl. unfold move_model. f_equal. f_equal. apply imap_const.
  - done.
  - intros o' m' Hne. destruct (String.eqb_spec o o') as [->|_]; [done|].
    destruct m' as [atoms bonds]. simpl. f_equal.
    rewrite (imap_const id). apply list_fmap_id.
Qed.

(** A superposition moves its mobile object as a whole, and nothing
    else; it ends with an RMS or with the [RuntimeError] of ten misses. *)
Lemma safe_pairfit_loop_moves n pairs o tol rms0 w m :
  objects w !! o = Some m → Forall (λ p : sel * sel, within o p.1 = true) pairs →
  ∃ r f w',
    outcome (safe_pairfit_loop orc n pairs (s_model o) tol rms0) w = (r, w')
    ∧ objects w' = <[o := move_model f m]> (objects w)
    ∧ same_registry w w'
    ∧ ((∃ rms, r = Ok rms) ∨ (∃ msg, r = Raise (RuntimeError msg))
       ∨ (n = 0%nat ∧ rms0 = None))
    ∧ ((∀ objs ps, Qltb (fit_rms orc objs ps) tol = true) → (0 < n)%nat →
       ∃ rms, r = Ok rms).
Proof.
  intros Ho Hpairs. revert rms0 w m Ho.
  induction n as [|n IH]; intros rms0 w m Ho.
  - exists (match rms0 with
            | Some rms =>
                Raise (RuntimeError
                         ("Could not fit with RMS less than " +:+ str_float orc tol
                          +:+ ". RMS is: " +:+ str_float orc rms))
            | None => Raise (UnboundLocalError
                               "local variable 'rms' referenced before assignment")
            end), id, w.
    split_and!.
    + cbn [safe_pairfit_loop]. by destruct rms0.
    + rewrite move_model_id. symmetry. by apply insert_id.
    + done.
    + destruct rms0; [right; left; by eexists|by right; right].
    + intros _ ?. lia.
  - cbn [safe_pairfit_loop].
    destruct (pair_fit_moves pairs o m w Ho Hpairs) as [f1 Hfit].
    rewrite (outcome_bind_Ok _ _ _ _ _ Hfit).
    set (w1 := with_objects w (<[o:=move_model f1 m]> (objects w))) in *.
    destruct (Qltb (fit_rms orc (objects w) pairs) tol) eqn:Hlt.
    + exists (Ok (fit_rms orc (objects w) pairs)), f1, w1. split_and!; try done.
      * left. by eexists.
      * intros _ _. by eexists.
    + set (w2 := with_draws w1 (S (draws w1))).
      assert (Ho2 : objects w2 !! o = Some (move_model f1 m))
        by (cbn; apply lookup_insert_eq).
      set (ax := axis_char (randint_0_2 orc (draws w1))).
      set (ang := randrange_360 orc (draws w1)).
      pose proof (rotate_moves ax ang o _ w2 Ho2) as Hrot.
      set (w3 := with_objects w2 _) in Hrot.
      assert (Ho3 : objects w3 !! o
                    = Some (move_model (rotation orc ax ang ∘ f1) m)).
      { cbn. rewrite lookup_insert_eq. by rewrite move_model_compose. }
      destruct (IH (Some (fit_rms orc (objects w) pairs)) w3 _ Ho3)
        as (r & f & w' & Hout & Hobj & Hreg & Hr & Hfirst).
      exists r, (f ∘ (rotation orc ax ang ∘ f1)), w'. split_and!.
      * rewrite outcome_get_world, outcome_modify.
        by rewrite (outcome_bind_Ok _ _ _ _ _ Hrot).
      * rewrite Hobj. cbn. rewrite !insert_insert_eq.
        by rewrite move_model_compose.
      * eapply same_registry_trans; [|exact Hreg]. done.
      * destruct Hr as [?|[?|[_ [=]]]]; auto.
      * intros Hall _. specialize (Hall (objects w) pairs). congruence.
Qed.
End moves.

(** *** Fetching, copying, naming *)

Lemma outcome_fetchModel {A} self (body : Indexed → result A * Indexed) w :
  outcome (fetchModel self body) w
  = ((body (default empty_model (objects w !! self))).1,
     with_objects w (<[self := (body (default empty_model (objects w !! self))).2]>
                       (objects w))).
Proof.
  unfold outcome, fetchModel, cmd.get_model, cmd.delete, cmd.load_model,
    cmd.update_objects, bind, emit, get_world, modify, ret, lift. cbn.
  rewrite get_model_model.
  destruct (body (default empty_model (objects w !! self))) as [r model'].
  cbn. by rewrite insert_delete_eq.
Qed.

Lemma outcome_copy self newname w :
  outcome (copy self newname) w
  = (Ok newname,
     with_objects w (<[newname := default empty_model (objects w !! self)]>
                       (objects w))).
Proof.
  unfold outcome, copy, cmd.get_model, cmd.delete, cmd.load_model,
    cmd.update_objects, bind, emit, get_world, modify, ret. cbn.
  by rewrite get_model_model, insert_delete_eq.
Qed.

Lemma in_list_objects (objs : gmap string Indexed) o :
  in_list o (map_to_list objs).*1 = false ↔ objs !! o = None.
Proof.
  split.
  - intros Hin. destruct (objs !! o) as [m|] eqn:E; [|done].
    assert (in_list o (map_to_list objs).*1 = true); [|congruence].
    apply in_list_elem, list_elem_of_fmap. exists (o, m).
    split; [done|]. by apply elem_of_map_to_list.
  - intros Ho. destruct (in_list o (map_to_list objs).*1) eqn:E; [|done].
    apply in_list_elem, list_elem_of_fmap in E as ([o' m] & -> & Hin).
    apply elem_of_map_to_list in Hin. simpl in Ho. congruence.
Qed.

Section names.
Variable orc : Oracle.

Lemma outcome_enter fuel w :
  objects w !! first_name orc w = None → first_name orc w ∉ tempobjnames w →
  outcome (tempObjectName_enter orc (S fuel) "_temporary") w
  = (Ok (first_name orc w),
     with_tempobjnames (with_clock w (S (clock w)))
       (tempobjnames w ++ [first_name orc w])).
Proof.
  intros Hobj Hreg. unfold tempObjectName_enter.
  assert (Hfree : outcome (free_name orc (S fuel) "_temporary" 0) w
                  = (Ok (first_name orc w), with_clock w (S (clock w)))).
  { cbn [free_name]. rewrite outcome_get_world, outcome_modify.
    rewrite (outcome_bind_Ok cmd.get_object_list _ _
               (map_to_list (objects w)).*1 (with_clock w (S (clock w))))
      by reflexivity.
    rewrite outcome_get_world. fold (first_name orc w).
    apply in_list_objects in Hobj. cbn [objects with_clock tempobjnames].
    rewrite Hobj.
    assert (in_list (first_name orc w) (tempobjnames w) = false) as ->.
    { destruct (in_list (first_name orc w) (tempobjnames w)) eqn:E; [|done].
      by apply in_list_elem in E. }
    reflexivity. }
  rewrite (outcome_bind_Ok _ _ _ _ _ Hfree). by rewrite outcome_modify.
Qed.

Lemma list_remove_last x l : x ∉ l → list_remove x (l ++ [x]) = l.
Proof.
  induction l as [|y l IH]; intros Hx; cbn [list_remove app].
  - by rewrite String.eqb_refl.
  - apply not_elem_of_cons in Hx as [Hne Hx].
    destruct (String.eqb_spec y x) as [->|_]; [done|]. by rewrite IH.
Qed.

(** [with tempObjectName() as name: body], when the first name tried
    is free. *)
Lemma outcome_tempObjectName {A} fuel (body : string → M A) w r w' :
  objects w !! first_name orc w = None → first_name orc w ∉ tempobjnames w →
  outcome (body (first_name orc w))
    (with_tempobjnames (with_clock w (S (clock w)))
       (tempobjnames w ++ [first_name orc w])) = (r, w') →
  outcome (tempObjectName orc (S fuel) body) w
  = (r, with_tempobjnames (with_objects w' (delete (first_name orc w) (objects w')))
          (list_remove (first_name orc w) (tempobjnames w'))).
Proof.
  intros Hobj Hreg Hbody. unfold tempObjectName.
  rewrite (outcome_bind_Ok _ _ _ _ _ (outcome_enter fuel w Hobj Hreg)).
  by apply (outcome_finally _ _ _ _ w').
Qed.
End names.

Lemma with_objects_same w : with_objects w (objects w) = w.
Proof. by destruct w. Qed.

Lemma outcome_fetch_read {A} self (f : Indexed → result A) w m :
  objects w !! self = Some m →
  outcome (fetchModel self (λ model, (f model, model))) w = (f m, w).
Proof.
  intros Hm. rewrite outcome_fetchModel, Hm. cbn.
  by rewrite insert_id, with_objects_same.
Qed.

Lemma min_resi_le m mn a :
  min_resi m = Ok mn → a ∈ atom m → (mn ≤ resi_number a)%Z.
Proof.
  unfold min_resi. destruct (atom m) as [|a0 l]; [done|]. intros [= <-] Ha.
  assert (Hmin : ∀ l z, (foldl (λ m b, Z.min m (resi_number b)) z l ≤ z)%Z
                        ∧ ∀ a, a ∈ l →
                            (foldl (λ m b, Z.min m (resi_number b)) z l
                             ≤ resi_number a)%Z).
  { clear. induction l as [|b l IH]; intros z; cbn [foldl].
    - split; [lia|]. by intros a ?%elem_of_nil.
    - destruct (IH (Z.min z (resi_number b))) as [H1 H2]. split; [lia|].
      intros a [->|Ha]%elem_of_cons; [lia|auto]. }
  destruct (Hmin l (resi_number a0)) as [Hmin1 Hmin2].
  apply elem_of_cons in Ha as [->|Ha]; [lia|]. by apply Hmin2.
Qed.

Lemma max_resi_ge m mx a :
  max_resi m = Ok mx → a ∈ atom m → (resi_number a ≤ mx)%Z.
Proof.
  unfold max_resi. destruct (atom m) as [|a0 l]; [done|]. intros [= <-] Ha.
  assert (Hmax : ∀ l z, (z ≤ foldl (λ m b, Z.max m (resi_number b)) z l)%Z
                        ∧ ∀ a, a ∈ l →
                            (resi_number a
                             ≤ foldl (λ m b, Z.max m (resi_number b)) z l)%Z).
  { clear. induction l as [|b l IH]; intros z; cbn [foldl].
    - split; [lia|]. by intros a ?%elem_of_nil.
    - destruct (IH (Z.max z (resi_number b))) as [H1 H2]. split; [lia|].
      intros a [->|Ha]%elem_of_cons; [lia|auto]. }
  destruct (Hmax l (resi_number a0)) as [Hmax1 Hmax2].
  apply elem_of_cons in Ha as [->|Ha]; [lia|]. by apply Hmax2.
Qed.

(** A peptide that passes the check is there, and numbered from 1. *)
Lemma checkPeptide_Ok self w m :
  objects w !! self = Some m → (checkPeptide self w).1.1 = Ok tt →
  outcome (checkPeptide self) w = (Ok tt, w)
  ∧ min_resi m = Ok 1%Z ∧ ∃ mx, max_resi m = Ok mx.
Proof.
  intros Hm Hok.
  destruct (min_resi m) as [mn|e] eqn:Hmn.
  - destruct (max_resi m) as [mx|e] eqn:Hmx.
    + destruct (checkPeptide_run self w m mn mx Hm Hmn Hmx) as [t Hrun].
      rewrite Hrun in Hok. cbn [fst] in Hok. unfold outcome. rewrite Hrun.
      cbn [fst]. destruct (Z.eqb_spec mn 1) as [->|Hne]; [|done].
      cbn [negb] in *. rewrite Hok. eauto.
    + unfold max_resi, min_resi in *. by destruct (atom m).
  - exfalso. unfold checkPeptide in Hok.
    change ((bind ?a ?b w).1.1) with (outcome (bind a b) w).1 in Hok.
    erewrite outcome_bind_Raise in Hok; [done|].
    rewrite (outcome_fetch_read _ _ _ m Hm), Hmn. done.
Qed.

(** *** Residue numbers and names of a shifted model *)

Lemma atom_shifted k f m : atom (shifted k f m) = shift_atom k f <$> atom m.
Proof.
  unfold shifted, move_model, renumber. cbn [atom].
  by rewrite <- list_fmap_compose.
Qed.

Lemma max_resi_shifted k f m mx :
  max_resi m = Ok mx → max_resi (shifted k f m) = Ok (mx + k)%Z.
Proof.
  unfold max_resi. rewrite atom_shifted.
  destruct (atom m) as [|a l]; [done|]. intros [= <-]. rewrite fmap_cons.
  f_equal. change (resi_number (shift_atom k f a)) with (resi_number a + k)%Z.
  generalize (resi_number a). induction l as [|b l IH]; intros z; [done|].
  rewrite fmap_cons. cbn [foldl].
  change (resi_number (shift_atom k f b)) with (resi_number b + k)%Z.
  replace (Z.max (z + k) (resi_number b + k)) with (Z.max z (resi_number b) + k)%Z
    by lia.
  apply IH.
Qed.

Lemma min_resi_shifted k f m mn :
  min_resi m = Ok mn → min_resi (shifted k f m) = Ok (mn + k)%Z.
Proof.
  unfold min_resi. rewrite atom_shifted.
  destruct (atom m) as [|a l]; [done|]. intros [= <-]. rewrite fmap_cons.
  f_equal. change (resi_number (shift_atom k f a)) with (resi_number a + k)%Z.
  generalize (resi_number a). induction l as [|b l IH]; intros z; [done|].
  rewrite fmap_cons. cbn [foldl].
  change (resi_number (shift_atom k f b)) with (resi_number b + k)%Z.
  replace (Z.min (z + k) (resi_number b + k)) with (Z.min z (resi_number b) + k)%Z
    by lia.
  apply IH.
Qed.

Lemma resn_set_shifted k f m r :
  resn_set (shifted k f m) (r + k) = resn_set m r.
Proof.
  unfold resn_set. rewrite atom_shifted. f_equal.
  induction (atom m) as [|a l IH]; [done|].
  rewrite fmap_cons. cbn [List.filter].
  change (resi_number (shift_atom k f a)) with (resi_number a + k)%Z.
  destruct (Z.eqb_spec (resi_number a + k) (r + k)), (Z.eqb_spec (resi_number a) r);
    try lia; rewrite ?fmap_cons; by rewrite IH.
Qed.

Lemma first_is_proline_shifted k f m b :
  first_is_proline m = Ok b → first_is_proline (shifted k f m) = Ok b.
Proof.
  unfold first_is_proline. destruct (min_resi m) as [mn|] eqn:Hmn; [|done].
  rewrite (min_resi_shifted k f m mn Hmn). cbn [rbind].
  by rewrite resn_set_shifted.
Qed.

Lemma outcome_startsWithProline self w m :
  objects w !! self = Some m →
  outcome (startsWithProline self) w = (first_is_proline m, w).
Proof. intros Hm. unfold startsWithProline. by rewrite (outcome_fetch_read _ _ _ m). Qed.

(** *** The atoms of a residue that bear one of some names *)

Lemma selected_in_atomic objs o r ns m :
  objs !! o = Some m → selected_in objs (atomic o r ns) o m = picks m r ns.
Proof.
  intros Ho. unfold selected_in, picks, atomic.
  apply filter_ext. intros i. cbn [selects]. rewrite Ho, String.eqb_refl.
  cbn [default from_option id andb]. unfold atom_test. by destruct (atom m !! i).
Qed.

Lemma picks_none m r ns :
  (∀ a, a ∈ atom m → resi_number a ≠ r) → picks m r ns = [].
Proof.
  intros Hr. unfold picks. apply filter_false_nil. intros i. unfold atom_test.
  destruct (atom m !! i) as [a|] eqn:E; [|done].
  apply list_elem_of_lookup_2 in E. specialize (Hr a E).
  by destruct (Z.eqb_spec (resi_number a) r).
Qed.

Lemma filter_seq_shift (p q : nat → bool) (a n : nat) :
  (∀ i, p (a + i)%nat = q i) →
  List.filter p (seq a n) = (λ i, (a + i)%nat) <$> List.filter q (seq 0 n).
Proof.
  intros Hpq. rewrite <- (Nat.add_0_r a) at 1. generalize 0%nat.
  induction n as [|n IH]; intros b; [done|]. cbn [seq List.filter].
  rewrite Hpq. replace (S (a + b)) with (a + S b)%nat by lia. rewrite IH.
  by destruct (q b).
Qed.

Lemma picks_merge x y r ns :
  picks (merge x y) r ns
  = picks x r ns ++ ((λ i, (length (atom x) + i)%nat) <$> picks y r ns).
Proof.
  unfold picks, merge. cbn [atom]. rewrite length_app, seq_app, List.filter_app.
  f_equal.
  - apply List.filter_ext_in. intros i Hi%in_seq. unfold atom_test. cbn [atom].
    by rewrite lookup_app_l by lia.
  - cbn [Nat.add]. apply filter_seq_shift. intros i. unfold atom_test. cbn [atom].
    rewrite lookup_app_r by lia. by replace (length (atom x) + i - length (atom x))%nat
      with i by lia.
Qed.

Lemma picks_shifted k f m r ns : picks (shifted k f m) (r + k) ns = picks m r ns.
Proof.
  unfold picks. rewrite atom_shifted, length_fmap. apply filter_ext. intros i.
  unfold atom_test. rewrite atom_shifted, list_lookup_fmap.
  destruct (atom m !! i) as [a|]; [|done].
  cbn [fmap option_fmap option_map]. change (name (shift_atom k f a)) with (name a).
  change (resi_number (shift_atom k f a)) with (resi_number a + k)%Z.
  destruct (Z.eqb_spec (resi_number a + k) (r + k)), (Z.eqb_spec (resi_number a) r);
    try lia; done.
Qed.

Lemma within_atomic o r ns : within o (atomic o r ns) = true.
Proof. unfold atomic. cbn [within]. by rewrite String.eqb_refl. Qed.

Lemma selected_atomic objs o r ns m :
  objs !! o = Some m → selected objs (atomic o r ns) = (o,.) <$> picks m r ns.
Proof.
  intros Ho. rewrite (selected_within objs o _ m) by (done || apply within_atomic).
  by rewrite selected_in_atomic.
Qed.

Lemma count_one objs o r ns m :
  objs !! o = Some m → count_atoms objs (atomic o r ns) = 1%nat →
  ∃ i, picks m r ns = [i].
Proof.
  intros Ho. unfold count_atoms. rewrite (selected_atomic objs o r ns m Ho).
  rewrite length_fmap. destruct (picks m r ns) as [|i [|??]]; try done. eauto.
Qed.

Lemma picks_move f m r ns : picks (move_model f m) r ns = picks m r ns.
Proof. rewrite <- shifted_0, <- (Z.add_0_r r) at 1. apply picks_shifted. Qed.

Section joining.
Variable orc : Oracle.

Lemma outcome_fuse o1 o2 r1 r2 ns1 ns2 m1 m2 i1 i2 w :
  objects w !! o1 = Some m1 → objects w !! o2 = Some m2 → o1 ≠ o2 →
  picks m1 r1 ns1 = [i1] → picks m2 r2 ns2 = [i2] →
  outcome (cmd.fuse (atomic o1 r1 ns1) (atomic o2 r2 ns2) 3) w
  = (Ok tt, with_objects w (<[o2 := merge m2 m1]> (objects w))).
Proof.
  intros H1 H2 Hne Hp1 Hp2.
  unfold outcome, cmd.fuse, cmd.update_objects, bind, emit, modify. cbn.
  rewrite (selected_atomic _ o1 r1 ns1 m1), (selected_atomic _ o2 r2 ns2 m2) by done.
  rewrite Hp1, Hp2. cbn. rewrite H1, H2.
  by destruct (String.eqb_spec o1 o2).
Qed.

Lemma outcome_bond o m r1 r2 ns1 ns2 w :
  objects w !! o = Some m →
  outcome (cmd.bond (atomic o r1 ns1) (atomic o r2 ns2)) w
  = (Ok tt,
     with_objects w
       (<[o := mkIndexed (atom m)
                 (bond m ++ flat_map (λ i, (i,.) <$> picks m r2 ns2) (picks m r1 ns1))]>
          (objects w))).
Proof.
  intros Ho. unfold outcome, cmd.bond, cmd.update_objects, bind, emit, modify. cbn.
  f_equal. f_equal.
  rewrite (imap_single _ o m
             (λ o' m', mkIndexed (atom m')
                (bond m' ++ flat_map (λ i, (i,.) <$> selected_in (objects w)
                                             (atomic o r2 ns2) o' m')
                              (selected_in (objects w) (atomic o r1 ns1) o' m')))).
  - by rewrite !selected_in_atomic.
  - done.
  - intros o' m' Hne.
    rewrite (selected_in_elsewhere _ o (atomic o r1 ns1)) by (done || apply within_atomic).
    cbn. rewrite app_nil_r. by destruct m'.
Qed.

End joining.

(** *** The work on the scratch objects *)

Ltac lk :=
  cbn [objects with_objects with_draws];
  repeat (rewrite lookup_insert_eq || rewrite lookup_insert_ne by congruence);
  try done.

Section scratch.
Variable orc : Oracle.
Variables self right n1 n2 n3 : string.
Variable w : World.
Variables A B : Indexed.
Variable m : Z.
Variable pro : bool.
Variables iC iN : nat.
Hypothesis HA : objects w !! self = Some A.
Hypothesis HB : objects w !! right = Some B.
Hypothesis Hn1 : objects w !! n1 = None.
Hypothesis Hn2 : objects w !! n2 = None.
Hypothesis Hn3 : objects w !! n3 = None.
Hypothesis Hn12 : n1 ≠ n2.
Hypothesis Hn13 : n1 ≠ n3.
Hypothesis Hn23 : n2 ≠ n3.
Hypothesis Hm : max_resi A = Ok m.
Hypothesis HminB : min_resi B = Ok 1%Z.
Hypothesis Hpro : first_is_proline B = Ok pro.
Hypothesis Hcb : atom (get_model (objects w) (sel_cbname right 0)) ≠ [].
Hypothesis HC : picks A m ["C"] = [iC].
Hypothesis HN : picks B 1 ["N"] = [iN].

Lemma scratch_names_differ :
  self ≠ n1 ∧ self ≠ n2 ∧ self ≠ n3 ∧ right ≠ n1 ∧ right ≠ n2 ∧ right ≠ n3.
Proof using HA HB Hn1 Hn2 Hn3. repeat split; congruence. Qed.

Lemma fuse_in_scratch_outcome :
  ∃ r w',
    outcome (fuse_in_scratch orc self right n1 n2 n3) w = (r, w')
    ∧ same_registry w w'
    ∧ ((∃ msg, r = Raise (RuntimeError msg))
       ∨ (r = Ok self
          ∧ ∃ f g, delete n1 (delete n2 (delete n3 (objects w')))
                   = <[self := joined A B m f g iC iN]> (objects w)))
    ∧ ((∀ objs ps, Qltb (fit_rms orc objs ps) tolerance_normal = true) →
       (∀ objs ps, Qltb (fit_rms orc objs ps) tolerance_proline = true) →
       r = Ok self).
Proof using All.
  destruct scratch_names_differ as (Hs1 & Hs2 & Hs3 & Hr1 & Hr2 & Hr3).
  unfold fuse_in_scratch.
  (* the mould and the two copies *)
  set (P := resource orc "peptidebond.pkl").
  set (w1 := with_objects w (<[n1 := P]> (objects w))).
  rewrite (outcome_bind_Ok (loadPeptideBond orc n1) _ w n1 w1) by reflexivity.
  rewrite (outcome_bind_Ok _ _ _ _ _ (outcome_copy self n2 w1)).
  replace (objects w1 !! self) with (Some A) by (unfold w1; lk).
  cbn [default from_option id].
  set (w2 := with_objects w1 _).
  rewrite (outcome_bind_Ok _ _ _ _ _ (outcome_copy right n3 w2)).
  replace (objects w2 !! right) with (Some B) by (unfold w2, w1; lk).
  cbn [default from_option id].
  set (w3 := with_objects w2 _).
  (* the renumbering *)
  assert (H3 : objects w3 !! n2 = Some A) by (unfold w3, w2, w1; lk).
  assert (Hmax : outcome (maxResidue n2) w3 = (Ok m, w3)).
  { unfold maxResidue. by rewrite (outcome_fetch_read n2 max_resi w3 A H3), Hm. }
  rewrite (outcome_bind_Ok _ _ _ _ _ Hmax).
  assert (Hren : outcome (fetchModel n3 (λ model, (Ok tt, renumber m model))) w3
                 = (Ok tt, with_objects w3 (<[n3 := shifted m id B]> (objects w3)))).
  { rewrite outcome_fetchModel. replace (objects w3 !! n3) with (Some B) by (unfold w3; lk).
    cbn [default from_option id fst snd]. unfold shifted. by rewrite move_model_id. }
  rewrite (outcome_bind_Ok _ _ _ _ _ Hren).
  set (w4 := with_objects w3 _).
  rewrite (outcome_bind_Ok cmd.get_object_list _ w4 (map_to_list (objects w4)).*1 w4)
    by reflexivity.
  (* the left fit *)
  assert (H4 : objects w4 !! n2 = Some A) by (unfold w4, w3, w2, w1; lk).
  destruct (safe_pairfit_loop_moves orc default_ntries
              (zip (fit_selection (s_model n2) m <$> [["CA"; "CH3"]; ["C"]; ["O"]])
                   (fit_selection (s_model n1) 1 <$> [["Cprev"]; ["C"]; ["O"]]))
              n2 tolerance_normal None w4 A H4)
    as (rl & f & w5 & Hleft & Hobj5 & Hreg5 & Hrl & Hfirstl).
  { repeat constructor; apply within_atomic. }
  change (fit_left orc n2 n1 m)
    with (safe_pairfit_loop orc default_ntries
            (zip (fit_selection (s_model n2) m <$> [["CA"; "CH3"]; ["C"]; ["O"]])
                 (fit_selection (s_model n1) 1 <$> [["Cprev"]; ["C"]; ["O"]]))
            (s_model n2) tolerance_normal None).
  assert (Hreg4 : same_registry w w4) by done.
  destruct Hrl as [[rmsl ->]|[[msg ->]|[[=] _]]]; cycle 1.
  { exists (Raise (RuntimeError msg)), w5. split_and!.
    - by rewrite (outcome_bind_Raise _ _ _ _ _ Hleft).
    - by eapply same_registry_trans.
    - left. by eexists.
    - intros Hall _. destruct (Hfirstl Hall) as [? [=]]. unfold default_ntries. lia. }
  rewrite (outcome_bind_Ok _ _ _ _ _ Hleft).
  (* the neighbour of the nitrogen, and the proline test *)
  assert (H5n3 : objects w5 !! n3 = Some (shifted m id B))
    by (rewrite Hobj5; unfold w4; lk).
  assert (H5n2 : objects w5 !! n2 = Some (move_model f A)) by (rewrite Hobj5; lk).
  assert (Hsel : sel_cbname n3 m = shift_sel n3 m (sel_cbname right 0)).
  { unfold sel_cbname. cbn [shift_sel]. repeat f_equal. }
  assert (Hcb5 : ∃ cb l, atom (get_model (objects w5) (sel_cbname n3 m)) = cb :: l).
  { pose proof (get_model_atoms_shifted (objects w) (objects w5) right n3 m id B
                  (sel_cbname right 0) HB H5n3) as Hlen.
    rewrite <- Hsel in Hlen.
    destruct (atom (get_model (objects w5) (sel_cbname n3 m))) as [|cb l]; [|eauto].
    exfalso. apply Hcb. apply length_zero_iff_nil. symmetry. apply Hlen.
    - cbn [only_model sel_cbname]. unfold sel_cbname. cbn [only_model].
      by rewrite String.eqb_refl.
    - unfold sel_cbname. cbn [within]. by rewrite String.eqb_refl. }
  destruct Hcb5 as (cb & l & Hcb5).
  rewrite (outcome_bind_Ok _ _ _ cb w5)
    by (rewrite (outcome_reads _ _ _ (reads_first_atom _)); by rewrite Hcb5).
  assert (Hpro5 : outcome (startsWithProline n3) w5 = (Ok pro, w5)).
  { rewrite (outcome_startsWithProline n3 w5 _ H5n3).
    by rewrite (first_is_proline_shifted m id B pro). }
  rewrite (outcome_bind_Ok _ _ _ _ _ Hpro5), (outcome_bind_Ok _ _ _ _ _ Hpro5).
  (* the right fit *)
  destruct (safe_pairfit_loop_moves orc default_ntries
              (zip (fit_selection (s_model n3) (1 + m)
                      <$> [["N"]; [if pro then "CD" else "H"]; [name cb]])
                   (fit_selection (s_model n1) 1 <$> [["N"]; ["H"]; ["Cnext"]]))
              n3 (if pro then tolerance_proline else tolerance_normal) None w5 _ H5n3)
    as (rr & g & w6 & Hright & Hobj6 & Hreg6 & Hrr & Hfirstr).
  { repeat constructor; apply within_atomic. }
  change (fit_right orc n3 n1 m pro (name cb) pro)
    with (safe_pairfit_loop orc default_ntries
            (zip (fit_selection (s_model n3) (1 + m)
                    <$> [["N"]; [if pro then "CD" else "H"]; [name cb]])
                 (fit_selection (s_model n1) 1 <$> [["N"]; ["H"]; ["Cnext"]]))
            (s_model n3) (if pro then tolerance_proline else tolerance_normal) None).
  assert (Hreg5' : same_registry w w5) by (by eapply same_registry_trans).
  destruct Hrr as [[rmsr ->]|[[msg ->]|[[=] _]]]; cycle 1.
  { exists (Raise (RuntimeError msg)), w6. split_and!.
    - by rewrite (outcome_bind_Raise _ _ _ _ _ Hright).
    - by eapply same_registry_trans.
    - left. by eexists.
    - intros Hn Hp. destruct Hfirstr as [? [=]]; [by destruct pro|].
      unfold default_ntries. lia. }
  rewrite (outcome_bind_Ok _ _ _ _ _ Hright).
  (* the fusion, the bond, and the copy under the name of the left part *)
  set (L' := move_model f A).
  set (R' := shifted m g B).
  assert (H6n3 : objects w6 !! n3 = Some R').
  { rewrite Hobj6. lk. unfold shifted. by rewrite move_model_compose. }
  assert (H6n2 : objects w6 !! n2 = Some L') by (rewrite Hobj6; lk).
  assert (HpC : picks L' m ["C"] = [iC]) by (unfold L'; by rewrite picks_move).
  assert (HpN : picks R' (1 + m) ["N"] = [iN]) by (unfold R'; by rewrite picks_shifted).
  pose proof (outcome_fuse n2 n3 m (1 + m) ["C"] ["N"] L' R' iC iN w6
                H6n2 H6n3 Hn23 HpC HpN) as Hfuse.
  rewrite (outcome_bind_Ok _ _ _ _ _ Hfuse).
  set (w7 := with_objects w6 _) in *.
  assert (H7n3 : objects w7 !! n3 = Some (merge R' L')) by (unfold w7; lk).
  pose proof (outcome_bond n3 (merge R' L') m (1 + m) ["C"] ["N"] w7 H7n3)
    as Hbond.
  rewrite (outcome_bind_Ok _ _ _ _ _ Hbond).
  set (w8 := with_objects w7 _) in *.
  rewrite outcome_copy.
  assert (HnoC : picks R' m ["C"] = []).
  { apply picks_none. intros a Ha. unfold R' in Ha. rewrite atom_shifted in Ha.
    apply list_elem_of_fmap in Ha as (b & -> & Hb).
    pose proof (min_resi_le B 1 b HminB Hb).
    change (resi_number (shift_atom m g b)) with (resi_number b + m)%Z. lia. }
  assert (HnoN : picks L' (1 + m) ["N"] = []).
  { apply picks_none. intros a Ha. unfold L', move_model in Ha. cbn [atom] in Ha.
    apply list_elem_of_fmap in Ha as (b & -> & Hb).
    pose proof (max_resi_ge A m b Hm Hb).
    change (resi_number (map_coord f b)) with (resi_number b). lia. }
  assert (Hjoined : default empty_model (objects w8 !! n3) = joined A B m f g iC iN).
  { unfold w8. lk. cbn [default from_option id]. unfold joined. fold R' L'.
    f_equal. rewrite !picks_merge, HnoC, HpC, HpN, HnoN. f_equal.
    cbn [flat_map fmap list_fmap app]. unfold R'. by rewrite shifted_length. }
  rewrite Hjoined.
  eexists _, _. split; [reflexivity|]. split_and!.
  - eapply same_registry_trans; [exact Hreg5'|].
    eapply same_registry_trans; [exact Hreg6|]. done.
  - right. split; [done|]. exists f, g.
    unfold w8, w7. cbn [objects with_objects]. rewrite Hobj6, Hobj5.
    unfold w4, w3, w2, w1. cbn [objects with_objects].
    apply map_eq. intros x.
    destruct (decide (x = n1)) as [->|?]; [by rewrite lookup_delete_eq, lookup_insert_ne|].
    rewrite lookup_delete_ne by done.
    destruct (decide (x = n2)) as [->|?]; [by rewrite lookup_delete_eq, lookup_insert_ne|].
    rewrite lookup_delete_ne by done.
    destruct (decide (x = n3)) as [->|?]; [by rewrite lookup_delete_eq, lookup_insert_ne|].
    rewrite lookup_delete_ne by done.
    destruct (decide (x = self)) as [->|?]; [by rewrite !lookup_insert_eq|].
    by rewrite !lookup_insert_ne.
  - done.
Qed.
End scratch.

(** *** The residues of the chain *)

Lemma filter_fmap_resi (h : Atom → Atom) (k i : Z) (l : list Atom) :
  (∀ a, resi_number (h a) = (resi_number a + k)%Z) →
  List.filter (λ a, (resi_number a =? i)%Z) (h <$> l)
  = h <$> List.filter (λ a, (resi_number a =? i - k)%Z) l.
Proof.
  intros Hh. induction l as [|a l IH]; [done|]. rewrite fmap_cons.
  cbn [List.filter]. rewrite Hh, IH.
  destruct (Z.eqb_spec (resi_number a + k) i), (Z.eqb_spec (resi_number a) (i - k));
    try lia; done.
Qed.

Lemma filter_resi_none (i : Z) (l : list Atom) :
  (∀ a, a ∈ l → resi_number a ≠ i) →
  List.filter (λ a, (resi_number a =? i)%Z) l = [].
Proof.
  intros Hl. induction l as [|a l IH]; [done|]. cbn [List.filter].
  destruct (Z.eqb_spec (resi_number a) i) as [Heq|_].
  - by destruct (Hl a (list_elem_of_here _ _)).
  - apply IH. intros b Hb. apply Hl. by right.
Qed.

Lemma joined_atoms A B k f g iC iN :
  atom (joined A B k f g iC iN)
  = (shift_atom k g <$> atom B) ++ (map_coord f <$> atom A).
Proof. unfold joined, merge. cbn [atom]. by rewrite atom_shifted. Qed.

Lemma joined_left A B k f g iC iN i :
  max_resi A = Ok k → min_resi B = Ok 1%Z → (i ≤ k)%Z →
  residue_atoms (joined A B k f g iC iN) i = map_coord f <$> residue_atoms A i.
Proof.
  intros HA HB Hi. unfold residue_atoms. rewrite joined_atoms, List.filter_app.
  rewrite filter_resi_none, app_nil_l.
  - rewrite (filter_fmap_resi (map_coord f) 0) by (intros; simpl; lia).
    by rewrite Z.sub_0_r.
  - intros a (b & -> & Hb)%list_elem_of_fmap.
    pose proof (min_resi_le B 1 b HB Hb).
    change (resi_number (shift_atom k g b)) with (resi_number b + k)%Z. lia.
Qed.

Lemma joined_right A B k f g iC iN i :
  max_resi A = Ok k → (k < i)%Z →
  residue_atoms (joined A B k f g iC iN) i
  = shift_atom k g <$> residue_atoms B (i - k).
Proof.
  intros HA Hi. unfold residue_atoms. rewrite joined_atoms, List.filter_app.
  rewrite (filter_resi_none i (map_coord f <$> atom A)), app_nil_r.
  - by apply filter_fmap_resi.
  - intros a (b & -> & Hb)%list_elem_of_fmap.
    pose proof (max_resi_ge A k b HA Hb).
    change (resi_number (map_coord f b)) with (resi_number b). lia.
Qed.

Lemma foldl_max_bounded (l : list Atom) (z k : Z) :
  (k ≤ z)%Z → (∀ a, a ∈ l → (resi_number a ≤ z)%Z) →
  foldl (λ m b, Z.max m (resi_number b)) z l = z.
Proof.
  revert z. induction l as [|a l IH]; intros z Hk Hl; [done|]. cbn [foldl].
  pose proof (Hl a (list_elem_of_here _ _)).
  replace (Z.max z (resi_number a)) with z by lia.
  apply IH; [done|]. intros b Hb. apply Hl. by right.
Qed.

Lemma joined_max_resi A B k n f g iC iN :
  max_resi A = Ok k → min_resi B = Ok 1%Z → max_resi B = Ok n →
  max_resi (joined A B k f g iC iN) = Ok (k + n)%Z.
Proof.
  intros HA HminB HB.
  assert (Hn : (1 ≤ n)%Z).
  { destruct (atom B) as [|b0 lb] eqn:EB;
      [by unfold max_resi in HB; rewrite EB in HB|].
    assert (Hb0 : b0 ∈ atom B) by (rewrite EB; left).
    pose proof (max_resi_ge B n b0 HB Hb0).
    pose proof (min_resi_le B 1 b0 HminB Hb0). lia. }
  pose proof (max_resi_shifted k g B n HB) as Hs.
  unfold max_resi in Hs |- *. rewrite joined_atoms. rewrite atom_shifted in Hs.
  destruct (shift_atom k g <$> atom B) as [|a l] eqn:E; [done|].
  injection Hs as Hs. cbn [app]. f_equal. rewrite foldl_app, Hs.
  rewrite (foldl_max_bounded _ _ (n + k)); [lia|lia|].
  intros a' (b & -> & Hb)%list_elem_of_fmap.
  pose proof (max_resi_ge A k b HA Hb).
  change (resi_number (map_coord f b)) with (resi_number b). lia.
Qed.

(** *** The fusion *)

Lemma tolerance_wider x :
  Qltb x tolerance_normal = true → Qltb x tolerance_proline = true.
Proof.
  rewrite !Qltb_lt. intros H. eapply Qlt_trans; [exact H|]. by vm_compute.
Qed.

Lemma outcome_count_atoms s w :
  outcome (cmd.count_atoms s) w = (Ok (count_atoms (objects w) s), w).
Proof. reflexivity. Qed.




End joining_facts.

(* ------------------------------------------------------------------ *)
(** ** The database of secondary structures: storing and finding       *)
(* ------------------------------------------------------------------ *)

Section dict_lookups.
Context {V : Type}.
Implicit Types d : list (string * V).

Lemma dict_keys_set k v d :
  dict_keys (dict_set k v d) = dict_keys d
  ∨ ((k ∉ dict_keys d) ∧ dict_keys (dict_set k v d) = dict_keys d ++ [k]).
Proof.
  induction d as [|[k0 v0] d IH]; simpl.
  - right. split; [apply not_elem_of_nil|done].
  - destruct (String.eqb_spec k0 k) as [->|Hne]; simpl; [by left|].
    destruct IH as [IH|[Hk IH]].
    + left. unfold dict_keys in *. simpl. by rewrite IH.
    + right. split.
      * unfold dict_keys. simpl. apply not_elem_of_cons. split; [done|done].
      * unfold dict_keys in *. simpl. by rewrite IH.
Qed.

Lemma dict_set_NoDup k v d : NoDup (dict_keys d) → NoDup (dict_keys (dict_set k v d)).
Proof.
  intros Hnd. destruct (dict_keys_set k v d) as [->|[Hk ->]]; [done|].
  apply NoDup_app. repeat split; [done| |apply NoDup_singleton].
  intros x Hx Hx'%list_elem_of_singleton. congruence.
Qed.

Lemma dict_update_NoDup d other :
  NoDup (dict_keys d) → NoDup (dict_keys (dict_update d other)).
Proof.
  revert d. induction other as [|[k v] o IH]; intros d Hnd; [done|].
  unfold dict_update in *. simpl. apply IH. by apply dict_set_NoDup.
Qed.

Lemma dict_get_del k k' d :
  NoDup (dict_keys d) →
  dict_get k' (dict_del k d) = if String.eqb k' k then None else dict_get k' d.
Proof.
  induction d as [|[k0 v0] d IH]; simpl; intros Hnd.
  - by destruct (String.eqb k' k).
  - apply NoDup_cons in Hnd as [Hk0 Hnd].
    destruct (String.eqb_spec k0 k) as [->|Hne]; simpl.
    + destruct (String.eqb_spec k' k) as [->|Hne'].
      * destruct (dict_get k d) eqn:E; [|done].
        exfalso. apply Hk0. apply dict_get_elem in E.
        unfold dict_keys. apply list_elem_of_fmap. by exists (k, v).
      * destruct (String.eqb_spec k k'); [congruence|done].
    + rewrite IH by done. destruct (String.eqb_spec k0 k') as [->|Hne'].
      * destruct (String.eqb_spec k' k); [congruence|done].
      * done.
Qed.

Lemma dict_del_NoDup k d : NoDup (dict_keys d) → NoDup (dict_keys (dict_del k d)).
Proof.
  induction d as [|[k0 v0] d IH]; simpl; intros Hnd; [done|].
  apply NoDup_cons in Hnd as [Hk0 Hnd].
  destruct (String.eqb_spec k0 k) as [->|Hne]; [done|].
  unfold dict_keys in *. simpl. apply NoDup_cons. split; [|by apply IH].
  intros Hin. apply Hk0.
  apply list_elem_of_fmap in Hin as [[k1 v1] [-> Hin]].
  apply list_elem_of_fmap. exists (k1, v1). split; [done|].
  clear -Hin. induction d as [|[k2 v2] d IH]; simpl in *; [done|].
  destruct (String.eqb k2 k); [by right|].
  apply elem_of_cons in Hin as [->|Hin]; [left|right; auto].
Qed.

(** [d.update(other)] for a dict [other]: its values win. *)
Lemma dict_get_update k d other :
  NoDup (dict_keys other) →
  dict_get k (dict_update d other) =
    match dict_get k other with Some v => Some v | None => dict_get k d end.
Proof.
  revert d. induction other as [|[k0 v0] o IH]; intros d Hnd; [done|].
  apply NoDup_cons in Hnd as [Hk0 Hnd].
  unfold dict_update in *. simpl. rewrite IH by done.
  rewrite text_facts.dict_get_set.
  destruct (String.eqb_spec k0 k) as [->|Hne]; [|done].
  destruct (dict_get k o) eqn:E; [|done].
  exfalso. apply Hk0. apply dict_get_elem in E.
  unfold dict_keys. apply list_elem_of_fmap. by exists (k, v).
Qed.

Lemma dict_get_Permutation k d d' :
  NoDup (dict_keys d) → d ≡ₚ d' → dict_get k d = dict_get k d'.
Proof.
  intros Hnd Hp.
  assert (Hnd' : NoDup (dict_keys d')) by (unfold dict_keys in *; by rewrite <- Hp).
  apply option_eq. intros v.
  rewrite !dict_get_Some_elem by done. by rewrite Hp.
Qed.
End dict_lookups.

Module database_facts.
Import SecondaryStructureDB SecondaryStructureDB_facts.

Lemma DEFAULT_NoDup : NoDup (dict_keys DEFAULT_HELIXTYPES).
Proof. apply (bool_decide_unpack _). vm_compute. exact I. Qed.

(** What [getAll] returns is a dict. *)
Lemma getAll_NoDup st alpha beta : NoDup (dict_keys (getAll st alpha beta)).
Proof. unfold getAll. apply dict_update_NoDup, dict_update_NoDup. constructor. Qed.

(** Looking a name up sees the stored entry. *)
Lemma getAll_lookup st k :
  NoDup (dict_keys (pref_get st DEFAULT_HELIXTYPES)) →
  dict_get k (getAll st true true) = dict_get k (pref_get st DEFAULT_HELIXTYPES).
Proof.
  intros Hnd. symmetry. apply dict_get_Permutation; [done|].
  symmetry. by apply getAll_Permutation.
Qed.

(** The preference holds a dict in every state the class can reach. *)
Lemma reachable_NoDup st :
  reachable st → NoDup (dict_keys (pref_get st DEFAULT_HELIXTYPES)).
Proof.
  induction 1 as [|c st _ IH]; [apply DEFAULT_NoDup|].
  destruct c; simpl; try done.
  - unfold __new__. destruct (_instance st); simpl; done.
  - apply dict_set_NoDup, getAll_NoDup.
  - apply dict_del_NoDup, getAll_NoDup.
  - apply dict_update_NoDup, getAll_NoDup.
Qed.

(** X1: after [add(name, phi, theta, psi)], [dihedrals(name)] returns
    the triple just stored, whether the name was new or not, and the
    angles of every other name are what they were. *)
Theorem add_then_dihedrals st name phi theta psi name' :
  NoDup (dict_keys (pref_get st DEFAULT_HELIXTYPES)) →
  dihedrals (add name phi theta psi st) name' =
    if String.eqb name name' then Ok (phi, theta, psi) else dihedrals st name'.
Proof.
  intros Hnd. unfold dihedrals.
  rewrite getAll_lookup by (apply dict_set_NoDup, getAll_NoDup).
  change (pref_get (add name phi theta psi st) DEFAULT_HELIXTYPES)
    with (dict_set name (phi, theta, psi) (getAll st true true)).
  rewrite text_facts.dict_get_set.
  destruct (String.eqb name name'); done.
Qed.

Lemma add_then_dihedrals_witness :
  dihedrals (add "mine" 1 None 2 initial) "mine" = Ok (1%Q, None, 2%Q)
  ∧ dihedrals (add "mine" 1 None 2 initial) "H14M" = dihedrals initial "H14M".
Proof.
  split.
  - exact (add_then_dihedrals initial "mine" 1 None 2 "mine" DEFAULT_NoDup).
  - exact (add_then_dihedrals initial "mine" 1 None 2 "H14M" DEFAULT_NoDup).
Defined.

(** X2: after [remove(name)], [dihedrals(name)] raises [KeyError], and
    the angles of every other name are what they were; removing a name
    that is not there changes no answer. *)
Theorem remove_then_dihedrals st name name' :
  NoDup (dict_keys (pref_get st DEFAULT_HELIXTYPES)) →
  dihedrals (remove name st) name' =
    if String.eqb name' name then Raise (KeyError name') else dihedrals st name'.
Proof.
  intros Hnd. unfold dihedrals.
  rewrite getAll_lookup by (apply dict_del_NoDup, getAll_NoDup).
  change (pref_get (remove name st) DEFAULT_HELIXTYPES)
    with (dict_del name (getAll st true true)).
  rewrite dict_get_del by apply getAll_NoDup.
  destruct (String.eqb name' name); done.
Qed.

Lemma remove_then_dihedrals_witness :
  dihedrals (remove "H14M" initial) "H14M" = Raise (KeyError "H14M")
  ∧ dihedrals (remove "H14M" initial) "H14P" = dihedrals initial "H14P"
  ∧ dihedrals (remove "absent" initial) "H14M" = dihedrals initial "H14M".
Proof.
  split; [|split].
  - exact (remove_then_dihedrals initial "H14M" "H14M" DEFAULT_NoDup).
  - exact (remove_then_dihedrals initial "H14M" "H14P" DEFAULT_NoDup).
  - exact (remove_then_dihedrals initial "absent" "H14M" DEFAULT_NoDup).
Defined.

(** X3: [addDefaults] gives every default name its default angles
    back, and keeps the entries stored under other names: it resets
    the defaults, not the database. *)
Theorem addDefaults_then_dihedrals st name :
  NoDup (dict_keys (pref_get st DEFAULT_HELIXTYPES)) →
  dihedrals (addDefaults st) name =
    match dict_get name DEFAULT_HELIXTYPES with
    | Some v => Ok v
    | None => dihedrals st name
    end.
Proof.
  intros Hnd. unfold dihedrals.
  rewrite getAll_lookup by (apply dict_update_NoDup, getAll_NoDup).
  change (pref_get (addDefaults st) DEFAULT_HELIXTYPES)
    with (dict_update (getAll st true true) DEFAULT_HELIXTYPES).
  rewrite dict_get_update by apply DEFAULT_NoDup.
  destruct (dict_get name DEFAULT_HELIXTYPES); done.
Qed.

Lemma addDefaults_then_dihedrals_witness :
  let st := add "mine" 1 None 2 (add "H14M" 0 (Some 0%Q) 0 (remove "SP" initial)) in
  dihedrals st "H14M" = Ok (0%Q, Some 0%Q, 0%Q)
  ∧ dihedrals (addDefaults st) "H14M" = dihedrals initial "H14M"
  ∧ dihedrals (addDefaults st) "mine" = Ok (1%Q, None, 2%Q).
Proof.
  intros st.
  assert (Hnd : NoDup (dict_keys (pref_get st DEFAULT_HELIXTYPES))).
  { apply reachable_NoDup.
    apply (reachable_step (CallAdd "mine" 1 None 2)).
    apply (reachable_step (CallAdd "H14M" 0 (Some 0%Q) 0)).
    apply (reachable_step (CallRemove "SP")). constructor. }
  split; [reflexivity|]. split.
  - rewrite (addDefaults_then_dihedrals st "H14M" Hnd). reflexivity.
  - rewrite (addDefaults_then_dihedrals st "mine" Hnd). reflexivity.
Defined.

(** X4: [getAll(alpha, beta)] returns the stored entries of the kinds
    asked for, those of the alpha-peptides (no [theta]) before those of
    the beta-peptides, each kind in the order of the store. *)
Theorem getAll_by_kind st alpha beta :
  NoDup (dict_keys (pref_get st DEFAULT_HELIXTYPES)) →
  getAll st alpha beta =
    (if alpha
     then List.filter (λ kv, negb (is_beta_entry kv)) (pref_get st DEFAULT_HELIXTYPES)
     else [])
    ++ (if beta
        then List.filter is_beta_entry (pref_get st DEFAULT_HELIXTYPES)
        else []).
Proof.
  intros Hnd. unfold getAll.
  set (ss := pref_get st DEFAULT_HELIXTYPES) in *.
  assert (Hperm : NoDup (dict_keys (List.filter (λ kv, negb (is_beta_entry kv)) ss
                                     ++ List.filter is_beta_entry ss))).
  { unfold dict_keys. by rewrite filter_split_Permutation. }
  unfold dict_keys in Hperm. rewrite fmap_app in Hperm.
  apply NoDup_app in Hperm as (Ha & Hab & Hb).
  destruct alpha, beta; simpl.
  - rewrite (dict_update_fresh [] _) by done. simpl.
    apply dict_update_fresh. unfold dict_keys. rewrite fmap_app.
    apply NoDup_app. done.
  - rewrite (dict_update_fresh [] _) by done. simpl. by rewrite app_nil_r.
  - rewrite (dict_update_fresh [] _) by done. done.
  - done.
Qed.

Lemma getAll_by_kind_witness :
  dict_keys (getAll initial true false)
  = ["Straight alpha"; "Alpha-helix"; "3_10-helix"; "P-beta-sheet"; "AP-beta-sheet"]
  ∧ dict_keys (getAll initial true true)
    = dict_keys (getAll initial true false) ++ dict_keys (getAll initial false true).
Proof.
  rewrite !(getAll_by_kind initial _ _ DEFAULT_NoDup). split; reflexivity.
Defined.

Lemma Qmin_list_spec x xs :
  Qmin_list x xs ∈ x :: xs ∧ ∀ y, y ∈ x :: xs → (Qmin_list x xs <= y)%Q.
Proof.
  unfold Qmin_list. revert x. induction xs as [|z xs IH]; intros x; simpl.
  - split; [left|]. intros y ->%list_elem_of_singleton. apply Qle_refl.
  - destruct (IH (if Qltb z x then z else x)) as [Hin Hle]. split.
    + apply elem_of_cons in Hin as [->|Hin].
      * destruct (Qltb z x); [right; left | left].
      * right. by right.
    + intros y Hy.
      assert (Hm : ((if Qltb z x then z else x) <= x)%Q
                   ∧ ((if Qltb z x then z else x) <= z)%Q).
      { destruct (Qltb z x) eqn:E.
        - apply Qltb_lt in E. split; [by apply Qlt_le_weak | apply Qle_refl].
        - split; [apply Qle_refl|].
          apply Qnot_lt_le. intros Hlt. apply Qltb_lt in Hlt. congruence. }
      destruct Hm as [Hx Hz].
      assert (H0 : (fold_left (λ m y0 : Q, if Qltb y0 m then y0 else m) xs
                      (if Qltb z x then z else x) <= (if Qltb z x then z else x))%Q)
        by (apply Hle; left).
      apply elem_of_cons in Hy as [->|Hy]; [by eapply Qle_trans|].
      apply elem_of_cons in Hy as [->|Hy]; [by eapply Qle_trans|].
      apply Hle. by right.
Qed.

Lemma find_diff_deviation phi theta psi tol k v kd :
  find_diff phi theta psi tol (k, v) = Some kd → kd = (k, deviation phi theta psi v).
Proof.
  destruct v as [[a0 a1] a2]. unfold find_diff, deviation.
  destruct theta, a1; try done; case_match; try done; by intros [= <-].
Qed.

(** The candidates of [find]: the names whose angles match, each with
    its deviation. *)
Lemma find_candidates st phi theta psi tol k d :
  (k, d) ∈ omap (find_diff phi theta psi tol) (getAll st true true) ↔
  ∃ v, dihedrals st k = Ok v ∧ within phi theta psi tol v
       ∧ d = deviation phi theta psi v.
Proof.
  rewrite list_elem_of_omap. unfold dihedrals. split.
  - intros [[k' v] [Hin Hfd]].
    pose proof (find_diff_deviation _ _ _ _ _ _ _ Hfd) as [= -> ->].
    exists v. split; [|split; [|done]].
    + apply (dict_get_Some_elem _ _ _ (getAll_NoDup st true true)) in Hin.
      by rewrite Hin.
    + eapply find_diff_within. by rewrite Hfd.
  - intros (v & Hget & Hw & ->). exists (k, v). split.
    + apply (dict_get_Some_elem _ _ _ (getAll_NoDup st true true)).
      destruct (dict_get k (getAll st true true)); by inversion Hget.
    + destruct (proj2 (find_diff_within phi theta psi tol k v) Hw) as [kd Hkd].
      by rewrite Hkd, (find_diff_deviation _ _ _ _ _ _ _ Hkd).
Qed.

(** [find] answers [None] when it has no candidate, and otherwise the
    name of a candidate of least deviation. *)
Lemma find_cases st phi theta psi tol :
  let diff := omap (find_diff phi theta psi tol) (getAll st true true) in
  (diff = [] ∧ find st phi theta psi tol = Ok None)
  ∨ ∃ kd, kd ∈ diff ∧ find st phi theta psi tol = Ok (Some kd.1)
          ∧ ∀ kd', kd' ∈ diff → (kd.2 <= kd'.2)%Q.
Proof.
  intros diff. unfold find. fold diff.
  destruct diff as [|d ds] eqn:Ed; [by left|]. right.
  destruct (Qmin_list_spec d.2 ds.*2) as [Hin Hle].
  set (mindiff := Qmin_list d.2 ds.*2) in *.
  assert (Hex : ∃ kd, kd ∈ d :: ds ∧ kd.2 = mindiff).
  { change (d.2 :: ds.*2) with ((d :: ds).*2) in Hin.
    apply list_elem_of_fmap in Hin as [kd [-> Hkd]]. by exists kd. }
  destruct Hex as (kd0 & Hkd0 & Hkd0').
  destruct (List.filter (λ kd : string * Q, Qeq_bool kd.2 mindiff) (d :: ds))
    as [|kd rest] eqn:Ef.
  - exfalso.
    assert (Hin0 : In kd0 (List.filter (λ kd : string * Q, Qeq_bool kd.2 mindiff) (d :: ds))).
    { apply List.filter_In. split; [by apply list_elem_of_In|].
      rewrite Hkd0'. apply Qeq_bool_iff, Qeq_refl. }
    rewrite Ef in Hin0. done.
  - exists kd.
    assert (Hin1 : In kd (List.filter (λ kd : string * Q, Qeq_bool kd.2 mindiff) (d :: ds)))
      by (rewrite Ef; left; done).
    apply List.filter_In in Hin1 as [Hin1 Heq]. apply Qeq_bool_iff in Heq.
    split; [by apply list_elem_of_In|]. split; [done|].
    intros kd' Hkd'. rewrite Heq. apply Hle.
    change (d.2 :: ds.*2) with ((d :: ds).*2).
    apply list_elem_of_fmap. by exists kd'.
Qed.




(** X7: [ssdb_add] converts its angles with [float]. Called with three
    angles it stores the entry of a beta-peptide; called with two, it
    stores the entry of an alpha-peptide, and takes the second one as
    [psi]. Either way [dihedrals] then returns what was given. *)
Theorem ssdb_add_stores st entryname phi second third p q :
  NoDup (dict_keys (pref_get st DEFAULT_HELIXTYPES)) →
  float_arg phi = Ok p → float_arg second = Ok q →
  match third with
  | None =>
      (ssdb_add entryname phi second None st).1 = Ok tt
      ∧ dihedrals (ssdb_add entryname phi second None st).2 entryname
        = Ok (p, None, q)
  | Some psi =>
      ∀ r, float_arg psi = Ok r →
        (ssdb_add entryname phi second (Some psi) st).1 = Ok tt
        ∧ dihedrals (ssdb_add entryname phi second (Some psi) st).2 entryname
          = Ok (p, Some q, r)
  end.
Proof.
  intros Hnd Hp Hq.
  assert (Hget : ∀ th ps, dihedrals (add entryname p th ps st) entryname = Ok (p, th, ps)).
  { intros th ps. unfold dihedrals.
    rewrite getAll_lookup by (apply dict_set_NoDup, getAll_NoDup).
    change (pref_get (add entryname p th ps st) DEFAULT_HELIXTYPES)
      with (dict_set entryname (p, th, ps) (getAll st true true)).
    by rewrite text_facts.dict_get_set, String.eqb_refl. }
  destruct third as [psi|].
  - intros r Hr. unfold ssdb_add. rewrite Hp, Hq, Hr. simpl. split; [done|apply Hget].
  - unfold ssdb_add. rewrite Hp, Hq. simpl. split; [done|apply Hget].
Qed.

Lemma ssdb_add_stores_witness :
  dihedrals (ssdb_add "mine" (ArgStr "-60") (ArgStr "-45.5") None initial).2 "mine"
  = Ok ((-60 # 1)%Q, None, (-91 # 2)%Q)
  ∧ dihedrals (ssdb_add "mine" (ArgStr "-60") (ArgFloat (30 # 1)) (Some (ArgStr "1e1"))
                 initial).2 "mine"
    = Ok ((-60 # 1)%Q, Some (30 # 1)%Q, (10 # 1)%Q).
Proof.
  split.
  - apply (ssdb_add_stores initial "mine" (ArgStr "-60") (ArgStr "-45.5") None
             (-60 # 1) (-91 # 2) DEFAULT_NoDup); reflexivity.
  - apply (ssdb_add_stores initial "mine" (ArgStr "-60") (ArgFloat (30 # 1))
             (Some (ArgStr "1e1")) (-60 # 1) (30 # 1) DEFAULT_NoDup);
      reflexivity.
Defined.

End database_facts.

(* ------------------------------------------------------------------ *)
(** ** The rows of the sequence editor                                 *)
(* ------------------------------------------------------------------ *)

Section python_lists.
Context {A : Type}.
Implicit Types l : list A.

Lemma py_index_nat l (k : nat) :
  (k < length l)%nat → py_index l (Z.of_nat k) = Some k.
Proof.
  intros Hk. unfold py_index.
  destruct (Z.leb_spec 0 (Z.of_nat k)); [|lia].
  destruct (Z.ltb_spec (Z.of_nat k) (Z.of_nat (length l))); [|lia].
  simpl. by rewrite Nat2Z.id.
Qed.

Lemma py_index_lt l i k : py_index l i = Some k → (k < length l)%nat.
Proof.
  unfold py_index.
  destruct (Z.leb_spec 0 i), (Z.ltb_spec i (Z.of_nat (length l))); simpl;
    try (intros [= <-]; lia);
    destruct (Z.leb_spec (- Z.of_nat (length l)) i), (Z.ltb_spec i 0); simpl;
    try done; intros [= <-]; lia.
Qed.

Lemma py_getitem_nat l (k : nat) x : l !! k = Some x → py_getitem l (Z.of_nat k) = Ok x.
Proof.
  intros Hx. unfold py_getitem.
  rewrite py_index_nat by (by eapply lookup_lt_Some). by rewrite Hx.
Qed.

Lemma py_getitem_Ok l i x :
  py_getitem l i = Ok x ↔ ∃ k, py_index l i = Some k ∧ l !! k = Some x.
Proof.
  unfold py_getitem. split.
  - destruct (py_index l i) as [k|]; [|done].
    destruct (l !! k) eqn:E; [|done]. intros [= ->]. eauto.
  - intros (k & -> & ->). done.
Qed.

Lemma py_delitem_nat l (k : nat) :
  (k < length l)%nat → py_delitem l (Z.of_nat k) = Ok (delete k l).
Proof. intros Hk. unfold py_delitem. by rewrite py_index_nat. Qed.

Lemma py_clamp_nat l (k : nat) : py_clamp l (Z.of_nat k) = (k `min` length l)%nat.
Proof.
  unfold py_clamp. destruct (Z.ltb_spec (Z.of_nat k) 0); [lia|]. lia.
Qed.

Lemma py_insert_nat l (k : nat) x :
  (k ≤ length l)%nat → py_insert l (Z.of_nat k) x = take k l ++ x :: drop k l.
Proof.
  intros Hk. unfold py_insert. rewrite py_clamp_nat.
  by replace (k `min` length l)%nat with k by lia.
Qed.

Lemma py_delslice_nat l (a n : nat) :
  py_delslice l (Z.of_nat a) (Z.of_nat a + Z.of_nat n) = take a l ++ drop (a + n) l.
Proof.
  unfold py_delslice.
  replace (Z.of_nat a + Z.of_nat n)%Z with (Z.of_nat (a + n)) by lia.
  rewrite !py_clamp_nat.
  destruct (Nat.ltb_spec (a `min` length l) ((a + n) `min` length l)) as [Hlt|Hge].
  - replace (a `min` length l)%nat with a by lia. f_equal.
    destruct (Nat.le_gt_cases (a + n) (length l)).
    + by replace ((a + n) `min` length l)%nat with (a + n)%nat by lia.
    + replace ((a + n) `min` length l)%nat with (length l) by lia.
      rewrite !drop_ge by lia. done.
  - destruct (Nat.le_gt_cases (length l) a).
    + rewrite take_ge, drop_ge by lia. by rewrite app_nil_r.
    + assert (n = 0)%nat as -> by lia. rewrite Nat.add_0_r. by rewrite take_drop.
Qed.

Lemma py_delslice_empty l (a b : Z) : (0 ≤ b)%Z → (b ≤ a)%Z → py_delslice l a b = l.
Proof.
  intros Ha Hb. unfold py_delslice.
  destruct (Nat.ltb_spec (py_clamp l a) (py_clamp l b)) as [Hlt|]; [|done].
  exfalso. revert Hlt. unfold py_clamp.
  destruct (Z.ltb_spec a 0), (Z.ltb_spec b 0); lia.
Qed.
End python_lists.

Module sequence_facts.
Import SequenceModel.
Export sequence_spec.

Lemma revalidated_residues l self : _residues (revalidated l self) = l.
Proof.
  unfold revalidated, validate. cbn [_residues].
  destruct (_ ++ _); [done|]. done.
Qed.

(** The rows of one kind in a range of rows. *)
Lemma rows_of_kind_spec self (lo hi : Z) kind (i : Z) :
  (0 ≤ lo)%Z →
  i ∈ rows_of_kind self lo hi kind ↔
  (lo ≤ i < hi)%Z
  ∧ ∃ r, _residues self !! Z.to_nat i = Some r ∧ AminoAcidResidue.kind r = kind.
Proof.
  intros Hlo. unfold rows_of_kind.
  rewrite list_elem_of_In, List.filter_In, <- list_elem_of_In, elem_of_seqZ.
  split.
  - intros [Hi Hk]. split; [lia|].
    destruct (py_getitem (_residues self) i) as [r|] eqn:E; [|done].
    apply py_getitem_Ok in E as (k & Hk1 & Hk2).
    assert (k = Z.to_nat i) as ->.
    { revert Hk1. unfold py_index.
      destruct (Z.leb_spec 0 i); [|lia].
      destruct (Z.ltb_spec i (Z.of_nat (length (_residues self)))); simpl.
      - by intros [= <-].
      - destruct (Z.leb_spec (- Z.of_nat (length (_residues self))) i),
          (Z.ltb_spec i 0); simpl; try done; lia. }
    exists r. split; [done|]. by apply String.eqb_eq.
  - intros [Hi (r & Hr & Hk)]. split; [lia|].
    replace i with (Z.of_nat (Z.to_nat i)) by lia.
    rewrite (py_getitem_nat _ _ _ Hr). by apply String.eqb_eq.
Qed.

Lemma failed_of self noraise :
  _failed (validate noraise self).2 =
    let n := Z.of_nat (length (_residues self)) in
    ((λ idx, (idx, "ACE not at the N terminus")) <$> rows_of_kind self 1 n "ACE")
    ++ ((λ idx, (idx, "BUT not at the N terminus")) <$> rows_of_kind self 1 n "BUT")
    ++ ((λ idx, (idx, "NME not at the C terminus")) <$> rows_of_kind self 0 (n - 1) "NME").
Proof.
  unfold validate. cbv zeta.
  destruct (_ ++ _) eqn:E; [done|]. by destruct noraise.
Qed.

(** X8: what [validate] finds. The list of failures holds exactly the
    rows below the first with an ACE or a BUT and the rows above the
    last with an NME, each with its reason; the sequence is valid
    afterwards exactly when there is no such row; and [validate] raises
    [BetaPeptideConsistencyError] exactly when it was not asked not to
    and the sequence is not valid. It leaves the rows as they are. *)
Theorem validate_finds_misplaced_caps noraise self :
  let out := validate noraise self in
  let l := _residues self in
  _residues out.2 = l
  ∧ (∀ (i : nat) reason,
       (Z.of_nat i, reason) ∈ _failed out.2 ↔
       ∃ r, l !! i = Some r
            ∧ ((AminoAcidResidue.kind r = "ACE" ∧ (0 < i)%nat
                ∧ reason = "ACE not at the N terminus")
               ∨ (AminoAcidResidue.kind r = "BUT" ∧ (0 < i)%nat
                  ∧ reason = "BUT not at the N terminus")
               ∨ (AminoAcidResidue.kind r = "NME" ∧ (S i < length l)%nat
                  ∧ reason = "NME not at the C terminus")))
  ∧ (isValid out.2 = true ↔ well_capped l)
  ∧ (is_ok out.1 = noraise || isValid out.2).
Proof.
  intros out l.
  assert (Hres : _residues out.2 = l).
  { unfold out, validate. cbv zeta. destruct (_ ++ _); [done|]. by destruct noraise. }
  assert (Hmem : ∀ (i : nat) reason,
       (Z.of_nat i, reason) ∈ _failed out.2 ↔
       ∃ r, l !! i = Some r
            ∧ ((AminoAcidResidue.kind r = "ACE" ∧ (0 < i)%nat
                ∧ reason = "ACE not at the N terminus")
               ∨ (AminoAcidResidue.kind r = "BUT" ∧ (0 < i)%nat
                  ∧ reason = "BUT not at the N terminus")
               ∨ (AminoAcidResidue.kind r = "NME" ∧ (S i < length l)%nat
                  ∧ reason = "NME not at the C terminus"))).
  { intros i reason. unfold out. rewrite failed_of. cbv zeta. fold l.
    rewrite !elem_of_app, !list_elem_of_fmap.
    setoid_rewrite rows_of_kind_spec; [|lia..]. fold l. split.
    - intros [(j & [= <- ->] & Hj & r & Hr & Hk)
             |[(j & [= <- ->] & Hj & r & Hr & Hk)
              |(j & [= <- ->] & Hj & r & Hr & Hk)]];
        rewrite Nat2Z.id in Hr; exists r; (split; [done|]).
      + left. repeat split; [done|lia].
      + right. left. repeat split; [done|lia].
      + right. right. repeat split; [done|lia].
    - intros (r & Hr & [(Hk & Hi & ->)|[(Hk & Hi & ->)|(Hk & Hi & ->)]]).
      + left. exists (Z.of_nat i). split; [done|]. split; [|].
        * apply lookup_lt_Some in Hr. lia.
        * exists r. by rewrite Nat2Z.id.
      + right. left. exists (Z.of_nat i). split; [done|]. split; [|].
        * apply lookup_lt_Some in Hr. lia.
        * exists r. by rewrite Nat2Z.id.
      + right. right. exists (Z.of_nat i). split; [done|]. split; [lia|].
        exists r. by rewrite Nat2Z.id. }
  assert (Hnat : ∀ j reason, (j, reason) ∈ _failed out.2 → (0 ≤ j)%Z).
  { intros j reason. unfold out. rewrite failed_of. cbv zeta.
    rewrite !elem_of_app, !list_elem_of_fmap.
    setoid_rewrite rows_of_kind_spec; [|lia..].
    intros [(? & [= <- ->] & ? & _)|[(? & [= <- ->] & ? & _)|(? & [= <- ->] & ? & _)]]; lia. }
  assert (Hvalid : isValid out.2 = true ↔ well_capped l).
  { unfold isValid. split.
    - intros Hv i r Hr. destruct (_failed out.2) as [|f fs] eqn:Ef; [|done].
      split.
      + intros Hk. destruct i as [|i]; [done|]. exfalso.
        destruct Hk as [Hk|Hk].
        * assert (Hin : (Z.of_nat (S i), "ACE not at the N terminus") ∈ @nil (Z * string)).
          { apply Hmem. exists r. split; [done|]. left. repeat split; [done|lia]. }
          by apply elem_of_nil in Hin.
        * assert (Hin : (Z.of_nat (S i), "BUT not at the N terminus") ∈ @nil (Z * string)).
          { apply Hmem. exists r. split; [done|]. right. left.
            repeat split; [done|lia]. }
          by apply elem_of_nil in Hin.
      + intros Hk. apply lookup_lt_Some in Hr as Hlt.
        destruct (decide (S i = length l)) as [|Hne]; [done|]. exfalso.
        assert (Hin : (Z.of_nat i, "NME not at the C terminus") ∈ @nil (Z * string)).
        { apply Hmem. exists r. split; [done|]. right. right.
          repeat split; [done|lia]. }
        by apply elem_of_nil in Hin.
    - intros Hw. destruct (_failed out.2) as [|[j reason] fs] eqn:Ef; [done|]. exfalso.
      assert (Hin : (j, reason) ∈ (j, reason) :: fs) by left.
      pose proof (Hnat j reason Hin) as Hj.
      pose proof (proj1 (Hmem (Z.to_nat j) reason)) as Hm.
      rewrite Z2Nat.id in Hm by lia.
      destruct (Hm Hin) as (r & Hr & Hcases).
      destruct (Hw _ _ Hr) as [Hfirst Hlast].
      destruct Hcases as [(Hk & Hi & _)|[(Hk & Hi & _)|(Hk & Hi & _)]].
      + specialize (Hfirst (or_introl Hk)). lia.
      + specialize (Hfirst (or_intror Hk)). lia.
      + specialize (Hlast Hk). lia. }
  split; [done|]. split; [done|]. split; [done|].
  unfold out, validate, isValid. cbv zeta.
  destruct (_ ++ _); cbn [_failed fst snd]; [by rewrite orb_true_r|].
  destruct noraise; done.
Qed.

Lemma take_out_nat self (k : nat) x :
  _residues self !! k = Some x →
  take_out (Z.of_nat k) self = Ok (x, delete k (_residues self)).
Proof.
  intros Hx. unfold take_out.
  rewrite (py_getitem_nat _ _ _ Hx). cbn [rbind].
  rewrite py_delitem_nat by (by eapply lookup_lt_Some). done.
Qed.

Lemma take_out_index self (row : Z) k x :
  py_index (_residues self) row = Some k → _residues self !! k = Some x →
  take_out row self = Ok (x, delete k (_residues self)).
Proof.
  intros Hk Hx. unfold take_out, py_getitem, py_delitem. by rewrite Hk, Hx.
Qed.

Lemma take_out_none self (row : Z) :
  py_index (_residues self) row = None →
  take_out row self = Raise (IndexError "list index out of range").
Proof. intros Hk. unfold take_out, py_getitem. by rewrite Hk. Qed.

(** X9: [moveDown(row)] swaps a row with the next one and returns the
    row the residue is in now; [moveUp] on that row puts the rows back
    as they were. In the last row [moveDown] does nothing, and neither
    does [moveUp] in the first. *)
Theorem moveDown_then_moveUp self (row : nat) l1 x y l2 :
  _residues self = l1 ++ x :: y :: l2 → length l1 = row →
  let down := moveDown (Z.of_nat row) self in
  down.1 = Ok (Z.of_nat row + 1)%Z
  ∧ _residues down.2 = l1 ++ y :: x :: l2
  ∧ (moveUp (Z.of_nat row + 1) down.2).1 = Ok (Z.of_nat row)
  ∧ _residues (moveUp (Z.of_nat row + 1) down.2).2 = _residues self.
Proof.
  intros Hl Hrow down.
  assert (Hx : _residues self !! row = Some x).
  { rewrite Hl, <- Hrow. by rewrite list_lookup_middle. }
  assert (Hdel : delete row (_residues self) = l1 ++ y :: l2).
  { rewrite Hl, <- Hrow. by rewrite delete_middle. }
  assert (Hdown : down = (Ok (Z.of_nat row + 1)%Z,
                          revalidated (l1 ++ y :: x :: l2) self)).
  { unfold down, moveDown. rewrite Hl at 1.
    rewrite length_app. cbn [length].
    destruct (Z.leb_spec (Z.of_nat (length l1 + S (S (length l2))) - 1) (Z.of_nat row));
      [lia|].
    rewrite (take_out_nat _ _ _ Hx), Hdel. f_equal. f_equal.
    replace (Z.of_nat row + 1)%Z with (Z.of_nat (S row)) by lia.
    rewrite py_insert_nat by (rewrite length_app; simpl; lia).
    rewrite <- Hrow.
    change (l1 ++ y :: l2) with (l1 ++ [y] ++ l2).
    rewrite app_assoc.
    rewrite take_app_length' by (rewrite length_app; simpl; lia).
    rewrite drop_app_length' by (rewrite length_app; simpl; lia).
    by rewrite <- app_assoc. }
  rewrite Hdown. cbn [fst snd]. rewrite revalidated_residues.
  split; [done|]. split; [done|].
  set (self' := revalidated (l1 ++ y :: x :: l2) self).
  assert (Hx' : _residues self' !! S row = Some x).
  { unfold self'. rewrite revalidated_residues.
    change (l1 ++ y :: x :: l2) with (l1 ++ [y] ++ x :: l2). rewrite app_assoc.
    rewrite <- Hrow.
    replace (S (length l1)) with (length (l1 ++ [y])) by (rewrite length_app; simpl; lia).
    by rewrite list_lookup_middle. }
  assert (Hdel' : delete (S row) (_residues self') = l1 ++ y :: l2).
  { unfold self'. rewrite revalidated_residues.
    change (l1 ++ y :: x :: l2) with (l1 ++ [y] ++ x :: l2). rewrite app_assoc.
    rewrite <- Hrow.
    replace (S (length l1)) with (length (l1 ++ [y])) by (rewrite length_app; simpl; lia).
    rewrite delete_middle. by rewrite <- app_assoc. }
  unfold moveUp.
  destruct (Z.leb_spec (Z.of_nat row + 1) 0); [lia|].
  replace (Z.of_nat row + 1)%Z with (Z.of_nat (S row)) by lia.
  rewrite (take_out_nat _ _ _ Hx'), Hdel'. cbn [fst snd].
  rewrite revalidated_residues.
  split; [f_equal; lia|].
  replace (Z.of_nat (S row) - 1)%Z with (Z.of_nat row) by lia.
  rewrite py_insert_nat by (rewrite length_app; simpl; lia).
  rewrite <- Hrow, take_app_length, drop_app_length. by rewrite Hl.
Qed.

Lemma moveDown_then_moveUp_witness :
  let self := Make [example.row_ace; example.row_ala; example.row_nme] [] in
  (moveDown 1 self).1 = Ok 2%Z
  ∧ _residues (moveDown 1 self).2 = [example.row_ace; example.row_nme; example.row_ala]
  ∧ (moveUp 2 (moveDown 1 self).2).1 = Ok 1%Z
  ∧ _residues (moveUp 2 (moveDown 1 self).2).2
    = [example.row_ace; example.row_ala; example.row_nme].
Proof.
  intros self.
  exact (moveDown_then_moveUp self 1 [example.row_ace] example.row_ala
           example.row_nme [] eq_refl eq_refl).
Defined.

(** X10: [moveToTop(row)] and [moveToBottom(row)] take the residue of a
    row out and put it first, or last, keeping the order of the others,
    and return the row it is in now. The row may be counted from the
    end, as Python does with a negative index. *)
Theorem move_to_ends self (row : Z) l1 x l2 :
  _residues self = l1 ++ x :: l2 →
  row = Z.of_nat (length l1) ∨ row = (- Z.of_nat (S (length l2)))%Z →
  (moveToTop row self).1 = Ok 0%Z
  ∧ _residues (moveToTop row self).2 = x :: l1 ++ l2
  ∧ (moveToBottom row self).1 = Ok (Z.of_nat (length l1 + length l2))
  ∧ _residues (moveToBottom row self).2 = l1 ++ l2 ++ [x].
Proof.
  intros Hl Hrow.
  assert (Hk : py_index (_residues self) row = Some (length l1)).
  { rewrite Hl. destruct Hrow as [->| ->].
    - apply py_index_nat. rewrite length_app. simpl. lia.
    - unfold py_index. rewrite length_app. cbn [length].
      destruct (Z.leb_spec 0 (- Z.of_nat (S (length l2)))); [lia|].
      cbn [andb].
      destruct (Z.leb_spec (- Z.of_nat (length l1 + S (length l2)))
                  (- Z.of_nat (S (length l2)))); [|lia].
      destruct (Z.ltb_spec (- Z.of_nat (S (length l2))) 0); [|lia].
      cbn [andb]. f_equal. lia. }
  assert (Hx : _residues self !! length l1 = Some x).
  { rewrite Hl. by rewrite list_lookup_middle. }
  assert (Hdel : delete (length l1) (_residues self) = l1 ++ l2).
  { rewrite Hl. by rewrite delete_middle. }
  unfold moveToTop, moveToBottom.
  rewrite (take_out_index _ _ _ _ Hk Hx), Hdel. cbn [fst snd].
  rewrite !revalidated_residues.
  split; [done|]. split.
  { change 0%Z with (Z.of_nat 0). rewrite py_insert_nat by lia. done. }
  split.
  - f_equal. rewrite !length_app. simpl. lia.
  - by rewrite <- app_assoc.
Qed.

Lemma move_to_ends_witness :
  let self := Make [example.row_ace; example.row_ala; example.row_nme] [] in
  _residues (moveToTop (-1) self).2 = [example.row_nme; example.row_ace; example.row_ala]
  ∧ (moveToBottom 0 self).1 = Ok 2%Z
  ∧ _residues (moveToBottom 0 self).2 = [example.row_ala; example.row_nme; example.row_ace].
Proof.
  intros self. split; [|split].
  - apply (move_to_ends self (-1) [example.row_ace; example.row_ala] example.row_nme []
             eq_refl). by right.
  - apply (move_to_ends self 0 [] example.row_ace [example.row_ala; example.row_nme]
             eq_refl). by left.
  - apply (move_to_ends self 0 [] example.row_ace [example.row_ala; example.row_nme]
             eq_refl). by left.
Defined.

(** X11: [removeRows(row, count)] removes the [count] rows from [row]
    on, or as many of them as there are, and never raises; whereas
    [removeRow(row)] raises [IndexError], changing nothing, when there
    is no such row. *)
Theorem removeRows_removes self (row count : nat) :
  (removeRows (Z.of_nat row) (Z.of_nat count) self).1 = Ok tt
  ∧ _residues (removeRows (Z.of_nat row) (Z.of_nat count) self).2
    = take row (_residues self) ++ drop (row + count) (_residues self)
  ∧ removeRow (Z.of_nat row) self
    = if (row <? length (_residues self))%nat
      then (Ok tt, revalidated (delete row (_residues self)) self)
      else (Raise (IndexError "list assignment index out of range"), self).
Proof.
  split; [done|]. split.
  - unfold removeRows. cbn [snd]. rewrite revalidated_residues.
    apply py_delslice_nat.
  - unfold removeRow. destruct (Nat.ltb_spec row (length (_residues self))) as [Hlt|Hge].
    + by rewrite py_delitem_nat.
    + unfold py_delitem, py_index.
      destruct (Z.leb_spec 0 (Z.of_nat row)); [|lia].
      destruct (Z.ltb_spec (Z.of_nat row) (Z.of_nat (length (_residues self)))); [lia|].
      cbn [andb].
      destruct (Z.ltb_spec (Z.of_nat row) 0); [lia|]. by rewrite andb_false_r.
Qed.

(** X12: [insert(row, ...)] makes the residue with the constructor and
    puts it in the row given, before what was there, so that
    [residue(row)] returns it and there is one row more; [append] puts
    it last. A residue the constructor refuses is not put in: the
    exception is passed on and the rows stay as they were. *)
Theorem insert_then_residue db (row : nat) kind stereo2 sidechain2 stereo3 sidechain3
    dihedrals self :
  (row ≤ length (_residues self))%nat →
  match AminoAcidResidue.__init__ db kind stereo2 sidechain2 stereo3 sidechain3
          dihedrals with
  | Ok r =>
      let out := insert db (Z.of_nat row) kind stereo2 sidechain2 stereo3 sidechain3
                   dihedrals self in
      out.1 = Ok tt
      ∧ _residues out.2 = take row (_residues self) ++ r :: drop row (_residues self)
      ∧ residue (Z.of_nat row) out.2 = Ok r
      ∧ rowCount out.2 = (rowCount self + 1)%Z
      ∧ _residues (append db kind stereo2 sidechain2 stereo3 sidechain3 dihedrals self).2
        = _residues self ++ [r]
  | Raise e =>
      insert db (Z.of_nat row) kind stereo2 sidechain2 stereo3 sidechain3 dihedrals self
      = (Raise e, self)
      ∧ append db kind stereo2 sidechain2 stereo3 sidechain3 dihedrals self
        = (Raise e, self)
  end.
Proof.
  intros Hrow. unfold insert, append.
  destruct (AminoAcidResidue.__init__ _ _ _ _ _ _ _) as [r|e]; [|done].
  cbn [fst snd]. rewrite !revalidated_residues, py_insert_nat by done.
  split; [done|]. split; [done|].
  assert (Hlen : length (take row (_residues self)) = row) by (rewrite length_take; lia).
  split; [|split; [|done]].
  - unfold residue. rewrite revalidated_residues. apply py_getitem_nat.
    rewrite <- Hlen at 1. by rewrite list_lookup_middle.
  - unfold rowCount. rewrite revalidated_residues, length_app. cbn [length].
    rewrite length_take, length_drop. lia.
Qed.

Lemma insert_then_residue_witness :
  let self := Make [example.row_ace; example.row_nme] [] in
  let out := insert SecondaryStructureDB.initial 1 "A" "L" "A" "" ""
               (AminoAcidResidue.DihName "Straight alpha") self in
  AminoAcidResidue.__init__ SecondaryStructureDB.initial "A" "L" "A" "" ""
    (AminoAcidResidue.DihName "Straight alpha") = Ok example.row_ala
  ∧ _residues out.2 = [example.row_ace; example.row_ala; example.row_nme]
  ∧ residue 1 out.2 = Ok example.row_ala.
Proof.
  intros self out. split; [reflexivity|].
  pose proof (insert_then_residue SecondaryStructureDB.initial 1 "A" "L" "A" "" ""
                (AminoAcidResidue.DihName "Straight alpha") self) as H.
  change (AminoAcidResidue.__init__ SecondaryStructureDB.initial "A" "L" "A" "" ""
            (AminoAcidResidue.DihName "Straight alpha")) with (Ok example.row_ala) in H.
  destruct H as (_ & Hres & Hget & _); [simpl; lia|].
  split; [exact Hres | exact Hget].
Defined.

(** X13: assigning a kind to a residue leaves it with the angles its new
    kind asks for -- two for an alpha residue, three for a beta residue,
    none for a capping group -- so that the [dihedrals] setter accepts
    them; angles that already were as many as needed are kept, and the
    others are replaced by 180 degrees each. *)
Theorem set_kind_fits value self self' :
  AminoAcidResidue.set_kind value self = Ok self' →
  AminoAcidResidue._dihedrals self ≠ Some [] →
  AminoAcidResidue.kind self' = value
  ∧ fits value (AminoAcidResidue._dihedrals self')
  ∧ AminoAcidResidue.set_dihedrals (AminoAcidResidue._dihedrals self') self' = Ok self'
  ∧ (fits value (AminoAcidResidue._dihedrals self) →
     AminoAcidResidue._dihedrals self' = AminoAcidResidue._dihedrals self)
  ∧ (¬ fits value (AminoAcidResidue._dihedrals self) →
     ∀ d, AminoAcidResidue._dihedrals self' = Some d →
          Forall (λ a, a = Some (180 # 1)%Q) d).
Proof.
  unfold AminoAcidResidue.set_kind.
  destruct (in_list value AminoAcidResidue.KINDS) eqn:Hkind; [|done].
  cbn [negb]. apply text_facts.in_list_cases in Hkind.
  destruct self as [k s2 s3 sc3 sc2 d]. cbn [AminoAcidResidue._stereo2
    AminoAcidResidue._stereo3 AminoAcidResidue._sidechain2 AminoAcidResidue._sidechain3
    AminoAcidResidue._dihedrals AminoAcidResidue._kind].
  intros Hset Hd.
  assert (Hshape : d = None ∨ (∃ a, d = Some [a]) ∨ (∃ a b, d = Some [a; b])
                   ∨ (∃ a b c, d = Some [a; b; c])
                   ∨ (∃ a b c e l, d = Some (a :: b :: c :: e :: l))).
  { destruct d as [[|a [|b [|c [|e l]]]]|]; eauto 10. done. }
  unfold AminoAcidResidue.KINDS in Hkind.
  repeat (apply elem_of_cons in Hkind as [->|Hkind]);
    [..|by apply elem_of_nil in Hkind].
  all: destruct Hshape
         as [->|[(a & ->)|[(a & b & ->)|[(a & b & c & ->)|(a & b & c & e & l & ->)]]]].
  all: cbn in Hset; injection Hset as <-.
  all: unfold fits, AminoAcidResidue.set_dihedrals, AminoAcidResidue.kind; cbn.
  all: repeat split; eauto.
  all: try (intros (? & ? & ?); simplify_eq; done).
  all: try (intros (? & ? & ? & ?); simplify_eq; done).
  all: try (intros ?; simplify_eq; done).
  all: try (intros Hn; exfalso; apply Hn; by eauto).
  all: try (intros Hn d' [= <-]; by repeat constructor).
Qed.

Lemma set_kind_fits_witness :
  let self' := AminoAcidResidue.Make "B3" "S" "S" "A" "A"
                 (Some [Some (180 # 1)%Q; Some (180 # 1)%Q; Some (180 # 1)%Q]) in
  AminoAcidResidue.set_kind "B3" example.row_ala = Ok self'
  ∧ fits "B3" (AminoAcidResidue._dihedrals self')
  ∧ AminoAcidResidue.set_dihedrals (AminoAcidResidue._dihedrals self') self' = Ok self'.
Proof.
  intros self'.
  assert (Hset : AminoAcidResidue.set_kind "B3" example.row_ala = Ok self') by reflexivity.
  split; [exact Hset|].
  destruct (set_kind_fits "B3" example.row_ala self' Hset) as (_ & Hf & Hs & _);
    [done|].
  split; [exact Hf | exact Hs].
Defined.

End sequence_facts.

(* ------------------------------------------------------------------ *)
(** ** Telling alpha from beta residues, and folding them              *)
(* ------------------------------------------------------------------ *)

Module folding_facts.
Import pymol utils BetaPeptide checkPeptide_facts joining_facts.
Export folding_spec.

Lemma reads_isAlphaResidue self residue :
  reads (isAlphaResidue self residue)
        (λ w, Ok (alpha_shape (objects w) self residue)).
Proof.
  intros w. unfold isAlphaResidue, alpha_shape, backbone_shape, cmd.count_atoms,
    bind, emit, get_world, ret. cbn [fst snd].
  destruct (_ =? 5)%nat; cbn [negb andb]; [|by eexists].
  destruct (count_atoms (objects w) (sel_bonded self residue "N" "H") =? 1)%nat;
    cbn [negb andb]; [|by eexists].
  destruct (count_atoms (objects w) (sel_bonded self residue "C" "CA") =? 1)%nat;
    cbn [negb andb]; [|by eexists].
  destruct (count_atoms (objects w) (sel_between self residue "C" "N" ["CA"]) =? 1)%nat;
    cbn [negb andb]; [by eexists|].
  destruct (_ =? 1)%nat; by eexists.
Qed.

Lemma reads_isBetaResidue self residue :
  reads (isBetaResidue self residue)
        (λ w, Ok (beta_shape (objects w) self residue)).
Proof.
  intros w. unfold isBetaResidue, beta_shape, backbone_shape, cmd.count_atoms,
    bind, emit, get_world, ret. cbn [fst snd].
  destruct (_ =? 5)%nat; cbn [negb andb]; [|by eexists].
  destruct (count_atoms (objects w) (sel_bonded self residue "N" "H") =? 1)%nat;
    cbn [negb andb]; [|by eexists].
  destruct (count_atoms (objects w) (sel_bonded self residue "C" "CA") =? 1)%nat;
    cbn [negb andb]; [|by eexists].
  destruct (count_atoms (objects w) (sel_between self residue "C" "N" ["CA"]) =? 1)%nat;
    cbn [negb andb]; [by eexists|].
  destruct (_ =? 1)%nat; by eexists.
Qed.

(** X14: [isAlphaResidue] and [isBetaResidue] only count atoms: they
    never raise and leave the session as it was. No residue is both
    alpha and beta (it may be neither, as a capping group is). *)
Theorem alpha_or_beta_not_both self residue w :
  outcome (isAlphaResidue self residue) w = (Ok (alpha_shape (objects w) self residue), w)
  ∧ outcome (isBetaResidue self residue) w = (Ok (beta_shape (objects w) self residue), w)
  ∧ alpha_shape (objects w) self residue && beta_shape (objects w) self residue = false.
Proof.
  split; [|split].
  - apply (outcome_reads _ (λ w, Ok (alpha_shape (objects w) self residue))),
      reads_isAlphaResidue.
  - apply (outcome_reads _ (λ w, Ok (beta_shape (objects w) self residue))),
      reads_isBetaResidue.
  - unfold alpha_shape, beta_shape.
    destruct (backbone_shape _ _ _); [|done].
    by destruct (_ =? 1)%nat.
Qed.

Lemma set_dihedral_returns orc modelname nr1 nr2 nr3 nr4 value w :
  ∃ b w', outcome (set_dihedral orc modelname nr1 nr2 nr3 nr4 value) w = (Ok b, w').
Proof.
  unfold outcome, set_dihedral.
  set (s1 := atom_selection modelname nr1). set (s2 := atom_selection modelname nr2).
  set (s3 := atom_selection modelname nr3). set (s4 := atom_selection modelname nr4).
  assert (Hcounts : map_M cmd.count_atoms [s1; s2; s3; s4] w
                    = (Ok (count_atoms (objects w) <$> [s1; s2; s3; s4]), w,
                       [e_count_atoms s1; e_count_atoms s2; e_count_atoms s3;
                        e_count_atoms s4])).
  { destruct w. reflexivity. }
  erewrite bind_Ok by exact Hcounts.
  destruct (negb _); [by eexists _, _|].
  destruct w. by eexists _, _.
Qed.

Lemma outcome_lift {A B} (r : result A) (k : A → M B) w :
  outcome (bind (lift r) k) w
  = match r with Ok a => outcome (k a) w | Raise e => (Raise e, w) end.
Proof.
  unfold outcome, bind, lift. destruct r as [a|e]; [|done].
  by destruct (k a w) as [[??]?].
Qed.

Lemma py_getitem_beyond {A} (l : list A) (k : nat) :
  (length l ≤ k)%nat →
  py_getitem l (Z.of_nat k) = Raise (IndexError "list index out of range").
Proof.
  intros Hk. unfold py_getitem, py_index.
  destruct (Z.leb_spec 0 (Z.of_nat k)); [|lia].
  destruct (Z.ltb_spec (Z.of_nat k) (Z.of_nat (length l))); [lia|].
  cbn [andb]. destruct (Z.ltb_spec (Z.of_nat k) 0); [lia|]. by rewrite andb_false_r.
Qed.

Ltac run_set_dihedral :=
  match goal with
  | |- context [outcome (bind (set_dihedral ?o ?m ?a ?b ?c ?d ?v) ?k) ?w] =>
      let H := fresh "Hset" in
      destruct (set_dihedral_returns o m a b c d v w) as (? & ? & H);
      rewrite (outcome_bind_Ok _ k w _ _ H)
  end.

Ltac run_getitem n :=
  rewrite outcome_lift;
  match goal with
  | |- context [py_getitem ?l (Z.of_nat n)] =>
      first [ rewrite (py_getitem_nat l n _ eq_refl)
            | rewrite (py_getitem_beyond l n) by (simpl; lia) ]
  end.

(** X15: how [fold] ends, for a list of angles. On an alpha residue it
    needs two angles, on a beta residue three, takes them from the front
    of the list and returns; with fewer it raises [IndexError] (having
    set the torsions it had angles for). On a residue that is neither it
    raises [ValueError] and leaves the session as it was. It never
    raises for a torsion whose atoms are missing. *)
Theorem fold_outcome orc self residue dihedrals w :
  (outcome (fold orc self residue dihedrals) w).1
  = (if alpha_shape (objects w) self residue
     then if (2 <=? length dihedrals)%nat then Ok tt else too_few
     else if beta_shape (objects w) self residue
     then if (3 <=? length dihedrals)%nat then Ok tt else too_few
     else Raise (ValueError ("Residue " +:+ str_Z residue
                             +:+ " is neither an alpha-, nor a beta-amino acid")))
  ∧ (alpha_shape (objects w) self residue = false →
     beta_shape (objects w) self residue = false →
     (outcome (fold orc self residue dihedrals) w).2 = w).
Proof.
  unfold fold.
  rewrite (outcome_bind_Ok _ _ w (alpha_shape (objects w) self residue) w)
    by apply (outcome_reads _ (λ w, Ok (alpha_shape (objects w) self residue))),
         reads_isAlphaResidue.
  destruct (alpha_shape (objects w) self residue).
  { split; [|done].
    change 0%Z with (Z.of_nat 0). change 1%Z with (Z.of_nat 1).
    destruct dihedrals as [|phi [|psi l]].
    - run_getitem 0%nat. done.
    - run_getitem 0%nat. run_set_dihedral. run_getitem 1%nat. done.
    - run_getitem 0%nat. run_set_dihedral. run_getitem 1%nat. run_set_dihedral.
      done. }
  rewrite (outcome_bind_Ok _ _ w (beta_shape (objects w) self residue) w)
    by apply (outcome_reads _ (λ w, Ok (beta_shape (objects w) self residue))),
         reads_isBetaResidue.
  destruct (beta_shape (objects w) self residue); [|done].
  split; [|done].
  change 0%Z with (Z.of_nat 0). change 1%Z with (Z.of_nat 1).
  change 2%Z with (Z.of_nat 2).
  destruct dihedrals as [|phi [|theta [|psi l]]].
  - run_getitem 0%nat. done.
  - run_getitem 0%nat. run_set_dihedral. run_getitem 1%nat. done.
  - run_getitem 0%nat. run_set_dihedral. run_getitem 1%nat. run_set_dihedral.
    run_getitem 2%nat. done.
  - run_getitem 0%nat. run_set_dihedral. run_getitem 1%nat. run_set_dihedral.
    run_getitem 2%nat. run_set_dihedral. done.
Qed.

Lemma fold_outcome_witness :
  (outcome (fold example.host "right" 1 [(-57 # 1)%Q; (-47 # 1)%Q]) example.session).1
  = Ok tt
  ∧ (outcome (fold example.host "right" 1 [(-57 # 1)%Q]) example.session).1 = too_few
  ∧ outcome (fold example.host "left" 1 [(-57 # 1)%Q; (-47 # 1)%Q]) example.session
    = (Raise (ValueError "Residue 1 is neither an alpha-, nor a beta-amino acid"),
       example.session).
Proof.
  split; [|split].
  - rewrite (proj1 (fold_outcome example.host "right" 1 _ example.session)).
    vm_compute. reflexivity.
  - rewrite (proj1 (fold_outcome example.host "right" 1 _ example.session)).
    vm_compute. reflexivity.
  - destruct (fold_outcome example.host "left" 1 [(-57 # 1)%Q; (-47 # 1)%Q]
                example.session) as [H1 H2].
    destruct (outcome _ _) as [r w']. cbn [fst snd] in *. f_equal.
    + rewrite H1. vm_compute. reflexivity.
    + apply H2; vm_compute; reflexivity.
Defined.

End folding_facts.

(* ------------------------------------------------------------------ *)
(** ** Residue names                                                 *)
(* ------------------------------------------------------------------ *)

Module naming_facts.
Import BetaPeptide.

(** X16: the residue name of a beta residue tells which of its two
    carbons carry a side chain, and which side chain when only one
    does: no other pair of side-chain codes gets the name of a residue
    with at most one side chain. It does not tell apart all residues
    with two side chains: two different pairs of known codes get the
    same name. *)
Theorem betaResidueName_clash :
  (∀ sc2 sc3 sc2' sc3',
     sc2 = "G" ∨ sc3 = "G" →
     betaResidueName (Some sc2) (Some sc3) = betaResidueName (Some sc2') (Some sc3') →
     sc2 = sc2' ∧ sc3 = sc3')
  ∧ ∃ sc2 sc3 sc2' sc3',
      Forall (λ sc, sc ∈ dict_keys SIDECHAINS) [sc2; sc3; sc2'; sc3']
      ∧ sc2 ≠ sc2'
      ∧ betaResidueName (Some sc2) (Some sc3) = betaResidueName (Some sc2') (Some sc3').
Proof.
  split.
  - intros sc2 sc3 sc2' sc3' Hplain. unfold betaResidueName.
    cbn [default from_option id].
    destruct (String.eqb_spec sc2 "G"), (String.eqb_spec sc3 "G"),
      (String.eqb_spec sc2' "G"), (String.eqb_spec sc3' "G");
      cbn [andb]; subst;
      rewrite ?text_facts.append_cons, ?text_facts.append_nil_l;
      intros Heq; simplify_eq; try done.
    by destruct Hplain.
  - exists "D", "HD", "DH", "D". split; [|split; [done|reflexivity]].
    repeat constructor; apply (bool_decide_unpack _); vm_compute; exact I.
Qed.

Lemma betaResidueName_clash_witness :
  betaResidueName (Some "G") (Some "V") = "B3V"
  ∧ ("G" = "G" ∧ "V" = "V")
  ∧ betaResidueName (Some "D") (Some "HD") = betaResidueName (Some "DH") (Some "D").
Proof.
  split; [reflexivity|]. split; [|reflexivity].
  apply (proj1 betaResidueName_clash "G" "V" "G" "V"); [by left|reflexivity].
Defined.

End naming_facts.

(* ------------------------------------------------------------------ *)
(** ** The consistency check: numbering and amide bonds                *)
(* ------------------------------------------------------------------ *)

Module chain_facts.
Import pymol utils BetaPeptide pymol_facts fusion_facts checkPeptide_facts joining_facts.

(** A residue number no atom carries has no residue name. *)
Lemma resname_of_gap objs self m i :
  objs !! self = Some m → (∀ a, a ∈ atom m → resi_number a ≠ i) →
  resname_of objs self i = Raise (IndexError "list index out of range").
Proof.
  intros Hm Hgap. unfold resname_of.
  rewrite (get_model_within objs self _ m) by (done || (cbn; by rewrite String.eqb_refl)).
  unfold get_model_in. cbn [atom].
  assert (Hnone : selected_in objs (sel_residue self i) self m = []).
  { unfold selected_in. apply filter_false_nil. intros j.
    unfold sel_residue. cbn [selects]. rewrite Hm, String.eqb_refl.
    cbn [default from_option id andb]. unfold atom_test.
    destruct (atom m !! j) as [a|] eqn:E; [|done].
    apply list_elem_of_lookup_2 in E. specialize (Hgap a E).
    by destruct (Z.eqb_spec (resi_number a) i). }
  by rewrite Hnone.
Qed.

(** X17: what a peptide that passes [checkPeptide] is, besides the
    neighbour rules: its residues are numbered from 1 without a gap;
    every residue after the first, unless it is a proline, has one amide
    hydrogen on its nitrogen, which is bonded to one carbonyl carbon of
    the residue before; and every residue before the last has one oxygen
    on its carbonyl carbon, which is bonded to one nitrogen of the
    residue after. The check leaves the session as it was. *)
Theorem passing_peptide_is_contiguous self w m :
  objects w !! self = Some m →
  (checkPeptide self w).1.1 = Ok tt →
  let objs := objects w in
  outcome (checkPeptide self) w = (Ok tt, w)
  ∧ min_resi m = Ok 1%Z
  ∧ ∃ mx, max_resi m = Ok mx
    ∧ ∀ i, (1 ≤ i ≤ mx)%Z →
        ∃ resname, resname_of objs self i = Ok resname
          ∧ ((1 < i)%Z → resname ∉ ["PRO"; "DPRO"] →
               count_atoms objs (sel_hcount self i) = 1%nat
               ∧ count_atoms objs (sel_ccount self i) = 1%nat)
          ∧ ((i < mx)%Z →
               count_atoms objs (sel_ocount self i) = 1%nat
               ∧ count_atoms objs (sel_ncount self i) = 1%nat).
Proof.
  intros Hm Hok objs.
  destruct (checkPeptide_Ok self w m Hm Hok) as (Hout & Hmn & mx & Hmx).
  split; [done|]. split; [done|]. exists mx. split; [done|].
  destruct (checkPeptide_run self w m 1 mx Hm Hmn Hmx) as [t Hrun].
  rewrite Hrun in Hok. cbn [fst negb Z.eqb Pos.eqb] in Hok.
  pose proof (first_error_Ok _ Hok) as Hall.
  intros i Hi.
  assert (Hrules : residue_rules objs self mx i = Ok tt).
  { apply Hall. apply list_elem_of_fmap. exists i. split; [done|].
    apply elem_of_seqZ. lia. }
  unfold residue_rules in Hrules.
  destruct (resname_of objs self i) as [resname|e]; [|done].
  exists resname. split; [done|]. cbn [rbind] in Hrules.
  destruct (amide_rules objs self mx i resname) as [[]|e] eqn:Ha; [|done].
  clear Hrules. unfold amide_rules, consistency in Ha.
  split.
  - intros Hi1 Hpro.
    destruct (Z.ltb_spec 1 i); [|lia].
    assert (in_list resname ["PRO"; "DPRO"] = false) as Hin.
    { destruct (in_list resname ["PRO"; "DPRO"]) eqn:E; [|done].
      by apply in_list_elem in E. }
    rewrite Hin in Ha. cbn [andb negb] in Ha.
    destruct (Nat.eqb_spec (count_atoms objs (sel_hcount self i)) 1); [|done].
    destruct (Nat.eqb_spec (count_atoms objs (sel_ccount self i)) 1); [|done].
    done.
  - intros Hi2.
    destruct ((1 <? i)%Z && negb (in_list resname ["PRO"; "DPRO"])).
    + destruct (negb (count_atoms objs (sel_hcount self i) =? 1)%nat); [done|].
      destruct (negb (count_atoms objs (sel_ccount self i) =? 1)%nat); [done|].
      cbn [rbind] in Ha. destruct (Z.ltb_spec i mx); [|lia].
      destruct (Nat.eqb_spec (count_atoms objs (sel_ocount self i)) 1); [|done].
      destruct (Nat.eqb_spec (count_atoms objs (sel_ncount self i)) 1); [|done].
      done.
    + cbn [rbind] in Ha. destruct (Z.ltb_spec i mx); [|lia].
      destruct (Nat.eqb_spec (count_atoms objs (sel_ocount self i)) 1); [|done].
      destruct (Nat.eqb_spec (count_atoms objs (sel_ncount self i)) 1); [|done].
      done.
Qed.

Lemma passing_peptide_is_contiguous_witness :
  let objs := objects example.chains in
  outcome (checkPeptide "gg") example.chains = (Ok tt, example.chains)
  ∧ min_resi example.diglycine = Ok 1%Z
  ∧ ∃ mx, max_resi example.diglycine = Ok mx
    ∧ ∀ i, (1 ≤ i ≤ mx)%Z →
        ∃ resname, resname_of objs "gg" i = Ok resname
          ∧ ((1 < i)%Z → resname ∉ ["PRO"; "DPRO"] →
               count_atoms objs (sel_hcount "gg" i) = 1%nat
               ∧ count_atoms objs (sel_ccount "gg" i) = 1%nat)
          ∧ ((i < mx)%Z →
               count_atoms objs (sel_ocount "gg" i) = 1%nat
               ∧ count_atoms objs (sel_ncount "gg" i) = 1%nat).
Proof.
  apply (passing_peptide_is_contiguous "gg" example.chains example.diglycine).
  - vm_compute. reflexivity.
  - vm_compute. reflexivity.
Defined.



End chain_facts.

(* ------------------------------------------------------------------ *)
(** ** The sequence grammar: commas and whitespace                     *)
(* ------------------------------------------------------------------ *)

Module grammar_facts.
Import BetaPeptide text_facts.
Export text_spec.

Lemma split_comma_go_comma a b cur :
  split_comma_go (a +:+ "," +:+ b) cur = split_comma_go a cur ++ split_comma_go b "".
Proof.
  revert cur. induction a as [|c a IH]; intros cur.
  - rewrite append_nil_l, append_cons, append_nil_l. done.
  - rewrite append_cons. cbn [split_comma_go].
    destruct (Ascii.eqb c ","); by rewrite IH.
Qed.

Lemma parse_all_app db l1 l2 :
  parse_all db (l1 ++ l2)
  = rbind (parse_all db l1) (λ r1, rbind (parse_all db l2) (λ r2, Ok (r1 ++ r2))).
Proof.
  induction l1 as [|a l1 IH]; cbn [app parse_all rbind].
  - by destruct (parse_all db l2).
  - destruct (parse_aminoacid db a) as [r|e]; [|done]. cbn [rbind]. rewrite IH.
    destruct (parse_all db l1) as [r1|e]; [|done]. cbn [rbind].
    by destruct (parse_all db l2).
Qed.

(** X19: a comma joins sequences. What [a,b] parses to is what [a]
    parses to followed by what [b] parses to, and it raises what [a]
    raises, or else what [b] raises. *)
Theorem parse_comma db a b :
  parseBetaPeptideSequence db (a +:+ "," +:+ b)
  = rbind (parseBetaPeptideSequence db a) (λ ra,
    rbind (parseBetaPeptideSequence db b) (λ rb, Ok (ra ++ rb))).
Proof.
  unfold parseBetaPeptideSequence, split_comma.
  by rewrite split_comma_go_comma, fmap_app, parse_all_app.
Qed.

Lemma strip_leading c s : is_space c = true → strip (String c s) = strip s.
Proof. intros Hc. unfold strip. cbn [lstrip]. by rewrite Hc. Qed.

Lemma lstrip_app s t :
  lstrip (s +:+ t) = if all_chars is_space s then lstrip t else lstrip s +:+ t.
Proof.
  induction s as [|c s IH]; [by rewrite append_nil_l|].
  rewrite append_cons. cbn [lstrip all_chars].
  destruct (is_space c); cbn [andb]; [done|]. by rewrite append_cons.
Qed.

Lemma lstrip_blank s : all_chars is_space s = true → lstrip s = "".
Proof.
  induction s as [|c s IH]; [done|]. cbn [all_chars lstrip].
  intros [-> Hs]%andb_true_iff. auto.
Qed.

Lemma strip_trailing c s : is_space c = true → strip (s +:+ String c "") = strip s.
Proof.
  intros Hc. unfold strip. rewrite lstrip_app.
  destruct (all_chars is_space s) eqn:Hs.
  - cbn [lstrip]. rewrite Hc. by rewrite (lstrip_blank s Hs).
  - rewrite str_rev_onto_app. cbn [str_rev_onto lstrip]. by rewrite Hc.
Qed.

Lemma str_rev_onto_acc a b : str_rev_onto a b = str_rev_onto a "" +:+ b.
Proof.
  revert b. induction a as [|c a IH]; intros b; [by rewrite append_nil_l|].
  cbn [str_rev_onto]. rewrite (IH (String c b)), (IH (String c "")).
  by rewrite append_assoc, append_cons, append_nil_l.
Qed.

Lemma strip_piece_leading c cur :
  is_space c = true →
  strip (str_rev_onto (cur +:+ String c "") "") = strip (str_rev_onto cur "").
Proof.
  intros Hc. rewrite str_rev_onto_app. cbn [str_rev_onto]. by apply strip_leading.
Qed.

Lemma strip_piece_trailing c cur :
  is_space c = true →
  strip (str_rev_onto (String c cur) "") = strip (str_rev_onto cur "").
Proof.
  intros Hc. cbn [str_rev_onto]. rewrite str_rev_onto_acc. by apply strip_trailing.
Qed.

Lemma split_comma_go_leading c s cur :
  is_space c = true →
  strip <$> split_comma_go s (cur +:+ String c "") = strip <$> split_comma_go s cur.
Proof.
  intros Hc. revert cur. induction s as [|x s IH]; intros cur.
  - cbn [split_comma_go]. rewrite !fmap_cons. f_equal. by apply strip_piece_leading.
  - cbn [split_comma_go]. destruct (Ascii.eqb x ",").
    + rewrite !fmap_cons. f_equal. by apply strip_piece_leading.
    + rewrite <- append_cons. apply IH.
Qed.

Lemma space_no_comma c : is_space c = true → Ascii.eqb c "," = false.
Proof.
  intros Hc. destruct (Ascii.eqb_spec c ",") as [->|]; [|done].
  by vm_compute in Hc.
Qed.

Lemma split_comma_go_trailing c s cur :
  is_space c = true →
  strip <$> split_comma_go (s +:+ String c "") cur = strip <$> split_comma_go s cur.
Proof.
  intros Hc. revert cur. induction s as [|x s IH]; intros cur.
  - rewrite append_nil_l. cbn [split_comma_go]. rewrite (space_no_comma c Hc).
    cbn [split_comma_go]. rewrite !fmap_cons. f_equal. by apply strip_piece_trailing.
  - rewrite append_cons. cbn [split_comma_go]. destruct (Ascii.eqb x ",").
    + rewrite !fmap_cons. f_equal. apply IH.
    + apply IH.
Qed.

(** X20: whitespace at the ends of a sequence is ignored: a sequence
    with a whitespace character before it, or after it, parses to what
    it parses to without. *)
Theorem parse_ignores_outer_whitespace db c T :
  is_space c = true →
  parseBetaPeptideSequence db (String c T) = parseBetaPeptideSequence db T
  ∧ parseBetaPeptideSequence db (T +:+ String c "") = parseBetaPeptideSequence db T.
Proof.
  intros Hc. unfold parseBetaPeptideSequence, split_comma. split.
  - cbn [split_comma_go]. rewrite (space_no_comma c Hc).
    change (String c "") with ("" +:+ String c "").
    by rewrite split_comma_go_leading.
  - by rewrite split_comma_go_trailing.
Qed.

Lemma parse_ignores_outer_whitespace_witness :
  parseBetaPeptideSequence SecondaryStructureDB.initial " ACE,BA"
  = parseBetaPeptideSequence SecondaryStructureDB.initial "ACE,BA"
  ∧ parseBetaPeptideSequence SecondaryStructureDB.initial "ACE,BA "
    = parseBetaPeptideSequence SecondaryStructureDB.initial "ACE,BA".
Proof.
  exact (parse_ignores_outer_whitespace SecondaryStructureDB.initial " " "ACE,BA" eq_refl).
Defined.

Lemma blank_no_comma s : all_chars is_space s = true → all_chars no_comma s = true.
Proof.
  apply all_chars_impl. intros c Hc. unfold no_comma. by rewrite space_no_comma.
Qed.

Lemma strip_blank s : all_chars is_space s = true → strip s = "".
Proof. intros Hs. unfold strip. by rewrite (lstrip_blank s Hs). Qed.

(** X21: an empty element is not a residue. A sequence that is empty or
    all whitespace raises [ValueError], and so does one that ends with
    a comma (when what is before the comma parses). *)
Theorem parse_blank db s :
  all_chars is_space s = true →
  parseBetaPeptideSequence db s
  = Raise (ValueError "Invalid amino-acid designation: ")
  ∧ ∀ T rs, parseBetaPeptideSequence db T = Ok rs →
      parseBetaPeptideSequence db (T +:+ "," +:+ s)
      = Raise (ValueError "Invalid amino-acid designation: ").
Proof.
  intros Hs.
  assert (Hblank : parseBetaPeptideSequence db s
                   = Raise (ValueError "Invalid amino-acid designation: ")).
  { unfold parseBetaPeptideSequence.
    rewrite (split_comma_plain s (blank_no_comma s Hs)).
    cbn [fmap list_fmap parse_all]. rewrite (strip_blank s Hs).
    assert (Hno : parse_aminoacid db ""
                  = Raise (ValueError "Invalid amino-acid designation: "))
      by (vm_compute; reflexivity).
    by rewrite Hno. }
  split; [done|]. intros T rs HT.
  unfold parseBetaPeptideSequence, split_comma in *.
  by rewrite split_comma_go_comma, fmap_app, parse_all_app, HT, Hblank.
Qed.

Lemma parse_blank_witness :
  parseBetaPeptideSequence SecondaryStructureDB.initial " "
  = Raise (ValueError "Invalid amino-acid designation: ")
  ∧ parseBetaPeptideSequence SecondaryStructureDB.initial "ACE,"
    = Raise (ValueError "Invalid amino-acid designation: ").
Proof.
  split.
  - exact (proj1 (parse_blank SecondaryStructureDB.initial " " eq_refl)).
  - apply (proj2 (parse_blank SecondaryStructureDB.initial "" eq_refl) "ACE"
             [Residue "ACE" "" "" "" "" None]).
    vm_compute. reflexivity.
Defined.

(** *** A secondary structure named after a residue *)

Lemma ssname_no_comma c : ssname_char c = true → no_comma c = true.
Proof.
  intros Hc. unfold no_comma. destruct (Ascii.eqb_spec c ",") as [->|]; [|done].
  by vm_compute in Hc.
Qed.

(** The pattern on a name in braces. *)
Lemma named_to name g :
  all_chars ssname_char name = true → starts solid name = true →
  first_to (re.Seq (re.star is_space) (re.Seq (re.Opt torsion_regex) re.Eol))
    ("{" +:+ name +:+ "}") g "" (dict_set "ssname" name g).
Proof.
  intros Hname Hstart.
  assert (Hlen : (1 ≤ String.length name)%nat).
  { destruct name; [done|simpl; lia]. }
  eapply to_Seq; [by apply to_Rep_none|].
  eapply to_Seq; [|apply to_Eol]. apply to_Opt_taken, to_Alt_r.
  { rewrite append_cons. vm_compute. reflexivity. }
  cbn [re.seq_of].
  eapply to_Seq; [apply to_Lit_app|].
  assert (Hs : starts solid (name +:+ "}") = true).
  { destruct name; [done|]. by rewrite append_cons. }
  eapply to_Seq; [apply to_Rep_none, solid_stops_space, Hs|].
  eapply to_Seq.
  { apply to_Group. by apply (first_Rep ssname_char 1 None name "}"). }
  eapply to_Seq; [by apply to_Rep_none|].
  apply (to_Lit_app "}" "").
Qed.

(** A token made of a residue designation [P] and a name in braces. *)
Lemma parse_named_token db P name G0 :
  all_chars token_char P = true → (1 ≤ String.length P)%nat →
  all_chars ssname_char name = true → starts solid name = true →
  first_to residue_regex (P +:+ "{" +:+ name +:+ "}") [] ("{" +:+ name +:+ "}") G0 →
  dict_get "phi" G0 = None → dict_get "theta" G0 = None →
  dict_get "psi" G0 = None →
  parseBetaPeptideSequence db (P +:+ "{" +:+ name +:+ "}")
  = rbind (SecondaryStructureDB.dihedrals db name) (λ v,
      rbind (residue_of (P +:+ "{" +:+ name +:+ "}") (dict_set "ssname" name G0)
               (Some (tuple_to_list v)))
            (λ r, Ok [r])).
Proof.
  intros HP Hlen Hname Hstart Hres H1 H2 H3.
  unfold parseBetaPeptideSequence.
  rewrite split_comma_plain.
  2:{ rewrite all_chars_app, (all_chars_impl _ _ _ token_no_comma HP).
      rewrite append_cons, append_nil_l. cbn [all_chars andb].
      rewrite all_chars_app, (all_chars_impl _ _ _ ssname_no_comma Hname). done. }
  cbn [fmap list_fmap]. rewrite strip_solid.
  - cbn [parse_all]. unfold parse_aminoacid.
    rewrite (match_to regex _ "" (dict_set "ssname" name G0)).
    + unfold parse_dihedrals. rewrite !dict_get_set.
      cbn [String.eqb Ascii.eqb Bool.eqb]. rewrite H1.
      destruct (SecondaryStructureDB.dihedrals db name) as [v|e]; [|done].
      cbn [rbind]. by destruct (residue_of _ _ _).
    + unfold regex. cbn [re.seq_of].
      eapply to_Seq; [exact Hres|]. by apply named_to.
  - destruct P as [|c P]; [simpl in Hlen; lia|]. rewrite append_cons.
    cbn [starts all_chars] in *. apply andb_true_iff in HP as [Hc _].
    by apply token_solid.
  - rewrite !str_rev_onto_app. done.
Qed.

(** X22: a name in braces after a residue stands for the three values
    stored under it, the middle one being [None] for the secondary
    structures of alpha-peptides. After a beta-3 residue every stored
    name is accepted, also one of an alpha-peptide; after an alpha
    residue every stored name is refused with "Too many dihedral
    angles", also one of an alpha-peptide. A name that is not stored
    raises [KeyError]. *)
Theorem name_in_braces db st sc name :
  upper_code sc = true →
  all_chars ssname_char name = true → starts solid name = true →
  (st ∈ ["R"; "S"] →
     parseBetaPeptideSequence db ("(" +:+ st +:+ ")B3h" +:+ sc +:+ "{" +:+ name +:+ "}")
     = match SecondaryStructureDB.dihedrals db name with
       | Ok v => Ok [Residue "B3" "G" "" sc st (Some [Some v.1.1; v.1.2; Some v.2])]
       | Raise e => Raise e
       end)
  ∧ (st ∈ ["R"; "S"; "L"; "D"] →
       parseBetaPeptideSequence db ("(" +:+ st +:+ ")A" +:+ sc +:+ "{" +:+ name +:+ "}")
       = match SecondaryStructureDB.dihedrals db name with
         | Ok v =>
             Raise (ValueError ("Too many dihedral angles specified in residue "
                                +:+ "(" +:+ st +:+ ")A" +:+ sc +:+ "{" +:+ name +:+ "}"))
         | Raise e => Raise e
         end).
Proof.
  intros Hsc Hname Hstart.
  apply upper_code_spec in Hsc as (Hup & Htok & Hlen1 & Hlen2).
  assert (Hbrace : stops is_upper ("{" +:+ name +:+ "}") = true)
    by (by rewrite append_cons).
  assert (Hbeta : ∀ st', st' = "R" ∨ st' = "S" →
            parseBetaPeptideSequence db
              (("(" +:+ st' +:+ ")" +:+ "B" +:+ "3" +:+ "h" +:+ sc) +:+ "{" +:+ name +:+ "}")
            = match SecondaryStructureDB.dihedrals db name with
              | Ok v => Ok [Residue "B3" "G" "" sc st' (Some [Some v.1.1; v.1.2; Some v.2])]
              | Raise e => Raise e
              end).
  { intros st' [-> | ->];
      (erewrite (parse_named_token db _ name);
       [ | rewrite ?all_chars_app, Htok; reflexivity
         | rewrite ?length_append; simpl; lia
         | done | done
         | round_trip_facts.designation
         | reflexivity | reflexivity | reflexivity ]);
      (destruct (SecondaryStructureDB.dihedrals db name) as [v|e]; [|done]);
      cbn [rbind]; vm_compute; reflexivity. }
  assert (Halpha : ∀ st', st' = "R" ∨ st' = "S" ∨ st' = "L" ∨ st' = "D" →
            parseBetaPeptideSequence db
              (("(" +:+ st' +:+ ")" +:+ "A" +:+ sc) +:+ "{" +:+ name +:+ "}")
            = match SecondaryStructureDB.dihedrals db name with
              | Ok v =>
                  Raise (ValueError ("Too many dihedral angles specified in residue "
                                     +:+ "(" +:+ st' +:+ ")A" +:+ sc +:+ "{" +:+ name
                                     +:+ "}"))
              | Raise e => Raise e
              end).
  { intros st' [-> | [-> | [-> | ->]]];
      (erewrite (parse_named_token db _ name);
       [ | rewrite ?all_chars_app, Htok; reflexivity
         | rewrite ?length_append; simpl; lia
         | done | done
         | round_trip_facts.designation
         | reflexivity | reflexivity | reflexivity ]);
      (destruct (SecondaryStructureDB.dihedrals db name) as [v|e]; [|done]);
      cbn [rbind]; vm_compute; reflexivity. }
  split.
  - intros Hst. rewrite !elem_of_cons, elem_of_nil in Hst.
    rewrite <- (Hbeta st) by tauto.
    destruct Hst as [-> | [-> | []]]; reflexivity.
  - intros Hst. rewrite !elem_of_cons, elem_of_nil in Hst.
    rewrite <- (Halpha st) by tauto.
    destruct Hst as [-> | [-> | [-> | [-> | []]]]]; reflexivity.
Qed.

Lemma name_in_braces_witness :
  parseBetaPeptideSequence SecondaryStructureDB.initial "(S)B3hV{Alpha-helix}"
  = Ok [Residue "B3" "G" "" "V" "S" (Some [Some (-57 # 1)%Q; None; Some (-47 # 1)%Q])]
  ∧ parseBetaPeptideSequence SecondaryStructureDB.initial "(S)AQ{Alpha-helix}"
    = Raise (ValueError
               "Too many dihedral angles specified in residue (S)AQ{Alpha-helix}")
  ∧ parseBetaPeptideSequence SecondaryStructureDB.initial "(S)AQ{unknown}"
    = Raise (KeyError "unknown").
Proof.
  split; [|split].
  - apply (proj1 (name_in_braces SecondaryStructureDB.initial "S" "V" "Alpha-helix"
                    eq_refl eq_refl eq_refl)).
    by repeat constructor.
  - apply (proj2 (name_in_braces SecondaryStructureDB.initial "S" "Q" "Alpha-helix"
                    eq_refl eq_refl eq_refl)).
    by repeat constructor.
  - apply (proj2 (name_in_braces SecondaryStructureDB.initial "S" "Q" "unknown"
                    eq_refl eq_refl eq_refl)).
    by repeat constructor.
Defined.

End grammar_facts.

(* ------------------------------------------------------------------ *)
(** ** Temporary names                                                 *)
(* ------------------------------------------------------------------ *)

Module temporary_facts.
Import pymol utils BetaPeptide pymol_facts fusion_facts checkPeptide_facts joining_facts.

Section temporary_names.
Variable orc : Oracle.

(** The search for a free name only reads the clock; the name it
    finds is that of no object and in no one's use. *)
Lemma free_name_outcome fuel prefix i w :
  ∃ c, (outcome (free_name orc fuel prefix i) w).2 = with_clock w c
       ∧ ((outcome (free_name orc fuel prefix i) w).1 = Raise NonTermination
          ∨ ∃ n, (outcome (free_name orc fuel prefix i) w).1 = Ok n
                 ∧ objects w !! n = None ∧ (n ∉ tempobjnames w)).
Proof.
  revert i w. induction fuel as [|fuel IH]; intros i w.
  - exists (clock w). split; [by destruct w|]. by left.
  - cbn [free_name]. rewrite outcome_get_world, outcome_modify.
    rewrite (outcome_bind_Ok cmd.get_object_list _ _
               (map_to_list (objects w)).*1 (with_clock w (S (clock w))))
      by reflexivity.
    rewrite outcome_get_world. cbn [objects with_clock tempobjnames].
    set (n := prefix +:+ str_N (N.of_nat i) +:+ monotonic orc (clock w)).
    destruct (in_list n (map_to_list (objects w)).*1) eqn:Hobj; cbn [negb andb].
    + destruct (IH (S i) (with_clock w (S (clock w)))) as (c & Hw & Hr).
      exists c. split; [by rewrite Hw|]. exact Hr.
    + destruct (in_list n (tempobjnames w)) eqn:Hreg; cbn [negb andb].
      * destruct (IH (S i) (with_clock w (S (clock w)))) as (c & Hw & Hr).
        exists c. split; [by rewrite Hw|]. exact Hr.
      * exists (S (clock w)). split; [done|]. right. exists n.
        split; [done|]. split; [by apply in_list_objects|].
        intros Hin%in_list_elem. congruence.
Qed.

End temporary_names.

End temporary_facts.

(* ------------------------------------------------------------------ *)
(** ** The capping groups                                              *)
(* ------------------------------------------------------------------ *)

Module capping_facts.
Import pymol utils BetaPeptide pymol_facts fusion_facts checkPeptide_facts joining_facts.
Export capping_spec.

Lemma imap_local {A B} (f : nat → A → B) (g : A → B) (l : list A) :
  (∀ i a, l !! i = Some a → f i a = g a) → imap f l = g <$> l.
Proof.
  revert f. induction l as [|x l IH]; intros f Hfg; [done|].
  cbn [imap fmap list_fmap]. f_equal; [by apply (Hfg 0%nat)|].
  apply IH. intros i a Hi. by apply (Hfg (S i)).
Qed.

(** [alter] on the atoms of one object that pass a test on the atom. *)
Lemma outcome_alter_in {A} X (p : Atom → bool) s e (k : unit → M A) w m :
  objects w !! X = Some m →
  (∀ o m' i a, objects w !! o = Some m' → atom m' !! i = Some a →
               selects (objects w) s o i = String.eqb X o && p a) →
  outcome (bind (cmd.alter s e) k) w
  = outcome (k tt)
      (with_objects w
         (<[X := mkIndexed ((λ a, if p a then assign e a else a) <$> atom m) (bond m)]>
            (objects w))).
Proof.
  intros Hm Hsel. unfold cmd.alter, cmd.update_objects.
  rewrite (outcome_bind_Ok _ k w tt
             (with_objects w
                (<[X := mkIndexed ((λ a, if p a then assign e a else a) <$> atom m)
                          (bond m)]> (objects w)))); [done|].
  unfold outcome, bind, emit, modify. cbn [fst snd]. f_equal. f_equal.
  assert (Hmap : map_imap (λ o m, Some (mkIndexed
                    (imap (λ i a, if selects (objects w) s o i then assign e a else a)
                       (atom m)) (bond m))) (objects w)
                 = <[X := mkIndexed ((λ a, if p a then assign e a else a) <$> atom m)
                            (bond m)]> (objects w)).
  { apply map_eq. intros o. rewrite map_lookup_imap.
    destruct (decide (o = X)) as [->|Hne].
    - rewrite lookup_insert_eq, Hm. cbn. f_equal. f_equal.
      apply imap_local. intros i a Hi.
      by rewrite (Hsel X m i a Hm Hi), String.eqb_refl.
    - rewrite lookup_insert_ne by done.
      destruct (objects w !! o) as [m'|] eqn:Ho; [|done]. cbn. f_equal.
      destruct m' as [atoms bonds]. cbn [atom bond]. f_equal.
      rewrite (imap_local _ id); [by rewrite list_fmap_id|].
      intros i a Hi. rewrite (Hsel o _ i a Ho Hi).
      destruct (String.eqb_spec X o); [congruence|done]. }
  by rewrite Hmap.
Qed.

Lemma outcome_bind_assoc {A B C} (m : M A) (f : A → M B) (k : B → M C) w :
  outcome (bind (bind m f) k) w = outcome (bind m (λ x, bind (f x) k)) w.
Proof.
  unfold outcome, bind. destruct (m w) as [[[a|e] w1] t1]; [|done].
  destruct (f a w1) as [[[b|e] w2] t2]; [|done].
  by destruct (k b w2) as [[??]?].
Qed.

Lemma outcome_ret_bind {A B} (a : A) (k : A → M B) w :
  outcome (bind (ret a) k) w = outcome (k a) w.
Proof. unfold outcome, bind, ret. by destruct (k a w) as [[??]?]. Qed.

Lemma selects_named objs X ns o m' i a :
  objs !! o = Some m' → atom m' !! i = Some a →
  selects objs (s_and (s_model X) (s_name ns)) o i
  = String.eqb X o && in_list (name a) ns.
Proof.
  intros Ho Hi. cbn [selects]. rewrite Ho. cbn [default from_option id].
  unfold atom_test. by rewrite Hi.
Qed.

Lemma selects_whole objs X o m' i (a : Atom) :
  objs !! o = Some m' → atom m' !! i = Some a →
  selects objs (s_model X) o i = String.eqb X o && true.
Proof. intros _ _. cbn [selects]. by rewrite andb_true_r. Qed.

Section caps.
Variable orc : Oracle.

(** The two alterations every constructor ends with. *)
Lemma outcome_place X m w :
  objects w !! X = Some m →
  outcome (cmd.alter (s_model X) (set_resv 1) >>
           cmd.alter (s_model X) (set_chain "A") >>
           ret X) w
  = (Ok X, with_objects w (<[X := capped id m]> (objects w))).
Proof.
  intros Hm.
  rewrite (outcome_alter_in X (λ _, true) _ _ _ w m Hm)
    by (intros; by eapply selects_whole).
  rewrite (outcome_alter_in X (λ _, true) _ _ _ _ _ (lookup_insert_eq _ _ _))
    by (intros; by eapply selects_whole).
  unfold outcome, ret. cbn [fst objects with_objects atom bond]. f_equal.
  unfold with_objects. cbn. f_equal. rewrite insert_insert_eq. f_equal.
  unfold capped. f_equal. rewrite <- list_fmap_compose.
  apply list_fmap_ext. intros _ a _. by destruct a.
Qed.

Lemma outcome_methyl {A} X m (k : unit → M A) w :
  objects w !! X = Some m →
  outcome (bind (rename_methyl_hydrogens X) k) w
  = outcome (k tt)
      (with_objects w
         (<[X := mkIndexed ((λ a, assign (set_name (methyl_name (name a))) a) <$> atom m)
                   (bond m)]> (objects w))).
Proof.
  intros Hm. unfold rename_methyl_hydrogens. cbn [for_each].
  change (str_N 1) with "1". change (str_N 2) with "2". change (str_N 3) with "3".
  rewrite outcome_bind_assoc.
  rewrite (outcome_alter_in X (λ a, in_list (name a) ["1HH3"]) _ _ _ w m Hm)
    by (intros; by eapply selects_named).
  rewrite outcome_bind_assoc.
  rewrite (outcome_alter_in X (λ a, in_list (name a) ["2HH3"]) _ _ _ _ _
             (lookup_insert_eq _ _ _))
    by (intros; by eapply selects_named).
  rewrite outcome_bind_assoc.
  rewrite (outcome_alter_in X (λ a, in_list (name a) ["3HH3"]) _ _ _ _ _
             (lookup_insert_eq _ _ _))
    by (intros; by eapply selects_named).
  rewrite outcome_ret_bind. f_equal.
  unfold with_objects. cbn [objects picked tempobjnames draws clock atom bond].
  f_equal. rewrite !insert_insert_eq. f_equal. f_equal.
  rewrite <- !list_fmap_compose. apply list_fmap_ext. intros _ a _.
  unfold compose, methyl_name, in_list.
  destruct a as [n ? ? ? ? ? ? ?]. cbn [existsb name assign].
  destruct (String.eqb n "1HH3") eqn:E1.
  { apply String.eqb_eq in E1 as ->. reflexivity. }
  cbn [orb name assign]. rewrite ?E1.
  destruct (String.eqb n "2HH3") eqn:E2.
  { apply String.eqb_eq in E2 as ->. reflexivity. }
  cbn [orb name assign]. rewrite ?E1, ?E2.
  destruct (String.eqb n "3HH3") eqn:E3.
  { apply String.eqb_eq in E3 as ->. reflexivity. }
  cbn [orb name assign]. reflexivity.
Qed.

Lemma outcome_fragment {A} frag X m (k : unit → M A) w :
  fragment_library orc frag = Some m →
  outcome (bind (cmd.fragment orc frag X) k) w
  = outcome (k tt) (with_objects w (<[X := m]> (objects w))).
Proof.
  intros Hfrag.
  apply (outcome_bind_Ok _ k w tt (with_objects w (<[X := m]> (objects w)))).
  unfold outcome, cmd.fragment, cmd.update_objects, bind, emit, modify.
  by rewrite Hfrag.
Qed.

Lemma capped_renamed f m :
  capped id (mkIndexed ((λ a, assign (set_name (f (name a))) a) <$> atom m) (bond m))
  = capped f m.
Proof.
  unfold capped. cbn [atom bond]. f_equal. rewrite <- list_fmap_compose.
  apply list_fmap_ext. intros _ a _. by destruct a.
Qed.

Lemma with_objects_twice w objs objs' :
  with_objects (with_objects w objs) objs' = with_objects w objs'.
Proof. done. Qed.

(** X24: the capping groups are made as residue 1 of chain A. [Ace] and
    [NMe] put the fragment of the library under the name given, in the
    place of what was there, with the three hydrogens of the methyl
    group renamed from 1HH3, 2HH3, 3HH3 to HH31, HH32, HH33 and the
    other names, the elements, the places and the bonds as in the
    fragment; [But] does so with the butyrate of the resource folder,
    without renaming. Nothing else of the session changes, and the name
    is returned. *)
Theorem caps_are_residue_1 modelname w :
  (∀ m, fragment_library orc "ace" = Some m →
        outcome (Ace orc modelname) w
        = (Ok modelname,
           with_objects w (<[modelname := capped methyl_name m]> (objects w))))
  ∧ (∀ m, fragment_library orc "nme" = Some m →
          outcome (NMe orc modelname) w
          = (Ok modelname,
             with_objects w (<[modelname := capped methyl_name m]> (objects w))))
  ∧ outcome (But orc modelname) w
    = (Ok modelname,
       with_objects w (<[modelname := capped id (resource orc "butyrate.pkl")]>
                         (objects w))).
Proof.
  assert (Hcap : ∀ frag m, fragment_library orc frag = Some m →
            outcome (cmd.fragment orc frag modelname >>
                     rename_methyl_hydrogens modelname >>
                     cmd.alter (s_model modelname) (set_resv 1) >>
                     cmd.alter (s_model modelname) (set_chain "A") >>
                     ret modelname) w
            = (Ok modelname,
               with_objects w (<[modelname := capped methyl_name m]> (objects w)))).
  { intros frag m Hfrag.
    rewrite (outcome_fragment frag modelname m _ w Hfrag).
    rewrite (outcome_methyl modelname m)
      by (cbn [objects with_objects]; apply lookup_insert_eq).
    rewrite (outcome_place modelname _ _ (lookup_insert_eq _ _ _)).
    rewrite !with_objects_twice. cbn [objects with_objects].
    by rewrite !insert_insert_eq, capped_renamed. }
  split; [|split].
  - intros m Hfrag. by apply Hcap.
  - intros m Hfrag. by apply Hcap.
  - unfold But.
    rewrite (outcome_bind_Ok _ _ w tt
               (with_objects w (<[modelname := resource orc "butyrate.pkl"]> (objects w))))
      by reflexivity.
    rewrite (outcome_place modelname _ _ (lookup_insert_eq _ _ _)).
    rewrite !with_objects_twice. cbn [objects with_objects].
    by rewrite !insert_insert_eq.
Qed.
End caps.

Lemma caps_are_residue_1_witness :
  outcome (Ace example.host_with_acetyl "cap") example.session
  = (Ok "cap",
     with_objects example.session
       (<["cap" := capped methyl_name example.acetyl]> (objects example.session)))
  ∧ (resi_number <$> atom (capped methyl_name example.acetyl)) = [1; 1; 1; 1; 1; 1]%Z
  ∧ (name <$> atom (capped methyl_name example.acetyl))
    = ["C"; "O"; "CH3"; "HH31"; "HH32"; "HH33"].
Proof.
  split; [|split; reflexivity].
  apply (proj1 (caps_are_residue_1 example.host_with_acetyl "cap" example.session)).
  reflexivity.
Defined.

End capping_facts.

(* ------------------------------------------------------------------ *)
(** ** The first residue                                               *)
(* ------------------------------------------------------------------ *)

Module terminus_facts.
Import pymol utils BetaPeptide pymol_facts fusion_facts checkPeptide_facts joining_facts.

(** The lowest residue number is the number of an atom. *)
Lemma min_resi_attained m mn :
  min_resi m = Ok mn → ∃ a, a ∈ atom m ∧ resi_number a = mn.
Proof.
  unfold min_resi. destruct (atom m) as [|a0 l]; [done|]. intros [= <-].
  assert (H : ∀ (l : list Atom) z,
            foldl (λ m b, Z.min m (resi_number b)) z l = z
            ∨ ∃ a, a ∈ l ∧ resi_number a = foldl (λ m b, Z.min m (resi_number b)) z l).
  { clear. induction l as [|b l IH]; intros z; [by left|]. cbn [foldl].
    destruct (IH (Z.min z (resi_number b))) as [Heq|(a & Ha & Heq)].
    - rewrite Heq. destruct (Z.min_spec z (resi_number b)) as [[_ ->]|[_ ->]].
      + by left.
      + right. exists b. split; [left|done].
    - right. exists a. split; [by right|done]. }
  destruct (H l (resi_number a0)) as [->|(a & Ha & <-)].
  - exists a0. split; [left|done].
  - exists a. split; [by right|done].
Qed.


End terminus_facts.

(* ------------------------------------------------------------------ *)
(** ** A residue made with the name of a secondary structure           *)
(* ------------------------------------------------------------------ *)

Module constructor_facts.
Import AminoAcidResidue.

(** X26: the constructor of a residue, given the name of a secondary
    structure, takes the angles stored under it, leaving out the [None]
    of an alpha entry: the name of an alpha entry makes an alpha residue
    and is refused for a beta-3 residue, and the other way round for
    the name of a beta entry; a name that is not stored raises
    [KeyError]. *)
Theorem init_with_name db stereo sidechain name :
  in_list stereo ["R"; "S"] = true → known_sidechain sidechain = true →
  __init__ db "A" stereo sidechain "" "" (DihName name)
  = match SecondaryStructureDB.dihedrals db name with
    | Ok (phi, None, psi) =>
        Ok (Make "A" stereo "" "" sidechain (Some [Some phi; Some psi]))
    | Ok (_, Some _, _) => Raise (ValueError "Residue of kind A needs 2 dihedrals!")
    | Raise e => Raise e
    end
  ∧ __init__ db "B3" "" "" stereo sidechain (DihName name)
    = match SecondaryStructureDB.dihedrals db name with
      | Ok (phi, Some theta, psi) =>
          Ok (Make "B3" "" stereo sidechain "" (Some [Some phi; Some theta; Some psi]))
      | Ok (_, None, _) => Raise (ValueError "Residue of kind B3 needs 3 dihedrals!")
      | Raise e => Raise e
      end.
Proof.
  intros Hst Hsc. unfold __init__.
  assert (Hst' : in_list stereo ["R"; "S"; "D"; "L"] = true).
  { apply text_facts.in_list_cases in Hst.
    rewrite !elem_of_cons, elem_of_nil in Hst. by destruct_or!; subst. }
  destruct (SecondaryStructureDB.dihedrals db name) as [[[phi [theta|]] psi]|e];
    cbn [rbind]; [| |by split].
  - cbn [BetaPeptide.tuple_to_list omap list_omap fmap list_fmap option_bind id fst snd
         mbind option_bind].
    change (in_list "A" KINDS) with true. change (in_list "B3" KINDS) with true.
    cbn [negb]. rewrite Hst', Hst, Hsc. split; reflexivity.
  - cbn [BetaPeptide.tuple_to_list omap list_omap fmap list_fmap option_bind id fst snd
         mbind option_bind].
    change (in_list "A" KINDS) with true. change (in_list "B3" KINDS) with true.
    cbn [negb]. rewrite Hst', Hst, Hsc. split; reflexivity.
Qed.

Lemma init_with_name_witness :
  __init__ SecondaryStructureDB.initial "A" "S" "Q" "" "" (DihName "Alpha-helix")
  = Ok (Make "A" "S" "" "" "Q" (Some [Some (-57 # 1)%Q; Some (-47 # 1)%Q]))
  ∧ __init__ SecondaryStructureDB.initial "B3" "" "" "S" "Q" (DihName "Alpha-helix")
    = Raise (ValueError "Residue of kind B3 needs 3 dihedrals!").
Proof.
  destruct (init_with_name SecondaryStructureDB.initial "S" "Q" "Alpha-helix"
              eq_refl eq_refl) as [Ha Hb].
  split; [exact Ha | exact Hb].
Defined.

End constructor_facts.
